(** * Hahaton-Cherpy: the site crawler ([parses.py]) and the answer engine
      ([main.py]), embedded in Rocq.

    Python values are modelled as the code has them: a [str] is a sequence of
    Unicode code points, [Set[str]] is a [gset], [None] is [None] of an
    [option], a raised exception is an [Err] result, and the effects of the
    crawler (the visited set, the record list, HTTP requests, files written
    and removed) are threaded through an explicit state. *)

From Stdlib Require Import ZArith NArith Lia Ascii String.
From stdpp Require Import gmap list.

Open Scope N_scope.

(** ** Python strings *)

(** A [str] is a list of code points. *)
Abbreviation str := (list N).

(** The code points [c] with [chr(c).isspace()]; the [re] module's [\s] (on
    [str] patterns) and [str.strip()] use the same class. *)
Definition unicode_whitespace : list N :=
  [9; 10; 11; 12; 13; 28; 29; 30; 31; 32; 133; 160; 5760;
   8192; 8193; 8194; 8195; 8196; 8197; 8198; 8199; 8200; 8201; 8202;
   8232; 8233; 8239; 8287; 12288].

Definition is_space (c : N) : bool := existsb (N.eqb c) unicode_whitespace.

Definition SPACE : N := 32.
Definition DASH : N := 45.
Definition NEWLINE : N := 10.
Definition DOT : N := 46.
Definition SLASH : N := 47.

(** [s.lstrip()], [s.rstrip()], [s.strip()] *)
Fixpoint lstrip (s : str) : str :=
  match s with
  | c :: t => if is_space c then lstrip t else s
  | [] => []
  end.

Fixpoint rstrip (s : str) : str :=
  match s with
  | [] => []
  | c :: t =>
      match rstrip t with
      | [] => if is_space c then [] else [c]
      | t' => c :: t'
      end
  end.

Definition strip (s : str) : str := rstrip (lstrip s).

Definition starts_with_space (s : str) : bool :=
  match s with
  | c :: _ => is_space c
  | [] => false
  end.

(** An ASCII literal of the source as a [str]. *)
Definition py (s : string) : str :=
  List.map N_of_ascii (list_ascii_of_string s).

(** [s.startswith(p)], [s.endswith(p)] and [p in s] *)
Fixpoint startswith (s p : str) : bool :=
  match p, s with
  | [], _ => true
  | a :: p', b :: s' => (a =? b) && startswith s' p'
  | _ :: _, [] => false
  end.

Definition endswith (s p : str) : bool := startswith (rev s) (rev p).

Fixpoint contains (p s : str) : bool :=
  startswith s p ||
  match s with
  | [] => false
  | _ :: t => contains p t
  end.

(** [sep.join(parts)] *)
Fixpoint join (sep : str) (parts : list str) : str :=
  match parts with
  | [] => []
  | p :: rest =>
      match rest with
      | [] => p
      | _ :: _ => p ++ sep ++ join sep rest
      end
  end.

(** [s.split(sep)] for a one-character separator: one more part than there
    are separators, so never the empty list. *)
Fixpoint split (sep : N) (s : str) : list str :=
  match s with
  | [] => [[]]
  | c :: t =>
      if c =? sep then [] :: split sep t
      else match split sep t with
           | h :: r => (c :: h) :: r
           | [] => [[c]]
           end
  end.

(** [bool(s)] of a string: non-empty. *)
Definition truthy (s : str) : bool :=
  match s with
  | [] => false
  | _ :: _ => true
  end.

(** [str(n)] of a non-negative integer. *)
Fixpoint digits (d : Decimal.uint) : str :=
  match d with
  | Decimal.Nil => []
  | Decimal.D0 d => 48 :: digits d
  | Decimal.D1 d => 49 :: digits d
  | Decimal.D2 d => 50 :: digits d
  | Decimal.D3 d => 51 :: digits d
  | Decimal.D4 d => 52 :: digits d
  | Decimal.D5 d => 53 :: digits d
  | Decimal.D6 d => 54 :: digits d
  | Decimal.D7 d => 55 :: digits d
  | Decimal.D8 d => 56 :: digits d
  | Decimal.D9 d => 57 :: digits d
  end.

Definition str_of_nat (n : nat) : str := digits (Nat.to_uint n).

(** ** Text Normalizer: [CompleteWebsiteScraper.clean_text] *)

Section Normalizer.

(** [re]'s [\w] on [str]: the Unicode alphanumerics and the underscore. The
    table is the interpreter's; the normalizer is verified for any table. *)
Variable is_word : N -> bool.

(** The characters listed literally in the class [[^\w\s.,:;!?()\-\n]]. *)
Definition listed : list N := [46; 44; 58; 59; 33; 63; 40; 41; 45; 10].

Definition kept (c : N) : bool :=
  is_word c || is_space c || existsb (N.eqb c) listed.

(** [re.sub(r'[^\w\s.,:;!?()\-\n]', '', text)] *)
Definition sub_foreign (text : str) : str := List.filter kept text.

(** [re.sub(r'\s+', ' ', text)]: [in_run] tells that the previous character
    belonged to the whitespace run being replaced. *)
Fixpoint sub_spaces (in_run : bool) (text : str) : str :=
  match text with
  | [] => []
  | c :: t =>
      if is_space c
      then (if in_run then sub_spaces true t else SPACE :: sub_spaces true t)
      else c :: sub_spaces false t
  end.

(** [re.sub(r'-\s+', '', text)]: [in_match] tells that the scan is inside
    the [\s+] of a match, whose characters are dropped greedily. *)
Fixpoint sub_hyphen (in_match : bool) (text : str) : str :=
  match text with
  | [] => []
  | c :: t =>
      if in_match && is_space c then sub_hyphen true t
      else if (c =? DASH) && starts_with_space t then sub_hyphen true t
      else c :: sub_hyphen false t
  end.

Definition clean_text (text : str) : str :=
  let text := sub_foreign text in
  let text := sub_spaces false text in
  let text := sub_hyphen false text in
  strip text.

(** *** Normal forms of the normalizer *)

(** A character that the first substitution keeps, and that is the plain
    space if it is whitespace at all. *)
Definition plain (c : N) : Prop :=
  kept c = true /\ (is_space c = true -> c = SPACE).

(** No character satisfying [p] is immediately followed by whitespace. *)
Fixpoint no_space_after (p : N -> bool) (s : str) : bool :=
  match s with
  | a :: t => negb (p a && starts_with_space t) && no_space_after p t
  | [] => true
  end.

Definition is_dash (c : N) : bool := c =? DASH.

(** The normal form that [clean_text] produces. *)
Definition normal (s : str) : Prop :=
  Forall plain s
  /\ no_space_after is_space s = true
  /\ no_space_after is_dash s = true
  /\ strip s = s.

End Normalizer.

(** ** Exceptions and results *)

Inductive exn :=
| ConnectionError
| HTTPError
| ValueError
| KeyError
| NameError (name : string)
| OSError
| AttributeError.

(** The outcome of a Python expression: a value, or a raised exception. *)
Inductive result (A : Type) :=
| Ok (a : A)
| Err (e : exn).

Arguments Ok {A} a.
Arguments Err {A} e.

(** ** The parsed document ([bs4]) *)

(** A node of the tree that [BeautifulSoup(text, 'html.parser')] builds:
    [Text] is a [NavigableString] (or [CData]), the strings that [get_text]
    returns; [Special] is any other string node (comment, doctype,
    declaration), which [get_text] skips; [Element] is a [Tag]. *)
#[local] Unset Elimination Schemes.

Inductive node :=
| Text (s : str)
| Special (s : str)
| Element (name : str) (attrs : list (str * str)) (children : list node).

#[local] Set Elimination Schemes.

(** A document is the list of the top-level nodes. *)
Abbreviation soup := (list node).

Definition str_eqb (a b : str) : bool := bool_decide (a = b).

(** [tag.get(key)] *)
Definition attr_get (key : str) (attrs : list (str * str)) : option str :=
  match List.find (fun kv => str_eqb (fst kv) key) attrs with
  | Some kv => Some (snd kv)
  | None => None
  end.

Definition tag_get (key : str) (n : node) : option str :=
  match n with
  | Element _ attrs _ => attr_get key attrs
  | _ => None
  end.

Definition tag_name (n : node) : str :=
  match n with
  | Element name _ _ => name
  | _ => []
  end.

(** The tags below (and including) a node, in document order. *)
Fixpoint tags_of (n : node) : list node :=
  match n with
  | Element _ _ children => n :: flat_map tags_of children
  | _ => []
  end.

(** [soup.find_all(name)] *)
Definition find_all (name : str) (doc : soup) : list node :=
  List.filter (fun n => str_eqb (tag_name n) name) (flat_map tags_of doc).

(** [soup.find_all(name, key=True)]: the tags that carry the attribute. *)
Definition find_all_with (name key : str) (doc : soup) : list node :=
  List.filter (fun n => bool_decide (is_Some (tag_get key n))) (find_all name doc).

(** [for element in soup(names): element.decompose()]: every tag with one
    of the names disappears from the tree with all that is below it. *)
Fixpoint decompose (names : list str) (n : node) : list node :=
  match n with
  | Element name attrs children =>
      if existsb (str_eqb name) names then []
      else [Element name attrs (flat_map (decompose names) children)]
  | _ => [n]
  end.

Definition decompose_all (names : list str) (doc : soup) : soup :=
  flat_map (decompose names) doc.

(** The strings [get_text] iterates over, in document order. *)
Fixpoint all_strings (n : node) : list str :=
  match n with
  | Text s => [s]
  | Special _ => []
  | Element _ _ children => flat_map all_strings children
  end.

(** [soup.get_text(sep, strip=True)]: each string is stripped, and dropped
    when nothing is left of it. *)
Definition get_text_stripped (sep : str) (doc : soup) : str :=
  join sep (List.filter truthy (List.map strip (flat_map all_strings doc))).

(** [tag.string] *)
Fixpoint node_string (n : node) : option str :=
  match n with
  | Text s => Some s
  | Special s => Some s
  | Element _ _ (c :: nil) => node_string c
  | Element _ _ _ => None
  end.

(** The tags removed before the text is taken. *)
Definition REMOVED_TAGS : list str :=
  [py "script"; py "style"; py "iframe"; py "noscript"].

(** The [main_text] of [scrape_page]:
    ['\n'.join(line for line in soup.get_text('\n', strip=True).split('\n')
               if line.strip())] *)
Definition lines_kept (s : str) : list str :=
  List.filter (fun line => truthy (strip line)) (split NEWLINE s).

Definition main_text_of (doc : soup) : str :=
  join [NEWLINE] (lines_kept (get_text_stripped [NEWLINE] doc)).

(** ** The visible text as the specification words it

    These definitions follow the words of the specification and use none of
    the definitions above: they are what [main_text_of] is compared with. *)

(** The tags whose subtrees are not visible. *)
Definition hidden_tag (name : str) : bool :=
  bool_decide (name = py "script") || bool_decide (name = py "style")
  || bool_decide (name = py "iframe") || bool_decide (name = py "noscript").

(** The remaining text nodes, in document order. *)
Fixpoint remaining_text_nodes (n : node) : list str :=
  match n with
  | Text s => [s]
  | Special _ => []
  | Element name _ children =>
      if hidden_tag name then []
      else flat_map remaining_text_nodes children
  end.

(** Joined by newline. *)
Fixpoint newline_joined (parts : list str) : str :=
  match parts with
  | [] => []
  | p :: rest =>
      match rest with
      | [] => p
      | _ :: _ => p ++ 10 :: newline_joined rest
      end
  end.

(** The lines of a text: what stands between two newlines, before the first
    and after the last; [current] holds the line being read, backwards. *)
Fixpoint lines_from (current : str) (s : str) : list str :=
  match s with
  | [] => [rev current]
  | c :: t =>
      if c =? 10 then rev current :: lines_from [] t
      else lines_from (c :: current) t
  end.

(** A blank line holds nothing but whitespace. *)
Definition blank (line : str) : bool := forallb is_space line.

Definition without_blank_lines (s : str) : str :=
  newline_joined (List.filter (fun line => negb (blank line)) (lines_from [] s)).

(** The visible text in the words of the specification: the remaining text
    nodes joined by newline, with the blank lines removed. *)
Definition claimed_visible_text (doc : soup) : str :=
  without_blank_lines (newline_joined (flat_map remaining_text_nodes doc)).

(** A text node without the whitespace at its ends. *)
Fixpoint skip_spaces (s : str) : str :=
  match s with
  | c :: t => if is_space c then skip_spaces t else s
  | [] => []
  end.

Definition trimmed (s : str) : str := rev (skip_spaces (rev (skip_spaces s))).

Definition is_empty (s : str) : bool :=
  match s with
  | [] => true
  | _ :: _ => false
  end.

(** The visible text, amended: every remaining text node is trimmed first,
    and left out when nothing remains of it. *)
Definition spec_visible_text (doc : soup) : str :=
  without_blank_lines
    (newline_joined
       (List.filter (fun s => negb (is_empty s))
          (List.map trimmed (flat_map remaining_text_nodes doc)))).

(** ** Data model *)

Abbreviation bytes := (list Byte.byte).

(** The [links] dictionary of [extract_links]: five sets of URLs. *)
Record links := mkLinks {
  internal : gset str;
  external : gset str;
  files_pdf : gset str;
  files_images : gset str;
  files_other : gset str
}.

Inductive bucket :=
| BInternal
| BExternal
| BPdf
| BImages
| BOther.

Definition bucket_of (b : bucket) (l : links) : gset str :=
  match b with
  | BInternal => internal l
  | BExternal => external l
  | BPdf => files_pdf l
  | BImages => files_images l
  | BOther => files_other l
  end.

Definition no_links : links := mkLinks ∅ ∅ ∅ ∅ ∅.

(** [links[...].add(url)] *)
Definition add_link (b : bucket) (url : str) (l : links) : links :=
  match b with
  | BInternal =>
      mkLinks ({[url]} ∪ internal l) (external l) (files_pdf l) (files_images l) (files_other l)
  | BExternal =>
      mkLinks (internal l) ({[url]} ∪ external l) (files_pdf l) (files_images l) (files_other l)
  | BPdf =>
      mkLinks (internal l) (external l) ({[url]} ∪ files_pdf l) (files_images l) (files_other l)
  | BImages =>
      mkLinks (internal l) (external l) (files_pdf l) ({[url]} ∪ files_images l) (files_other l)
  | BOther =>
      mkLinks (internal l) (external l) (files_pdf l) (files_images l) ({[url]} ∪ files_other l)
  end.

Record image_entry := mkImage {
  img_url : str;
  alt_text : str;
  ocr_text : str
}.

Record metadata := mkMetadata {
  title : option str;
  description : option str;
  keywords : option str;
  og : gmap str str
}.

(** The dictionary returned by [extract_from_pdf]. *)
Record pdf_result := mkPdfResult {
  pdf_text : option str;
  pdf_local_path : option str
}.

Definition PDF_FAILURE : pdf_result := mkPdfResult None None.

Record file_entry := mkFileEntry {
  file_type : str;
  file_url : str;
  content : str;
  local_path : option str
}.

(** The links of a record are lists: [list(links['internal'])] and so on. *)
Record link_lists := mkLinkLists {
  l_internal : list str;
  l_external : list str;
  l_pdf : list str;
  l_images : list str;
  l_other : list str
}.

(** One element of [self.data]. *)
Record page_record := mkPage {
  url : str;
  text : str;
  images : list image_entry;
  page_metadata : metadata;
  page_links : link_lists;
  files_content : list file_entry
}.

(** ** The environment *)

(** What the crawler does to the outside, newest event first. *)
Inductive get_kind :=
| GetPage
| GetImage
| GetPdf
| GetDownload.

Inductive event :=
| EvVisit (u : str)
| EvGet (k : get_kind) (u : str)
| EvWrite (path : str)
| EvRemove (path : str)
| EvAppend (u : str).

(** A response of [session.get]. The body is the bytes that arrive;
    [body_complete] is false when reading it raises after those bytes. *)
Record response := mkResponse {
  status_ok : bool;
  content_type : option str;
  content_length : option str;
  response_text : str;
  body : bytes;
  body_complete : bool
}.

(** The collaborators of the crawler, not part of the repository: the web,
    the HTML parser, [urllib.parse], Tesseract, the interpreter's tables and
    the file system's naming. A request is answered after the history of
    events before it, so the web may change between two requests.
    [urljoin(base, url)] and [urlparse(url).netloc] raise on a URL that
    [urllib] rejects (a bracket without its partner in the host, for
    one). *)
Record world := mkWorld {
  session_get : list event -> get_kind -> str -> result response;
  html_parser : str -> soup;
  urljoin : str -> str -> result str;
  netloc : str -> result str;
  lower : str -> str;
  int_of_str : str -> option Z;
  is_word : N -> bool;
  tesseract_installed : bool;
  image_to_string : bytes -> result str;
  pdf_text_capability : bytes -> result str;
  list_of_set : gset str -> list str;
  os_path_basename : str -> str;
  os_path_join : str -> str -> str;
  open_wb : str -> bool
}.

(** ** The scraper object *)

(** [self] of [CompleteWebsiteScraper], together with the file system it
    writes to and the events it has caused. *)
Record scraper := mkScraper {
  root_url : str;
  visited_urls : gset str;
  data : list page_record;
  max_pages : Z;
  ocr_enabled : bool;
  max_file_size : Z;
  download_documents : bool;
  fs : gmap str bytes;
  events : list event
}.

Definition with_visited (v : gset str) (s : scraper) : scraper :=
  mkScraper (root_url s) v (data s) (max_pages s) (ocr_enabled s)
    (max_file_size s) (download_documents s) (fs s) (events s).

Definition with_data (d : list page_record) (s : scraper) : scraper :=
  mkScraper (root_url s) (visited_urls s) d (max_pages s) (ocr_enabled s)
    (max_file_size s) (download_documents s) (fs s) (events s).

Definition with_fs (f : gmap str bytes) (s : scraper) : scraper :=
  mkScraper (root_url s) (visited_urls s) (data s) (max_pages s) (ocr_enabled s)
    (max_file_size s) (download_documents s) f (events s).

Definition log (e : event) (s : scraper) : scraper :=
  mkScraper (root_url s) (visited_urls s) (data s) (max_pages s) (ocr_enabled s)
    (max_file_size s) (download_documents s) (fs s) (e :: events s).

(** ** A state and exception monad for the methods *)

Definition M (A : Type) : Type := scraper -> result A * scraper.

Definition ret {A} (a : A) : M A := fun s => (Ok a, s).

Definition raise {A} (e : exn) : M A := fun s => (Err e, s).

Definition bind {A B} (m : M A) (k : A -> M B) : M B :=
  fun s =>
    match m s with
    | (Ok a, s') => k a s'
    | (Err e, s') => (Err e, s')
    end.

(** [try: body except Exception as e: handler]; what the body did to the
    state before it raised stays done. *)
Definition try_except {A} (body : M A) (handler : exn -> M A) : M A :=
  fun s =>
    match body s with
    | (Ok a, s') => (Ok a, s')
    | (Err e, s') => handler e s'
    end.

(** Reading an attribute of [self]. *)
Definition attr {A} (f : scraper -> A) : M A := fun s => (Ok (f s), s).

Definition modify (f : scraper -> scraper) : M unit := fun s => (Ok tt, f s).

(** A call of a library function that returns or raises, and leaves the
    scraper alone. *)
Definition lift {A} (r : result A) : M A := fun s => (r, s).

Notation "'let*' x ':=' m 'in' k" := (bind m (fun x => k))
  (at level 10, x name, m at level 100, k at level 200).

Notation "m ';;' k" := (bind m (fun _ => k))
  (at level 100, k at level 200, right associativity).

(** ** String literals of [parses.py] *)

(** The value returned when OCR is switched off. *)
Definition OCR_DISABLED : str :=
  [79; 67; 82; 32; 1086; 1090; 1082; 1083; 1102; 1095; 1077; 1085].

(** The value returned for an image above [max_file_size]. *)
Definition IMAGE_TOO_LARGE : str :=
  [1048; 1079; 1086; 1073; 1088; 1072; 1078; 1077; 1085; 1080; 1077; 32;
   1089; 1083; 1080; 1096; 1082; 1086; 1084; 32; 1073; 1086; 1083; 1100;
   1096; 1086; 1077].

(** The value returned when the content type is not an image. *)
Definition NOT_AN_IMAGE : str :=
  [85; 82; 76; 32; 1085; 1077; 32; 1074; 1077; 1076; 1077; 1090; 32; 1085;
   1072; 32; 1080; 1079; 1086; 1073; 1088; 1072; 1078; 1077; 1085; 1080;
   1077].

(** The value returned when Tesseract recognises nothing. *)
Definition OCR_EMPTY : str :=
  [1053; 1077; 32; 1091; 1076; 1072; 1083; 1086; 1089; 1100; 32; 1088;
   1072; 1089; 1087; 1086; 1079; 1085; 1072; 1090; 1100; 32; 1090; 1077;
   1082; 1089; 1090].

(** The value returned by the exception handler of the OCR step. *)
Definition OCR_ERROR : str :=
  [1054; 1096; 1080; 1073; 1082; 1072; 32; 1086; 1073; 1088; 1072; 1073;
   1086; 1090; 1082; 1080; 32; 1080; 1079; 1086; 1073; 1088; 1072; 1078;
   1077; 1085; 1080; 1103].

Definition ELLIPSIS : str := [DOT; DOT; DOT].

(** The names bound at module level in [parses.py]: its imports, its class
    and its function. A name that is neither here nor a builtin raises
    [NameError] when it is evaluated. *)
Definition module_names : list string :=
  ["os"; "re"; "json"; "requests"; "pytesseract"; "BytesIO"; "urljoin";
   "urlparse"; "BeautifulSoup"; "Image"; "shutil"; "List"; "Dict"; "Set";
   "Optional"; "Union"; "CompleteWebsiteScraper"; "start"]%string.

Definition name_bound (name : string) : bool :=
  existsb (String.eqb name) module_names.

(** ** The crawler: [CompleteWebsiteScraper] *)

Section Crawler.

Variable W : world.

(** [__init__]: OCR is switched off when Tesseract does not answer. *)
Definition init (root : str) (max_pages : Z) (ocr_enabled : bool)
    (max_file_size : Z) (download_documents : bool)
    (disk : gmap str bytes) : scraper :=
  mkScraper root ∅ [] max_pages
    (if ocr_enabled then tesseract_installed W else false)
    max_file_size download_documents disk [].

(** [is_valid_url]: the root is parsed only when the URL has a network
    location ([and] evaluates its right side only then). *)
Definition is_valid_url (self : scraper) (u : str) : result bool :=
  match netloc W u with
  | Ok n =>
      if truthy n then
        match netloc W (root_url self) with
        | Ok root => Ok (str_eqb n root)
        | Err e => Err e
        end
      else Ok false
  | Err e => Err e
  end.

(** [self.session.get(url, ...)] *)
Definition get (k : get_kind) (u : str) : M response :=
  fun s => (session_get W (events s) k u, log (EvGet k u) s).

(** [response.raise_for_status()] *)
Definition raise_for_status (r : response) : M unit :=
  if status_ok r then ret tt else raise HTTPError.

(** [int(response.headers.get('content-length', 0))] *)
Definition content_length_int (r : response) : M Z :=
  match content_length r with
  | None => ret 0%Z
  | Some v =>
      match int_of_str W v with
      | Some n => ret n
      | None => raise ValueError
      end
  end.

(** [with open(path, 'wb') as f:] followed by the copy of the body: the file
    exists from the moment it is opened, with the bytes that arrived. *)
Definition write_body (path : str) (r : response) : M unit :=
  if open_wb W path then
    modify (fun s => log (EvWrite path) (with_fs (<[path := body r]> (fs s)) s)) ;;
    if body_complete r then ret tt else raise ConnectionError
  else raise OSError.

(** [os.remove(path)] *)
Definition os_remove (path : str) : M unit :=
  fun s =>
    match fs s !! path with
    | Some _ => (Ok tt, log (EvRemove path) (with_fs (delete path (fs s)) s))
    | None => (Err OSError, s)
    end.

(** [pytesseract.image_to_string(Image.open(path), lang='rus')] *)
Definition ocr_file (path : str) : M str :=
  fun s =>
    match fs s !! path with
    | Some image => (image_to_string W image, s)
    | None => (Err OSError, s)
    end.

(** [download_file] *)
Definition download_file (u : str) (file_type : str) : M (option str) :=
  try_except
    (let* response := get GetDownload u in
     raise_for_status response ;;
     let* visited := attr visited_urls in
     let filename :=
       os_path_join W (py "downloaded_documents")
         (py "document_" ++ str_of_nat (size visited) ++ py "_" ++ file_type
            ++ py "." ++ file_type) in
     write_body filename response ;;
     ret (Some filename))
    (fun _ => ret None).

(** [extract_text_from_image] *)
Definition extract_text_from_image (img_url : str) : M str :=
  let* enabled := attr ocr_enabled in
  if negb enabled then ret OCR_DISABLED
  else
    try_except
      (let* response := get GetImage img_url in
       raise_for_status response ;;
       let* length := content_length_int response in
       let* limit := attr max_file_size in
       if (length >? limit)%Z then ret IMAGE_TOO_LARGE
       else if negb (contains (py "image") (default [] (content_type response)))
       then ret NOT_AN_IMAGE
       else
         let temp_img_path :=
           os_path_join W (py "temp_images") (os_path_basename W img_url) in
         write_body temp_img_path response ;;
         let* text := ocr_file temp_img_path in
         os_remove temp_img_path ;;
         ret (if truthy (strip text) then clean_text (is_word W) text
              else OCR_EMPTY))
      (fun _ => ret OCR_ERROR).

(** [extract_from_pdf] *)
Definition extract_from_pdf (pdf_url : str) : M pdf_result :=
  try_except
    (let* response := get GetPdf pdf_url in
     let* length := content_length_int response in
     let* limit := attr max_file_size in
     if (length >? limit)%Z then ret PDF_FAILURE
     else
       let* download := attr download_documents in
       let* local_path :=
         (if download then download_file pdf_url (py "pdf") else ret None) in
       (* [response.content] *)
       (if body_complete response then ret tt else raise ConnectionError) ;;
       (* [pdf_extract_text(pdf_file)] *)
       if name_bound "pdf_extract_text" then
         match pdf_text_capability W (body response) with
         | Ok text => ret (mkPdfResult (Some (clean_text (is_word W) text)) local_path)
         | Err e => raise e
         end
       else raise (NameError "pdf_extract_text"))
    (fun _ => ret PDF_FAILURE).

(** [extract_metadata]; [meta['content']] raises [KeyError] on an OpenGraph
    tag without content. *)
Definition first_tag (name : str) (doc : soup) : option node :=
  List.head (find_all name doc).

Definition meta_named (value : str) (doc : soup) : option node :=
  List.head
    (List.filter (fun n => bool_decide (tag_get (py "name") n = Some value))
       (find_all (py "meta") doc)).

Definition is_og (n : node) : bool :=
  match tag_get (py "property") n with
  | Some x => truthy x && startswith x (py "og:")
  | None => false
  end.

Fixpoint collect_og (metas : list node) (acc : gmap str str) : result (gmap str str) :=
  match metas with
  | [] => Ok acc
  | meta :: rest =>
      match tag_get (py "content") meta with
      | Some c => collect_og rest (<[default [] (tag_get (py "property") meta) := c]> acc)
      | None => Err KeyError
      end
  end.

Definition extract_metadata (doc : soup) : result metadata :=
  let title :=
    match first_tag (py "title") doc with
    | Some t => node_string t
    | None => None
    end in
  let description :=
    match meta_named (py "description") doc with
    | Some m => tag_get (py "content") m
    | None => None
    end in
  let keywords :=
    match meta_named (py "keywords") doc with
    | Some m => tag_get (py "content") m
    | None => None
    end in
  match collect_og (List.filter is_og (find_all (py "meta") doc)) ∅ with
  | Ok og => Ok (mkMetadata title description keywords og)
  | Err e => Err e
  end.

(** [extract_links] *)
Definition IMAGE_EXTENSIONS : list str :=
  [py ".jpg"; py ".jpeg"; py ".png"; py ".gif"; py ".bmp"].

(** [href.split('/')[-1]] *)
Definition last_segment (href : str) : str := List.last (split SLASH href) [].

(** The branch that an anchor takes in the loop of [extract_links], once
    its URL is resolved and checked: the tests after the check read the
    [href], not the resolved URL. *)
Definition branch (valid : bool) (href : str) : bucket :=
  if negb valid then BExternal
  else if endswith (lower W href) (py ".pdf") then BPdf
  else if existsb (endswith (lower W href)) IMAGE_EXTENSIONS then BImages
  else if existsb (N.eqb DOT) (last_segment href) then BOther
  else BInternal.

(** One turn of the loop: the resolved URL and its bucket, or the exception
    of [urljoin] or of [urlparse], which nothing in [extract_links]
    catches. *)
Definition classify (self : scraper) (base_url href : str) : result (str * bucket) :=
  match urljoin W base_url href with
  | Ok absolute_url =>
      match is_valid_url self absolute_url with
      | Ok valid => Ok (absolute_url, branch valid href)
      | Err e => Err e
      end
  | Err e => Err e
  end.

(** The [href] values of [soup.find_all('a', href=True)]. *)
Definition anchor_hrefs (doc : soup) : list str :=
  List.map (fun a => default [] (tag_get (py "href") a))
    (find_all_with (py "a") (py "href") doc).

(** The loop over the anchors: it ends at the first exception. *)
Fixpoint classify_all (self : scraper) (base_url : str) (hrefs : list str)
    (l : links) : result links :=
  match hrefs with
  | [] => Ok l
  | href :: rest =>
      match classify self base_url href with
      | Ok (absolute_url, b) =>
          classify_all self base_url rest (add_link b absolute_url l)
      | Err e => Err e
      end
  end.

Definition extract_links_from (self : scraper) (hrefs : list str)
    (base_url : str) : result links :=
  classify_all self base_url hrefs no_links.

(** [extract_links] reads [self.root_url] and builds a dictionary of its
    own. *)
Definition extract_links (doc : soup) (base_url : str) : M links :=
  let* self := attr id in
  lift (extract_links_from self (anchor_hrefs doc) base_url).

(** The OCR loop of [scrape_page] over [soup.find_all('img', src=True)]. *)
Definition OCR_EXTENSIONS : list str := [py ".jpg"; py ".jpeg"; py ".png"].

(** [img.get('src')] *)
Definition img_src (img : node) : str := default [] (tag_get (py "src") img).

Fixpoint ocr_images (page_url : str) (imgs : list node) : M (list image_entry) :=
  match imgs with
  | [] => ret []
  | img :: rest =>
      let* img_url := lift (urljoin W page_url (img_src img)) in
      if existsb (endswith (lower W img_url)) OCR_EXTENSIONS then
        let* ocr_text := extract_text_from_image img_url in
        let* more := ocr_images page_url rest in
        ret (if truthy ocr_text
             then mkImage img_url (default [] (tag_get (py "alt") img)) ocr_text :: more
             else more)
      else ocr_images page_url rest
  end.

(** [result['text'][:10000] + "..." if len(result['text']) > 10000
     else result['text']] *)
Definition CONTENT_LIMIT : Z := 10000.

Definition truncated (t : str) : str :=
  if (Z.of_nat (length t) >? CONTENT_LIMIT)%Z
  then take (Z.to_nat CONTENT_LIMIT) t ++ ELLIPSIS
  else t.

(** The PDF loop of [scrape_page], for a given extraction method. *)
Fixpoint pdf_contents (extract : str -> M pdf_result) (pdf_urls : list str)
    : M (list file_entry) :=
  match pdf_urls with
  | [] => ret []
  | pdf_url :: rest =>
      let* result := extract pdf_url in
      let* more := pdf_contents extract rest in
      ret (match pdf_text result with
           | Some t =>
               if truthy t
               then mkFileEntry (py "PDF") pdf_url (truncated t) (pdf_local_path result) :: more
               else more
           | None => more
           end)
  end.

(** The body of the [try] block of [scrape_page] up to [self.data.append]:
    it returns [list(links['internal'])[:5]], the links that the loop at the
    end of the block follows (none when the page is skipped). *)
Definition process_page (page_url : str) : M (list str) :=
  let* response := get GetPage page_url in
  raise_for_status response ;;
  if negb (contains (py "text/html") (default [] (content_type response)))
  then ret []
  else
    let doc := decompose_all REMOVED_TAGS (html_parser W (response_text response)) in
    let main_text := main_text_of doc in
    let* enabled := attr ocr_enabled in
    let* img_texts :=
      (if enabled then ocr_images page_url (find_all_with (py "img") (py "src") doc)
       else ret []) in
    let* metadata :=
      (match extract_metadata doc with
       | Ok m => ret m
       | Err e => raise e
       end) in
    let* links := extract_links doc page_url in
    let* files_content :=
      pdf_contents extract_from_pdf (take 3 (list_of_set W (files_pdf links))) in
    modify (fun s =>
      log (EvAppend page_url)
        (with_data
           (data s ++
            [mkPage page_url main_text img_texts metadata
               (mkLinkLists (list_of_set W (internal links))
                  (list_of_set W (external links))
                  (list_of_set W (files_pdf links))
                  (list_of_set W (files_images links))
                  (list_of_set W (files_other links)))
               files_content]) s)) ;;
    ret (take 5 (list_of_set W (internal links))).

(** [self.visited_urls.add(url)] *)
Definition mark_visited (u : str) (s : scraper) : scraper :=
  log (EvVisit u) (with_visited ({[u]} ∪ visited_urls s) s).

(** The guard of [scrape_page]:
    [url in self.visited_urls or len(self.visited_urls) >= self.max_pages] *)
Definition skip (u : str) (s : scraper) : bool :=
  bool_decide (u ∈ visited_urls s)
  || (Z.of_nat (size (visited_urls s)) >=? max_pages s)%Z.

(** [scrape_page]. The recursion of the source is bounded here by [fuel];
    [None] means that the fuel ran out, never that Python raised: the
    handler of the [try] block catches every exception of the body. The
    recursive calls stand inside the [try] block of the source; each call
    catches its own exceptions, so none reaches the caller and the loop over
    the links is written after the handler. The recursion limit of the
    interpreter is not part of the model. *)
Fixpoint scrape_page (fuel : nat) (u : str) (self : scraper) : option scraper :=
  match fuel with
  | O => None
  | S fuel =>
      if skip u self then Some self
      else
        match process_page u (mark_visited u self) with
        | (Ok follow, self') =>
            foldl (fun acc link =>
                     match acc with
                     | Some s => scrape_page fuel link s
                     | None => None
                     end)
              (Some self') follow
        | (Err _, self') => Some self'
        end
  end.

(** [run]: a crawl never nests deeper than the page cap allows. *)
Definition run_fuel (self : scraper) : nat := S (Z.to_nat (max_pages self)).

Definition run (self : scraper) : option scraper :=
  scrape_page (run_fuel self) (root_url self) self.

End Crawler.

(** ** The answer engine: [main.py] *)

(** The labels written by [save_answers] and the pieces of the prompt of
    [answer_questions]. *)
Definition Q_LABEL : str :=
  [1042; 1086; 1087; 1088; 1086; 1089; 58; 32].

Definition A_LABEL : str :=
  [1054; 1090; 1074; 1077; 1090; 58; 32].

Definition PROMPT_HEAD : str :=
  [1053; 1072; 32; 1086; 1089; 1085; 1086; 1074; 1077; 32; 1089; 1083;
   1077; 1076; 1091; 1102; 1097; 1077; 1075; 1086; 32; 1090; 1077; 1082;
   1089; 1090; 1072; 58; 10].

Definition PROMPT_ASK : str :=
  [10; 10; 1054; 1090; 1074; 1077; 1090; 1100; 32; 1090; 1086; 1095; 1085;
   1086; 32; 1085; 1072; 32; 1074; 1086; 1087; 1088; 1086; 1089; 58; 32].

Definition PROMPT_TAIL : str :=
  [10; 1045; 1089; 1083; 1080; 32; 1080; 1085; 1092; 1086; 1088; 1084;
   1072; 1094; 1080; 1080; 32; 1085; 1077; 1090; 44; 32; 1085; 1072; 1087;
   1080; 1096; 1080; 32; 39; 1048; 1085; 1092; 1086; 1088; 1084; 1072;
   1094; 1080; 1103; 32; 1085; 1077; 32; 1085; 1072; 1081; 1076; 1077;
   1085; 1072; 39].

(** The prefix of the user message in [call_llm]. *)
Definition USER_PREFIX : str :=
  [1050; 1086; 1085; 1090; 1077; 1085; 1090; 32; 1089; 1072; 1081; 1090;
   1072; 58; 32].

Section AnswerEngine.

(** [client.chat.completions.create(...)] followed by
    [.choices[0].message.content]: what the [n]-th request of the process
    yields for a user message, a content (possibly [None]) or an exception. *)
Variable completion : nat -> str -> result (option str).

(** [call_llm]: the handler prints and falls off the end of the function, so
    the call evaluates to [None]. A content of [None] raises at [.strip()]
    and ends the same way. *)
Definition call_llm (n : nat) (prompt : str) : option str :=
  match completion n (USER_PREFIX ++ prompt) with
  | Ok (Some c) => Some (strip c)
  | Ok None => None
  | Err _ => None
  end.

(** [summarize_text] *)
Definition summarize_text (text : str) (max_length : nat) : str :=
  take max_length text.

Definition prompt_for (summary question : str) : str :=
  PROMPT_HEAD ++ summary ++ PROMPT_ASK ++ question ++ PROMPT_TAIL.

(** [answer_questions], started when [n] requests have been made. *)
Fixpoint answer_questions (n : nat) (summary : str) (questions : list str)
    : list (str * option str) :=
  match questions with
  | [] => []
  | question :: rest =>
      let answer := call_llm n (prompt_for summary question) in
      (question, answer) :: answer_questions (S n) summary rest
  end.

(** An answer inside an f-string: [None] prints as its name. *)
Definition format_answer (a : option str) : str :=
  match a with
  | Some s => s
  | None => py "None"
  end.

Definition answer_block (qa : str * option str) : str :=
  Q_LABEL ++ fst qa ++ [NEWLINE]
  ++ A_LABEL ++ format_answer (snd qa) ++ [NEWLINE]
  ++ repeat DASH 80 ++ [NEWLINE; NEWLINE].

(** [save_answers]: the text files of the working directory are a map from
    names to contents; the file is opened with mode [w], so what it held
    before is lost. *)
Definition save_answers (answers : list (str * option str)) (filename : str)
    (disk : gmap str str) : gmap str str :=
  <[filename := concat (List.map answer_block answers)]> disk.

End AnswerEngine.

(** ** The flattened results: the text file of [save_results] *)

(** The labels that [save_results] writes to [full_data.txt]. *)
Definition URL_LABEL : str :=
  [85; 82; 76; 58; 32].

Definition TITLE_LABEL : str :=
  [1047; 1072; 1075; 1086; 1083; 1086; 1074; 1086; 1082; 58; 32].

Definition MAIN_TEXT_LABEL : str :=
  [10; 1054; 1089; 1085; 1086; 1074; 1085; 1086; 1081; 32; 1090; 1077;
   1082; 1089; 1090; 58; 10].

Definition IMAGES_HEADING : str :=
  [10; 1058; 1077; 1082; 1089; 1090; 32; 1089; 32; 1080; 1079; 1086; 1073;
   1088; 1072; 1078; 1077; 1085; 1080; 1081; 58; 10].

Definition IMAGE_LABEL : str :=
  [10; 1048; 1079; 1086; 1073; 1088; 1072; 1078; 1077; 1085; 1080; 1077;
   58; 32].

Definition ALT_LABEL : str :=
  [1054; 1087; 1080; 1089; 1072; 1085; 1080; 1077; 58; 32].

Definition OCR_LABEL : str :=
  [1058; 1077; 1082; 1089; 1090; 58; 32].

Definition FILES_HEADING : str :=
  [10; 1057; 1086; 1076; 1077; 1088; 1078; 1080; 1084; 1086; 1077; 32;
   1092; 1072; 1081; 1083; 1086; 1074; 58; 10].

Definition FILE_LABEL : str :=
  [10; 1060; 1072; 1081; 1083; 58; 32].

(** ['=' * 80] *)
Definition RULE : str := repeat 61 80.

Definition page_header (rec : page_record) : str :=
  [NEWLINE] ++ RULE ++ [NEWLINE] ++ URL_LABEL ++ url rec ++ [NEWLINE] ++ RULE
  ++ [NEWLINE; NEWLINE].

(** [if page['metadata']['title']:] *)
Definition title_line (rec : page_record) : str :=
  match title (page_metadata rec) with
  | Some t => if truthy t then TITLE_LABEL ++ t ++ [NEWLINE] else []
  | None => []
  end.

Definition image_block (img : image_entry) : str :=
  IMAGE_LABEL ++ img_url img ++ [NEWLINE]
  ++ (if truthy (alt_text img) then ALT_LABEL ++ alt_text img ++ [NEWLINE] else [])
  ++ OCR_LABEL ++ ocr_text img ++ [NEWLINE].

(** [if page['images']:] *)
Definition images_block (rec : page_record) : str :=
  match images rec with
  | [] => []
  | _ :: _ => IMAGES_HEADING ++ concat (List.map image_block (images rec))
  end.

Definition file_block (f : file_entry) : str :=
  FILE_LABEL ++ file_url f ++ [NEWLINE] ++ content f ++ [NEWLINE].

(** [if page['files_content']:] *)
Definition files_block (rec : page_record) : str :=
  match files_content rec with
  | [] => []
  | _ :: _ => FILES_HEADING ++ concat (List.map file_block (files_content rec))
  end.

(** What the loop of [save_results] writes for one page. *)
Definition page_block (rec : page_record) : str :=
  page_header rec ++ title_line rec ++ MAIN_TEXT_LABEL ++ text rec ++ [NEWLINE]
  ++ images_block rec ++ files_block rec.

(** The content of [full_data.txt]. *)
Definition full_data_text (records : list page_record) : str :=
  concat (List.map page_block records).

(** ** What the methods may change *)

(** An event other than a visit and other than the request of a page. *)
Definition aside (e : event) : Prop :=
  match e with
  | EvVisit _ => False
  | EvGet GetPage _ => False
  | _ => True
  end.

Definition same_settings (s s' : scraper) : Prop :=
  root_url s' = root_url s
  /\ max_pages s' = max_pages s
  /\ ocr_enabled s' = ocr_enabled s
  /\ max_file_size s' = max_file_size s
  /\ download_documents s' = download_documents s.

(** From [s] to [s']: the visited set and the settings are the same, the
    events added are [aside], and the records added satisfy [P]. *)
Definition advances (P : page_record -> Prop) (s s' : scraper) : Prop :=
  visited_urls s' = visited_urls s
  /\ same_settings s s'
  /\ (exists extra, events s' = extra ++ events s /\ Forall aside extra)
  /\ (exists new, data s' = data s ++ new /\ Forall P new).

(** A method that only [advances], and whose value satisfies [Q] when it
    returns one. *)
Definition yields {A} (P : page_record -> Prop) (m : M A) (Q : A -> Prop) : Prop :=
  forall s r s', m s = (r, s') ->
    advances P s s' /\ forall a, r = Ok a -> Q a.

(** The postcondition that asks nothing of the value. *)
Definition anything {A} (a : A) : Prop := True.

(** The URLs visited according to a history, and the pages requested. *)
Definition visits (evs : list event) : list str :=
  omap (fun e => match e with EvVisit u => Some u | _ => None end) evs.

Definition page_requests (evs : list event) : list str :=
  omap (fun e => match e with EvGet GetPage u => Some u | _ => None end) evs.

Definition visited_at (evs : list event) : gset str := list_to_set (visits evs).

(** Every page request of a history (newest event first) follows the visit
    of its URL and is the first request of that URL. *)
Fixpoint disciplined (evs : list event) : Prop :=
  match evs with
  | [] => True
  | e :: earlier =>
      disciplined earlier
      /\ match e with
         | EvGet GetPage u => In u (visits earlier) /\ ~ In u (page_requests earlier)
         | _ => True
         end
  end.

(** The page cap as the guard of [scrape_page] applies it: a cap below zero
    admits no page, like zero. *)
Definition cap (s : scraper) : Z := Z.max 0 (max_pages s).

(** The invariant of a crawl. *)
Definition crawl_invariant (s : scraper) : Prop :=
  (Z.of_nat (size (visited_urls s)) <= cap s)%Z
  /\ visited_urls s = visited_at (events s)
  /\ disciplined (events s).

(** The content of a file entry as the specification has it: the extracted
    text [t] when it has at most 10,000 characters, and otherwise its first
    10,000 characters followed by the ellipsis. *)
Definition entry_of_text (e : file_entry) (t : str) : Prop :=
  truthy t = true
  /\ content e = (if (Z.of_nat (length t) <=? 10000)%Z then t
                  else take (Z.to_nat 10000) t ++ ELLIPSIS).

(** An entry built from a non-empty text that the extraction method
    returned for the URL of the entry. *)
Definition entry_from (extract : str -> M pdf_result) (e : file_entry) : Prop :=
  file_type e = py "PDF"
  /\ exists t s1 s2,
       extract (file_url e) s1 = (Ok (mkPdfResult (Some t) (local_path e)), s2)
       /\ entry_of_text e t.

(** The pages that may still be visited under the cap. *)
Definition room (s : scraper) : nat :=
  Z.to_nat (max_pages s - Z.of_nat (size (visited_urls s))).

(** The length that a response declares: zero without the header, nothing
    when the header is not a number. *)
Definition declared_length (W : world) (r : response) : option Z :=
  match content_length r with
  | None => Some 0%Z
  | Some v => int_of_str W v
  end.

(** The names of the files that the crawler writes. *)
Definition temp_image_path (W : world) (img_url : str) : str :=
  os_path_join W (py "temp_images") (os_path_basename W img_url).

Definition document_path (W : world) (s : scraper) : str :=
  os_path_join W (py "downloaded_documents")
    (py "document_" ++ str_of_nat (size (visited_urls s)) ++ py "_" ++ py "pdf"
       ++ py "." ++ py "pdf").

(** ** Further notions for the properties of the methods *)

(** The last character of a string is whitespace. *)
Fixpoint ends_with_space (s : str) : bool :=
  match s with
  | [] => false
  | c :: t =>
      match t with
      | [] => is_space c
      | _ :: _ => ends_with_space t
      end
  end.

(** The OpenGraph tags that [extract_metadata] iterates over:
    [soup.find_all('meta', property=lambda x: x and x.startswith('og:'))]. *)
Definition og_metas (doc : soup) : list node :=
  List.filter is_og (find_all (py "meta") doc).

Definition og_property (n : node) : str := default [] (tag_get (py "property") n).

(** The content of the last tag of a list that carries a property. *)
Definition last_content (k : str) (metas : list node) : option str :=
  match List.find (fun n => str_eqb (og_property n) k) (rev metas) with
  | Some n => tag_get (py "content") n
  | None => None
  end.

(** The names of the downloaded documents:
    [document_<n>_pdf.pdf] in [downloaded_documents]. *)
Definition is_document_path (W : world) (p : str) : Prop :=
  exists n : nat,
    p = os_path_join W (py "downloaded_documents")
          (py "document_" ++ str_of_nat n ++ py "_" ++ py "pdf" ++ py "."
             ++ py "pdf").

(** The events of the OCR step: the request of an image, and the write and
    the removal of a temporary image. *)
Definition image_event (W : world) (e : event) : Prop :=
  match e with
  | EvGet GetImage _ => True
  | EvWrite p => exists u, p = temp_image_path W u
  | EvRemove p => exists u, p = temp_image_path W u
  | _ => False
  end.

(** The events of the PDF step: the request of a document and, with
    document downloading on, its download and the write of the document. *)
Definition pdf_event (W : world) (download : bool) (e : event) : Prop :=
  match e with
  | EvGet GetPdf _ => True
  | EvGet GetDownload _ => download = true
  | EvWrite p => download = true /\ is_document_path W p
  | _ => False
  end.

(** The events of the extraction methods of a scraper with the settings of
    [s0]. *)
Definition extraction_event (W : world) (s0 : scraper) (e : event) : Prop :=
  (ocr_enabled s0 = true /\ image_event W e)
  \/ pdf_event W (download_documents s0) e.

(** A file that the events written or removed. *)
Definition touched (p : str) (evs : list event) : Prop :=
  In (EvWrite p) evs \/ In (EvRemove p) evs.

(** From [s] to [s']: the visited set, the records and the settings are the
    same, the events added satisfy [E], and a file differs only when an
    added event wrote or removed it. *)
Definition moves (E : event -> Prop) (s s' : scraper) : Prop :=
  visited_urls s' = visited_urls s
  /\ data s' = data s
  /\ same_settings s s'
  /\ exists extra,
       events s' = extra ++ events s
       /\ Forall E extra
       /\ forall p, touched p extra \/ fs s' !! p = fs s !! p.

(** A method that, run by a scraper with the settings of [s0], only
    [moves], and whose value satisfies [Q] when it returns one. *)
Definition does {A} (s0 : scraper) (E : event -> Prop) (m : M A)
    (Q : A -> Prop) : Prop :=
  forall s r s', same_settings s0 s -> m s = (r, s') ->
    moves E s s' /\ forall a, r = Ok a -> Q a.

(** The parts of a page that [scrape_page] computes from a response. *)
Definition is_html (r : response) : bool :=
  contains (py "text/html") (default [] (content_type r)).

Definition page_doc (W : world) (r : response) : soup :=
  decompose_all REMOVED_TAGS (html_parser W (response_text r)).

Definition link_lists_of (W : world) (l : links) : link_lists :=
  mkLinkLists (list_of_set W (internal l)) (list_of_set W (external l))
    (list_of_set W (files_pdf l)) (list_of_set W (files_images l))
    (list_of_set W (files_other l)).

(** The OCR step and the PDF step of [scrape_page]. *)
Definition ocr_step (W : world) (u : str) (doc : soup) (enabled : bool)
    : M (list image_entry) :=
  if enabled then ocr_images W u (find_all_with (py "img") (py "src") doc)
  else ret [].

Definition pdf_step (W : world) (l : links) : M (list file_entry) :=
  pdf_contents (extract_from_pdf W) (take 3 (list_of_set W (files_pdf l))).

(** A page request that gives no page: the request raises, the status is
    an error, or the content is not HTML. *)
Definition no_page (W : world) (h : list event) (u : str) : Prop :=
  match session_get W h GetPage u with
  | Err _ => True
  | Ok resp => status_ok resp = false \/ is_html resp = false
  end.

(** The URLs of the records appended according to a history. *)
Definition appended (evs : list event) : list str :=
  omap (fun e => match e with EvAppend u => Some u | _ => None end) evs.

(** The events of a crawl by a scraper with the settings of [s0]: visits,
    page requests, appended records, and the events of the extraction
    methods. *)
Definition crawl_event (W : world) (s0 : scraper) (e : event) : Prop :=
  match e with
  | EvVisit _ => True
  | EvGet GetPage _ => True
  | EvAppend _ => True
  | _ => extraction_event W s0 e
  end.

(** [list(s)] holds elements of [s] only. *)
Definition list_of_set_sound (W : world) : Prop :=
  forall (X : gset str) (u : str), In u (list_of_set W X) -> u ∈ X.

(** A URL on the site of a root: the root itself, or a URL whose network
    location is that of the root and is not empty. *)
Definition on_site (W : world) (root u : str) : Prop :=
  u = root
  \/ exists n, netloc W u = Ok n /\ truthy n = true /\ netloc W root = Ok n.

(** The events of a crawl without OCR, and of a crawl without document
    downloading. *)
Definition ocr_free_event (W : world) (e : event) : Prop :=
  match e with
  | EvGet GetImage _ => False
  | EvRemove _ => False
  | EvWrite p => is_document_path W p
  | _ => True
  end.

Definition download_free_event (W : world) (e : event) : Prop :=
  match e with
  | EvGet GetDownload _ => False
  | EvWrite p => exists u, p = temp_image_path W u
  | _ => True
  end.

(** The number of PDF requests of a history. *)
Definition is_pdf_request (e : event) : bool :=
  match e with
  | EvGet GetPdf _ => true
  | _ => false
  end.

Definition pdf_requests (evs : list event) : nat :=
  length (List.filter is_pdf_request evs).

(** The number of download requests of a history. *)
Definition is_download_request (e : event) : bool :=
  match e with
  | EvGet GetDownload _ => true
  | _ => false
  end.

Definition download_requests (evs : list event) : nat :=
  length (List.filter is_download_request evs).

(** The events of a history that a counter sees, and a method that adds at
    most [n] of them. *)
Definition count (c : event -> bool) (evs : list event) : nat :=
  length (List.filter c evs).

Definition spends (c : event -> bool) (n : nat) {A} (m : M A) : Prop :=
  forall s r s', m s = (r, s') ->
    exists extra, events s' = extra ++ events s /\ (count c extra <= n)%nat.

(** Every reference of a list resolves against the base: [urljoin] raises
    on none of them. *)
Definition resolves (W : world) (base : str) (refs : list str) : Prop :=
  Forall (fun ref => exists u, urljoin W base ref = Ok u) refs.

(** * Example environments *)

(** A reading of the collaborators that is enough to run the crawler on
    small sites. It agrees with the libraries on ASCII input and, for
    [urljoin], on a base without query and fragment and a reference that is
    empty, absolute, rooted, plain relative, or one of [.] and [./]; a host
    with one square bracket and not the other is rejected with
    [ValueError], as [urlsplit] does. *)

Definition is_ascii_alpha (c : N) : bool :=
  ((65 <=? c) && (c <=? 90)) || ((97 <=? c) && (c <=? 122)).

Definition is_ascii_digit (c : N) : bool := (48 <=? c) && (c <=? 57).

Definition ascii_word (c : N) : bool :=
  is_ascii_alpha c || is_ascii_digit c || (c =? 95).

Definition ascii_lower (s : str) : str :=
  List.map (fun c => if (65 <=? c) && (c <=? 90) then c + 32 else c) s.

(** [urlsplit]: the scheme ends at the first colon when only scheme
    characters precede it and the first of them is a letter. *)
Definition is_scheme_char (c : N) : bool :=
  is_ascii_alpha c || is_ascii_digit c || (c =? 43) || (c =? 45) || (c =? 46).

Fixpoint after_colon (s : str) : option str :=
  match s with
  | [] => None
  | c :: t =>
      if c =? 58 then Some t
      else if is_scheme_char c then after_colon t
      else None
  end.

Definition scheme_rest (u : str) : option str :=
  match u with
  | c :: _ => if is_ascii_alpha c then after_colon u else None
  | [] => None
  end.

Fixpoint until_delimiter (s : str) : str :=
  match s with
  | [] => []
  | c :: t =>
      if (c =? 47) || (c =? 63) || (c =? 35) then []
      else c :: until_delimiter t
  end.

(** The network location that [urlsplit] cuts out of a URL. *)
Definition netloc_of (u : str) : str :=
  match default u (scheme_rest u) with
  | 47 :: 47 :: r => until_delimiter r
  | _ => []
  end.

(** One of the brackets [[] and []] without the other. *)
Definition unbalanced (n : str) : bool :=
  xorb (existsb (N.eqb 91) n) (existsb (N.eqb 93) n).

(** [urlparse(u).netloc] *)
Definition simple_netloc (u : str) : result str :=
  if unbalanced (netloc_of u) then Err ValueError else Ok (netloc_of u).

Definition path_of (u : str) : str :=
  match default u (scheme_rest u) with
  | 47 :: 47 :: r => drop (length (until_delimiter r)) r
  | r => r
  end.

Definition origin_of (u : str) : str :=
  take (length u - length (path_of u)) u.

Definition scheme_of (u : str) : str :=
  take (length u - length (default u (scheme_rest u))) u.

Fixpoint dropwhile_slash (s : str) : str :=
  match s with
  | c :: t => if c =? SLASH then s else dropwhile_slash t
  | [] => []
  end.

(** The path up to and including its last slash. *)
Definition directory_of (path : str) : str :=
  match rev (dropwhile_slash (rev path)) with
  | [] => [SLASH]
  | d => d
  end.

(** [urljoin]: an empty reference gives the base back unparsed; otherwise
    both are parsed first. *)
Definition simple_urljoin (base href : str) : result str :=
  if negb (truthy href) then Ok base
  else if unbalanced (netloc_of base) || unbalanced (netloc_of href)
  then Err ValueError
  else if bool_decide (is_Some (scheme_rest href)) then Ok href
  else if startswith href (py "//") then Ok (scheme_of base ++ href)
  else if startswith href (py "/") then Ok (origin_of base ++ href)
  else if str_eqb href (py ".") || str_eqb href (py "./")
  then Ok (origin_of base ++ directory_of (path_of base))
  else Ok (origin_of base ++ directory_of (path_of base) ++ href).

(** [int(s)] on a string of ASCII digits. *)
Fixpoint decimal (acc : Z) (s : str) : option Z :=
  match s with
  | [] => Some acc
  | c :: t =>
      if is_ascii_digit c then decimal (10 * acc + Z.of_N (c - 48)) t
      else None
  end.

Definition simple_int (s : str) : option Z :=
  match s with
  | [] => None
  | _ :: _ => decimal 0 s
  end.

(** [os.path.basename] and [os.path.join] with the slash as separator. *)
Definition simple_basename (p : str) : str := List.last (split SLASH p) [].

Definition simple_join (a b : str) : str := a ++ [SLASH] ++ b.

Definition simple_world
    (web : list event -> get_kind -> str -> result response)
    (parser : str -> soup)
    (ocr : bytes -> result str) : world :=
  mkWorld web parser simple_urljoin simple_netloc ascii_lower simple_int
    ascii_word true ocr (fun _ => Err OSError) elements simple_basename
    simple_join (fun _ => true).

(** A scraper for the site [http://example.com/] whose methods have not
    run yet. *)
Definition silent_web (h : list event) (k : get_kind) (u : str) : result response :=
  Err ConnectionError.

Definition no_parser (t : str) : soup := [].

Definition no_ocr (image : bytes) : result str := Err OSError.

Definition offline_world : world := simple_world silent_web no_parser no_ocr.

Definition example_scraper (max_pages : Z) : scraper :=
  init offline_world (py "http://example.com/") max_pages true 10485760 true ∅.

Definition docs_index : str := py "http://example.com/docs/index".


(** A paragraph whose text has spaces at both ends. *)
Definition padded_page : soup :=
  [Element (py "p") [] [Text (py "  Welcome  ")]].

(** A page whose only anchor is a mail address, and a page whose only anchor
    names a host with an opening bracket and no closing one. *)
Definition mail_page : soup :=
  [Element (py "body") []
     [Element (py "a") [(py "href", py "mailto:someone@example.com")]
        [Text (py "Mail")]]].

Definition bracket_page : soup :=
  [Element (py "body") []
     [Element (py "a") [(py "href", py "http://[::1")] [Text (py "Here")]]].

Definition bracket_image_page : soup :=
  [Element (py "body") []
     [Element (py "img") [(py "src", py "http://[::1/logo.png")] []]].

(** A site of two pages. The home page links to the about page, to a PDF,
    to a mail address and to another host, and shows a logo; the about page
    links back. The logo is served as an image that Tesseract cannot read. *)
Definition home_url : str := py "http://example.com/".
Definition about_url : str := py "http://example.com/about".
Definition pdf_url : str := py "http://example.com/doc.pdf".
Definition logo_url : str := py "http://example.com/img/logo.png".

Definition html_response (markup : str) : response :=
  mkResponse true (Some (py "text/html; charset=utf-8")) None markup [] true.

Definition file_response (kind : str) (payload : bytes) : response :=
  mkResponse true (Some kind) None [] payload true.

Definition logo_bytes : bytes := [Byte.x89; Byte.x50; Byte.x4e; Byte.x47].

Definition pdf_bytes : bytes := [Byte.x25; Byte.x50; Byte.x44; Byte.x46].

Definition site_web (h : list event) (k : get_kind) (u : str) : result response :=
  if str_eqb u home_url then Ok (html_response (py "home"))
  else if str_eqb u about_url then Ok (html_response (py "about"))
  else if str_eqb u pdf_url then Ok (file_response (py "application/pdf") pdf_bytes)
  else if str_eqb u logo_url then Ok (file_response (py "image/png") logo_bytes)
  else Err ConnectionError.

Definition anchor (href label : str) : node :=
  Element (py "a") [(py "href", href)] [Text label].

Definition home_page : soup :=
  [Element (py "html") []
     [Element (py "head") []
        [Element (py "title") [] [Text (py "Home")];
         Element (py "script") [] [Text (py "var hidden = 1;")]];
      Element (py "body") []
        [Text (py "  Welcome  ");
         anchor (py "/about") (py "About us");
         anchor (py "/doc.pdf") (py "Report");
         anchor (py "mailto:someone@example.com") (py "Mail");
         anchor (py "https://other.example/x") (py "Elsewhere");
         Element (py "img") [(py "src", py "/img/logo.png"); (py "alt", py "Logo")] [];
         Element (py "noscript") [] [Text (py "Enable scripts")]]]].

Definition about_page : soup :=
  [Element (py "html") []
     [Element (py "body") []
        [Text (py "About"); anchor (py "/") (py "Home")]]].

Definition site_parser (markup : str) : soup :=
  if str_eqb markup (py "home") then home_page
  else if str_eqb markup (py "about") then about_page
  else [].

Definition site_world : world := simple_world site_web site_parser no_ocr.

Definition site_scraper (max_pages : Z) : scraper :=
  init site_world home_url max_pages true 10485760 true ∅.

(** An extraction method that succeeds, to run the PDF loop: a text of
    10,001 characters for one URL, the empty text for another, a short text
    for the rest. *)
Definition long_pdf_url : str := py "http://example.com/long.pdf".
Definition blank_pdf_url : str := py "http://example.com/blank.pdf".

Definition long_text : str := repeat 97 (Z.to_nat 10001).

Definition sample_extract (u : str) : M pdf_result :=
  ret (mkPdfResult
         (Some (if str_eqb u long_pdf_url then long_text
                else if str_eqb u blank_pdf_url then []
                else py "short"))
         None).

Definition sample_pdf_urls : list str :=
  [pdf_url; long_pdf_url; blank_pdf_url; py "http://example.com/4.pdf";
   py "http://example.com/5.pdf"].

Definition sample_entries : list file_entry :=
  [mkFileEntry (py "PDF") pdf_url (py "short") None;
   mkFileEntry (py "PDF") long_pdf_url
     (repeat 97 (Z.to_nat 10000) ++ py "...") None].

(** Five questions, and a language model whose third request raises. *)
Definition five_questions : list str :=
  [py "q1"; py "q2"; py "q3"; py "q4"; py "q5"].

Definition third_request_fails (n : nat) (message : str) : result (option str) :=
  if (n =? 2)%nat then Err ConnectionError
  else Ok (Some (py " answer " ++ str_of_nat (S n) ++ [NEWLINE])).

Definition five_answers : list (str * option str) :=
  [(py "q1", Some (py "answer 1"));
   (py "q2", Some (py "answer 2"));
   (py "q3", None);
   (py "q4", Some (py "answer 4"));
   (py "q5", Some (py "answer 5"))].


(** A document with two OpenGraph tags for one property and one for
    another, and a document whose OpenGraph tag has no content. *)
Definition og_tag (property value : str) : node :=
  Element (py "meta") [(py "property", property); (py "content", value)] [].

Definition og_page : soup :=
  [Element (py "head") []
     [og_tag (py "og:title") (py "First");
      og_tag (py "og:image") (py "/logo.png");
      og_tag (py "og:title") (py "Second");
      Element (py "meta") [(py "name", py "description"); (py "content", py "About")] []]].

Definition broken_og_page : soup :=
  [Element (py "head") []
     [Element (py "meta") [(py "property", py "og:title")] []]].

(** The metadata of [og_page]. *)
Definition og_page_metadata : metadata :=
  mkMetadata None (Some (py "About")) None
    (<[py "og:title" := py "Second"]>
       (<[py "og:image" := py "/logo.png"]>
          (<[py "og:title" := py "First"]> ∅))).

(** A site whose only page has an OpenGraph tag without content, and the
    example site with a Tesseract that reads the logo. *)
Definition broken_web (h : list event) (k : get_kind) (u : str) : result response :=
  Ok (html_response (py "broken")).

Definition broken_parser (markup : str) : soup := broken_og_page.

Definition broken_world : world := simple_world broken_web broken_parser no_ocr.

Definition broken_scraper : scraper :=
  init broken_world home_url 20 true 10485760 true ∅.

Definition reading_ocr (image : bytes) : result str := Ok (py " Example  Ltd. ").

Definition reading_world : world := simple_world site_web site_parser reading_ocr.

Definition reading_scraper : scraper :=
  init reading_world home_url 20 true 10485760 true ∅.

(** A record with a title, an image and a file, and a record without. *)
Definition full_record : page_record :=
  mkPage home_url (py "Welcome")
    [mkImage logo_url (py "Logo") (py "Example Ltd.")]
    (mkMetadata (Some (py "Home")) None None ∅)
    (mkLinkLists [about_url] [] [pdf_url] [] [])
    [mkFileEntry (py "PDF") pdf_url (py "Annual report") None].

Definition bare_record : page_record :=
  mkPage about_url (py "About") [] (mkMetadata None None None ∅)
    (mkLinkLists [] [] [] [] []) [].





(** * Properties of the text normalizer *)

Section NormalizerFacts.

Variable is_word : N -> bool.

Local Abbreviation plain := (plain is_word).
Local Abbreviation kept := (kept is_word).
Local Abbreviation normal := (normal is_word).
Local Abbreviation clean_text := (clean_text is_word).

Lemma is_space_SPACE : is_space SPACE = true.
Proof. reflexivity. Qed.

Lemma is_space_DASH c : (c =? DASH) = true -> is_space c = false.
Proof. intros H. apply N.eqb_eq in H. subst c. reflexivity. Qed.

Lemma kept_SPACE : kept SPACE = true.
Proof. unfold kept. rewrite is_space_SPACE. apply orb_true_iff. left. apply orb_true_r. Qed.

(** The stripping functions return what they get when there is nothing to
    strip, and never leave whitespace at the stripped end. *)
Lemma lstrip_id s : starts_with_space s = false -> lstrip s = s.
Proof. destruct s as [|c t]; simpl; [reflexivity|]. intros ->. reflexivity. Qed.

Lemma lstrip_head s : starts_with_space (lstrip s) = false.
Proof.
  induction s as [|c t IH]; simpl; [reflexivity|].
  destruct (is_space c) eqn:E; [exact IH|]. simpl. exact E.
Qed.

Lemma lstrip_Forall (P : N -> Prop) s : Forall P s -> Forall P (lstrip s).
Proof.
  induction 1 as [|c t Hc Ht IH]; simpl; [constructor|].
  destruct (is_space c); [exact IH | constructor; assumption].
Qed.

Lemma lstrip_no_space_after p s :
  no_space_after p s = true -> no_space_after p (lstrip s) = true.
Proof.
  induction s as [|c t IH]; simpl; [reflexivity|].
  intros H. apply andb_true_iff in H as [H1 H2].
  destruct (is_space c); [apply IH, H2|].
  simpl. rewrite H1, H2. reflexivity.
Qed.

(** [rstrip] keeps the first character of a string that it does not empty. *)
Lemma rstrip_head s : starts_with_space s = false ->
  starts_with_space (rstrip s) = false.
Proof.
  destruct s as [|c t]; simpl; [reflexivity|]. intros E.
  destruct (rstrip t); [rewrite E|]; simpl; exact E.
Qed.

Lemma rstrip_starts s :
  starts_with_space (rstrip s) = true -> starts_with_space s = true.
Proof.
  destruct (starts_with_space s) eqn:E; [reflexivity|].
  rewrite rstrip_head by exact E. discriminate.
Qed.

Lemma rstrip_Forall (P : N -> Prop) s : Forall P s -> Forall P (rstrip s).
Proof.
  induction 1 as [|c t Hc Ht IH]; simpl; [constructor|].
  destruct (rstrip t) as [|d r].
  - destruct (is_space c); repeat constructor; assumption.
  - constructor; assumption.
Qed.

Lemma rstrip_no_space_after p s :
  no_space_after p s = true -> no_space_after p (rstrip s) = true.
Proof.
  induction s as [|c t IH]; simpl; [reflexivity|].
  intros H. apply andb_true_iff in H as [H1 H2].
  specialize (IH H2).
  destruct (rstrip t) as [|d r] eqn:E.
  - destruct (is_space c); simpl; [reflexivity|].
    rewrite andb_false_r. reflexivity.
  - change (negb (p c && starts_with_space (d :: r)) && no_space_after p (d :: r) = true).
    rewrite IH, andb_true_r.
    destruct (p c); [|reflexivity]. simpl in *.
    destruct (is_space d) eqn:Ed; [|reflexivity].
    assert (Hs : starts_with_space t = true).
    { apply rstrip_starts. rewrite E. exact Ed. }
    rewrite Hs in H1. discriminate.
Qed.

(** A string is in [rstrip]'s normal form when [rstrip] returns it. *)
Lemma rstrip_idem s : rstrip (rstrip s) = rstrip s.
Proof.
  induction s as [|c t IH]; simpl; [reflexivity|].
  destruct (rstrip t) as [|d r] eqn:E.
  - destruct (is_space c) eqn:Ec; simpl; [reflexivity|]. rewrite Ec. reflexivity.
  - change (rstrip (c :: d :: r)) with
      (match rstrip (d :: r) with [] => if is_space c then [] else [c] | t' => c :: t' end).
    rewrite IH. reflexivity.
Qed.

Lemma strip_idem s : strip (strip s) = strip s.
Proof.
  unfold strip. rewrite (lstrip_id (rstrip (lstrip s))).
  - apply rstrip_idem.
  - apply rstrip_head, lstrip_head.
Qed.

(** *** The three substitutions *)

Lemma sub_foreign_kept s : Forall (fun c => kept c = true) (sub_foreign is_word s).
Proof.
  induction s as [|c t IH]; simpl; [constructor|].
  destruct (kept c) eqn:E; [constructor; assumption | exact IH].
Qed.

Lemma sub_foreign_id s :
  Forall (fun c => kept c = true) s -> sub_foreign is_word s = s.
Proof.
  induction 1 as [|c t Hc Ht IH]; simpl; [reflexivity|].
  rewrite Hc. f_equal. exact IH.
Qed.

Lemma sub_spaces_plain b s :
  Forall (fun c => kept c = true) s -> Forall plain (sub_spaces b s).
Proof.
  intros H. revert b. induction H as [|c t Hc Ht IH]; intros b; simpl; [constructor|].
  destruct (is_space c) eqn:E.
  - destruct b; [apply IH|]. constructor; [|apply IH].
    split; [apply kept_SPACE | reflexivity].
  - constructor; [|apply IH]. split; [exact Hc|]. rewrite E. discriminate.
Qed.

Lemma sub_spaces_separated b s :
  no_space_after is_space (sub_spaces b s) = true
  /\ (b = true -> starts_with_space (sub_spaces b s) = false).
Proof.
  revert b. induction s as [|c t IH]; intros b; simpl; [split; reflexivity|].
  destruct (is_space c) eqn:E.
  - destruct b; [apply IH|]. split; [|discriminate].
    destruct (IH true) as [H1 H2]. simpl.
    rewrite H1, H2 by reflexivity. reflexivity.
  - destruct (IH false) as [H1 _]. simpl. rewrite E, H1. split; reflexivity.
Qed.

Lemma sub_spaces_id b s :
  Forall plain s -> no_space_after is_space s = true ->
  (b = true -> starts_with_space s = false) ->
  sub_spaces b s = s.
Proof.
  intros H. revert b. induction H as [|c t [_ Hc] Ht IH]; intros b Hsep Hb; simpl;
    [reflexivity|].
  simpl in Hsep. apply andb_true_iff in Hsep as [Hsep1 Hsep2].
  destruct (is_space c) eqn:E.
  - destruct b; [simpl in Hb; rewrite E in Hb; discriminate (Hb eq_refl)|].
    rewrite (Hc eq_refl). f_equal. apply IH; [exact Hsep2|]. intros _.
    destruct (starts_with_space t); [discriminate | reflexivity].
  - f_equal. apply IH; [exact Hsep2 | discriminate].
Qed.

Lemma sub_hyphen_Forall (P : N -> Prop) m s :
  Forall P s -> Forall P (sub_hyphen m s).
Proof.
  intros H. revert m. induction H as [|c t Hc Ht IH]; intros m; simpl; [constructor|].
  destruct (m && is_space c); [apply IH|].
  destruct ((c =? DASH) && starts_with_space t); [apply IH|].
  constructor; [exact Hc | apply IH].
Qed.

(** After a match, and after a character that no whitespace follows, the
    next character that the substitution keeps is not whitespace. *)
Lemma sub_hyphen_head m s :
  m = true \/ starts_with_space s = false ->
  starts_with_space (sub_hyphen m s) = false.
Proof.
  revert m. induction s as [|c t IH]; intros m H; simpl; [reflexivity|].
  destruct (m && is_space c) eqn:E1; [apply IH; left; reflexivity|].
  destruct ((c =? DASH) && starts_with_space t) eqn:E2; [apply IH; left; reflexivity|].
  simpl. destruct H as [-> | H]; [exact E1 | exact H].
Qed.

Lemma sub_hyphen_no_space_after p m s :
  no_space_after p s = true -> no_space_after p (sub_hyphen m s) = true.
Proof.
  revert m. induction s as [|c t IH]; intros m H; simpl; [reflexivity|].
  simpl in H. apply andb_true_iff in H as [H1 H2].
  destruct (m && is_space c); [apply IH, H2|].
  destruct ((c =? DASH) && starts_with_space t); [apply IH, H2|].
  simpl. rewrite (IH false H2), andb_true_r.
  destruct (p c); [|reflexivity]. simpl in *.
  rewrite sub_hyphen_head; [reflexivity|]. right.
  destruct (starts_with_space t); [discriminate | reflexivity].
Qed.

Lemma sub_hyphen_no_hyphen_space m s :
  no_space_after is_dash (sub_hyphen m s) = true.
Proof.
  revert m. induction s as [|c t IH]; intros m; simpl; [reflexivity|].
  destruct (m && is_space c); [apply IH|].
  destruct ((c =? DASH) && starts_with_space t) eqn:E; [apply IH|].
  simpl. rewrite IH, andb_true_r. unfold is_dash.
  destruct (c =? DASH); [|reflexivity]. simpl in *.
  rewrite sub_hyphen_head; [reflexivity | right; exact E].
Qed.

Lemma sub_hyphen_id m s :
  no_space_after is_dash s = true ->
  (m = true -> starts_with_space s = false) ->
  sub_hyphen m s = s.
Proof.
  revert m. induction s as [|c t IH]; intros m H Hm; simpl; [reflexivity|].
  simpl in H. apply andb_true_iff in H as [H1 H2]. unfold is_dash in H1.
  assert (E1 : m && is_space c = false).
  { destruct m; [|reflexivity]. simpl in *. apply Hm. reflexivity. }
  rewrite E1. apply negb_true_iff in H1. rewrite H1.
  f_equal. apply IH; [exact H2 | discriminate].
Qed.

Lemma clean_text_normal x : normal (clean_text x).
Proof.
  unfold normal, clean_text, strip.
  pose proof (sub_foreign_kept x) as K.
  pose proof (sub_spaces_plain false _ K) as P.
  destruct (sub_spaces_separated false (sub_foreign is_word x)) as [S _].
  set (h := sub_hyphen false (sub_spaces false (sub_foreign is_word x))).
  assert (Ph : Forall plain h) by (apply sub_hyphen_Forall, P).
  assert (Sh : no_space_after is_space h = true)
    by (apply sub_hyphen_no_space_after, S).
  assert (Dh : no_space_after is_dash h = true)
    by apply sub_hyphen_no_hyphen_space.
  split; [apply rstrip_Forall, lstrip_Forall, Ph|].
  split; [apply rstrip_no_space_after, lstrip_no_space_after, Sh|].
  split; [apply rstrip_no_space_after, lstrip_no_space_after, Dh|].
  apply (strip_idem h).
Qed.

Lemma clean_text_fixes_normal s : normal s -> clean_text s = s.
Proof.
  intros (P & S & D & T). unfold clean_text.
  rewrite sub_foreign_id.
  - rewrite sub_spaces_id by (assumption || discriminate).
    rewrite sub_hyphen_id by (assumption || discriminate).
    exact T.
  - eapply Forall_impl; [exact P|]. intros c [Hc _]. exact Hc.
Qed.

(** C6. The text normalizer is idempotent: for every string [x] and every
    table of word characters, [clean_text (clean_text x) = clean_text x],
    where [clean_text] removes the characters outside the allowed class,
    replaces every whitespace run by one space, deletes every hyphen that is
    followed by whitespace together with that whitespace, and strips. *)
Theorem clean_text_idempotent (x : str) :
  clean_text (clean_text x) = clean_text x.
Proof. apply clean_text_fixes_normal, clean_text_normal. Qed.

End NormalizerFacts.

(** * Properties of the page extractor's text *)

Section DocumentFacts.

(** Induction over a document tree: the children of an element satisfy the
    property before the element does. *)
Lemma node_induction (P : node -> Prop) :
  (forall s, P (Text s)) ->
  (forall s, P (Special s)) ->
  (forall name attrs children,
      Forall P children -> P (Element name attrs children)) ->
  forall n, P n.
Proof.
  intros HT HS HE. fix IH 1. intros [s|s|name attrs children].
  - apply HT.
  - apply HS.
  - apply HE. induction children as [|c cs IHcs]; constructor.
    + apply IH.
    + exact IHcs.
Qed.

Lemma flat_map_flat_map {A B C} (f : B -> list C) (g : A -> list B) l :
  flat_map f (flat_map g l) = flat_map (fun a => flat_map f (g a)) l.
Proof.
  induction l as [|a l IH]; simpl; [reflexivity|].
  rewrite flat_map_app, IH. reflexivity.
Qed.

Lemma flat_map_Forall_ext {A B} (f g : A -> list B) l :
  Forall (fun a => f a = g a) l -> flat_map f l = flat_map g l.
Proof.
  induction 1 as [|a l Ha Hl IH]; simpl; [reflexivity|].
  rewrite Ha, IH. reflexivity.
Qed.

(** The tags that the code removes are the hidden tags of the
    specification. *)
Lemma removed_tags_hidden name :
  existsb (str_eqb name) REMOVED_TAGS = hidden_tag name.
Proof.
  unfold REMOVED_TAGS, hidden_tag, str_eqb. cbn [existsb].
  rewrite orb_false_r, !orb_assoc. reflexivity.
Qed.

(** The strings left in a tree after the removal are the remaining text
    nodes. *)
Lemma strings_after_decompose n :
  flat_map all_strings (decompose REMOVED_TAGS n) = remaining_text_nodes n.
Proof.
  induction n as [s|s|name attrs children IH] using node_induction;
    [reflexivity | reflexivity |].
  cbn [decompose remaining_text_nodes]. rewrite removed_tags_hidden.
  destruct (hidden_tag name); [reflexivity|].
  cbn [flat_map all_strings]. rewrite app_nil_r, flat_map_flat_map.
  apply flat_map_Forall_ext, IH.
Qed.

Lemma strings_after_decompose_all doc :
  flat_map all_strings (decompose_all REMOVED_TAGS doc)
  = flat_map remaining_text_nodes doc.
Proof.
  unfold decompose_all. rewrite flat_map_flat_map.
  apply flat_map_Forall_ext, List.Forall_forall. intros n _.
  apply strings_after_decompose.
Qed.

(** [join] with the newline joins by newline. *)
Lemma join_newline parts : join [NEWLINE] parts = newline_joined parts.
Proof.
  induction parts as [|p rest IH]; [reflexivity|].
  cbn [join newline_joined]. destruct rest as [|q rest]; [reflexivity|].
  rewrite IH. reflexivity.
Qed.

Lemma split_never_nil sep s : split sep s <> [].
Proof.
  destruct s as [|c t]; simpl; [discriminate|].
  destruct (c =? sep); [discriminate|].
  destruct (split sep t); discriminate.
Qed.

(** [split] at the newline gives the lines. *)
Lemma lines_from_split current s :
  lines_from current s
  = match split NEWLINE s with
    | h :: r => (rev current ++ h) :: r
    | [] => [rev current]
    end.
Proof.
  revert current. induction s as [|c t IH]; intros current.
  - simpl. rewrite app_nil_r. reflexivity.
  - cbn [lines_from split]. change (c =? 10) with (c =? NEWLINE).
    destruct (c =? NEWLINE).
    + rewrite app_nil_r, (IH []). simpl.
      destruct (split NEWLINE t) as [|h r] eqn:E; [|reflexivity].
      exfalso. exact (split_never_nil _ _ E).
    + rewrite (IH (c :: current)).
      destruct (split NEWLINE t) as [|h r] eqn:E.
      * exfalso. exact (split_never_nil _ _ E).
      * simpl. rewrite <- app_assoc. reflexivity.
Qed.

Lemma lines_of_split s : lines_from [] s = split NEWLINE s.
Proof.
  rewrite lines_from_split.
  destruct (split NEWLINE s) as [|h r] eqn:E; [|reflexivity].
  exfalso. exact (split_never_nil _ _ E).
Qed.

(** What [lstrip] leaves is what is left after the whitespace at the
    start. *)
Lemma lstrip_skip_spaces s : lstrip s = skip_spaces s.
Proof.
  induction s as [|c t IH]; simpl; [reflexivity|].
  destruct (is_space c); [exact IH | reflexivity].
Qed.

Lemma skip_spaces_blank s : is_empty (skip_spaces s) = blank s.
Proof.
  induction s as [|c t IH]; simpl; [reflexivity|].
  unfold blank in *. simpl. destruct (is_space c); [exact IH | reflexivity].
Qed.

Lemma skip_spaces_app a b :
  skip_spaces (a ++ b) = if blank a then skip_spaces b else skip_spaces a ++ b.
Proof.
  induction a as [|c t IH]; simpl; [reflexivity|].
  unfold blank in *. simpl. destruct (is_space c); [exact IH | reflexivity].
Qed.

(** What [rstrip] leaves is what is left, read backwards, after the
    whitespace at the end. *)
Lemma rstrip_skip_spaces s : rstrip s = rev (skip_spaces (rev s)).
Proof.
  induction s as [|c t IH]; [reflexivity|].
  cbn [rstrip rev]. rewrite skip_spaces_app, IH.
  pose proof (skip_spaces_blank (rev t)) as B.
  destruct (blank (rev t)).
  - destruct (skip_spaces (rev t)); [|discriminate B]. simpl.
    destruct (is_space c); reflexivity.
  - rewrite rev_app_distr. simpl.
    destruct (skip_spaces (rev t)) as [|d r] eqn:E; [discriminate B|].
    destruct (rev (d :: r)) as [|x y] eqn:R; [|reflexivity].
    apply (f_equal (@length N)) in R. rewrite length_rev in R. discriminate R.
Qed.

Lemma strip_trimmed s : strip s = trimmed s.
Proof.
  unfold strip, trimmed. rewrite rstrip_skip_spaces.
  pose proof (lstrip_skip_spaces s) as L. congruence.
Qed.

(** A line that [line.strip()] makes empty is a blank line. *)
Lemma strip_blank line : truthy (strip line) = negb (blank line).
Proof.
  unfold strip.
  assert (T : forall x, starts_with_space x = false -> truthy (rstrip x) = truthy x).
  { intros [|c t]; simpl; [reflexivity|]. intros E.
    destruct (rstrip t); [rewrite E|]; reflexivity. }
  rewrite T by apply lstrip_head.
  rewrite lstrip_skip_spaces, <- skip_spaces_blank.
  destruct (skip_spaces line); reflexivity.
Qed.

(** The filter of [main_text] removes the blank lines. *)
Lemma lines_kept_without_blank s :
  join [NEWLINE] (lines_kept s) = without_blank_lines s.
Proof.
  unfold lines_kept, without_blank_lines.
  rewrite join_newline, lines_of_split.
  f_equal. apply List.filter_ext. intros line. apply strip_blank.
Qed.

Lemma main_text_of_removed doc :
  main_text_of (decompose_all REMOVED_TAGS doc) = spec_visible_text doc.
Proof.
  unfold main_text_of, get_text_stripped, spec_visible_text.
  rewrite lines_kept_without_blank, join_newline, strings_after_decompose_all.
  do 2 f_equal.
  rewrite (List.map_ext strip trimmed strip_trimmed).
  apply List.filter_ext. intros [|c t]; reflexivity.
Qed.

(** C9, amended. For every document, the [main_text] that [scrape_page]
    computes after decomposing the script, style, iframe and noscript tags
    is the visible text: the text nodes outside those subtrees, in document
    order, each without the whitespace at its ends and left out when nothing
    remains of it, joined by newline, with the blank lines removed. No line
    of it is blank, and a script, style, iframe or noscript element
    contributes nothing, wherever it stands among the top-level nodes and
    whatever it holds. *)
Theorem main_text_is_visible_text (doc : soup) :
  main_text_of (decompose_all REMOVED_TAGS doc) = spec_visible_text doc
  /\ (exists lines,
        main_text_of (decompose_all REMOVED_TAGS doc) = newline_joined lines
        /\ Forall (fun line => blank line = false) lines)
  /\ (forall name attrs children before after,
        hidden_tag name = true ->
        doc = before ++ Element name attrs children :: after ->
        main_text_of (decompose_all REMOVED_TAGS doc)
        = main_text_of (decompose_all REMOVED_TAGS (before ++ after))).
Proof.
  split; [apply main_text_of_removed|]. split.
  - rewrite main_text_of_removed. unfold spec_visible_text, without_blank_lines.
    eexists. split; [reflexivity|]. apply List.Forall_forall. intros line H.
    apply filter_In in H as [_ H]. apply negb_true_iff, H.
  - intros name attrs children before after Hname ->.
    rewrite !main_text_of_removed. unfold spec_visible_text.
    rewrite !flat_map_app. cbn [flat_map remaining_text_nodes].
    rewrite Hname. reflexivity.
Qed.

End DocumentFacts.

(** * Properties of the link classifier *)

Section LinkFacts.

Variable W : world.

Lemma elem_of_add_link x b b' u l :
  x ∈ bucket_of b' (add_link b u l) <-> (b' = b /\ x = u) \/ x ∈ bucket_of b' l.
Proof.
  destruct b, b'; simpl; rewrite ?elem_of_union, ?elem_of_singleton;
    intuition congruence.
Qed.

Lemma classify_inv self base href u b :
  classify W self base href = Ok (u, b) ->
  urljoin W base href = Ok u
  /\ exists valid, is_valid_url W self u = Ok valid /\ b = branch W valid href.
Proof.
  unfold classify. destruct (urljoin W base href) as [v|e]; [|discriminate].
  destruct (is_valid_url W self v) as [valid|e] eqn:V; [|discriminate].
  intros H. inversion H; subst. split; [reflexivity|].
  exists valid. split; [exact V | reflexivity].
Qed.

Lemma classify_err_inv self base href e :
  classify W self base href = Err e ->
  urljoin W base href = Err e
  \/ exists u, urljoin W base href = Ok u /\ is_valid_url W self u = Err e.
Proof.
  unfold classify. destruct (urljoin W base href) as [v|e0].
  - destruct (is_valid_url W self v) as [valid|e1] eqn:V; [discriminate|].
    intros H. inversion H; subst. right. eauto.
  - intros H. inversion H; subst. left. reflexivity.
Qed.

Lemma classify_resolved self base href u valid :
  urljoin W base href = Ok u -> is_valid_url W self u = Ok valid ->
  classify W self base href = Ok (u, branch W valid href).
Proof. intros Hu Hv. unfold classify. rewrite Hu, Hv. reflexivity. Qed.

Lemma elem_of_classify_all self base hrefs acc l x b :
  classify_all W self base hrefs acc = Ok l ->
  x ∈ bucket_of b l
  <-> x ∈ bucket_of b acc
      \/ exists href, In href hrefs /\ classify W self base href = Ok (x, b).
Proof.
  revert acc. induction hrefs as [|h hs IH]; intros acc H; simpl in H.
  - inversion H; subst. split; [auto | intros [H0 | (href & [] & _)]; exact H0].
  - destruct (classify W self base h) as [[u c]|e] eqn:Hc; [|discriminate].
    rewrite (IH _ H), elem_of_add_link. split.
    + intros [[[-> ->] | H0] | (href & Hin & Hcl)].
      * right. exists h. split; [left; reflexivity | exact Hc].
      * left. exact H0.
      * right. exists href. split; [right; exact Hin | exact Hcl].
    + intros [H0 | (href & [<- | Hin] & Hcl)].
      * left. right. exact H0.
      * left. left. rewrite Hc in Hcl. inversion Hcl; subst. split; reflexivity.
      * right. exists href. split; assumption.
Qed.

(** The loop returns exactly when no anchor raises, and the exception that
    leaves it is that of an anchor. *)
Lemma classify_all_ok self base hrefs acc l :
  classify_all W self base hrefs acc = Ok l ->
  Forall (fun href => exists u b, classify W self base href = Ok (u, b)) hrefs.
Proof.
  revert acc. induction hrefs as [|h hs IH]; intros acc H; [constructor|].
  simpl in H. destruct (classify W self base h) as [[u c]|e] eqn:Hc; [|discriminate].
  constructor; [eauto | eapply IH, H].
Qed.


Lemma classify_all_err self base hrefs acc e :
  classify_all W self base hrefs acc = Err e ->
  exists href, In href hrefs /\ classify W self base href = Err e.
Proof.
  revert acc. induction hrefs as [|h hs IH]; intros acc H; simpl in H;
    [discriminate|].
  destruct (classify W self base h) as [[u c]|e0] eqn:Hc.
  - destruct (IH _ H) as (href & Hin & He). exists href. split; [right|]; assumption.
  - inversion H; subst. exists h. split; [left; reflexivity | exact Hc].
Qed.

(** The buckets hold the resolved URLs of the anchors, each in the bucket
    that its anchor selects, and nothing else. *)
Lemma elem_of_extract_links self base hrefs l x b :
  extract_links_from W self hrefs base = Ok l ->
  x ∈ bucket_of b l
  <-> exists href, In href hrefs /\ classify W self base href = Ok (x, b).
Proof.
  intros H. unfold extract_links_from in H.
  rewrite (elem_of_classify_all _ _ _ _ _ x b H).
  split; [intros [H0 | H0]; [|exact H0] | auto].
  destruct b; simpl in H0; apply not_elem_of_empty in H0; contradiction.
Qed.



Lemma classify_no_netloc self base href u :
  urljoin W base href = Ok u -> netloc W u = Ok [] ->
  classify W self base href = Ok (u, BExternal).
Proof.
  intros Hu Hn. unfold classify, is_valid_url. rewrite Hu, Hn. reflexivity.
Qed.

(** What [extract_links] is as a method: it reads the scraper and leaves it
    as it was. *)
Lemma extract_links_pure doc base s :
  extract_links W doc base s
  = (extract_links_from W s (anchor_hrefs doc) base, s).
Proof. reflexivity. Qed.


(** C4, amended. A resolved URL without network location is not left out:
    the classifier puts it in the external bucket, and in no other. The
    classifier has an error condition: it raises when [urljoin] or
    [urlparse] raises for an anchor, and only then. It has no side effect:
    the scraper is the same after the call, whether it returns or
    raises. *)
Theorem no_netloc_is_external doc base s r s' :
  extract_links W doc base s = (r, s') ->
  s' = s
  /\ (forall l href u,
        r = Ok l ->
        In href (anchor_hrefs doc) ->
        urljoin W base href = Ok u ->
        netloc W u = Ok [] ->
        u ∈ external l /\ forall b, u ∈ bucket_of b l -> b = BExternal)
  /\ (forall e,
        r = Err e ->
        exists href,
          In href (anchor_hrefs doc)
          /\ (urljoin W base href = Err e
              \/ exists u, urljoin W base href = Ok u
                           /\ is_valid_url W s u = Err e))
  /\ (forall href e,
        In href (anchor_hrefs doc) -> urljoin W base href = Err e ->
        exists e', r = Err e').
Proof.
  rewrite extract_links_pure. intros H.
  assert (Hs : s' = s) by (inversion H; reflexivity).
  assert (Hl : extract_links_from W s (anchor_hrefs doc) base = r)
    by (inversion H; reflexivity).
  clear H. split; [exact Hs|]. split; [|split].
  - intros l href u Hr Hin Hu Hnet. rewrite Hr in Hl. split.
    + apply (elem_of_extract_links s base _ l u BExternal Hl).
      exists href. split; [exact Hin | apply classify_no_netloc; assumption].
    + intros b Hb.
      apply (elem_of_extract_links s base _ l u b Hl) in Hb as (h & _ & Hc).
      apply classify_inv in Hc as (Hj & valid & Hv & ->).
      unfold is_valid_url in Hv. rewrite Hnet in Hv. inversion Hv; subst.
      reflexivity.
  - intros e Hr. rewrite Hr in Hl. apply classify_all_err in Hl as (href & Hin & He).
    exists href. split; [exact Hin | apply classify_err_inv, He].
  - intros href e Hin Hu. destruct r as [l|e']; [|eauto].
    exfalso. apply classify_all_ok in Hl. rewrite List.Forall_forall in Hl.
    destruct (Hl href Hin) as (u & b & Hc).
    apply classify_inv in Hc as [Hj _]. congruence.
Qed.

End LinkFacts.

(** The scenario of the specification: on the root domain [example.com] the
    anchors [/about], [https://other.example/x], [/doc.pdf] and [/pic.jpg]
    are internal, external, a PDF file and an image file. *)
Example classify_scenario :
  List.map (classify offline_world (example_scraper 20) (py "http://example.com/"))
    [py "/about"; py "https://other.example/x"; py "/doc.pdf"; py "/pic.jpg"]
  = [Ok (py "http://example.com/about", BInternal);
     Ok (py "https://other.example/x", BExternal);
     Ok (py "http://example.com/doc.pdf", BPdf);
     Ok (py "http://example.com/pic.jpg", BImages)].
Proof. vm_compute. reflexivity. Qed.



(** C4, as stated, fails twice. A [mailto:] anchor resolves to a URL without
    network location, and that URL is in the external bucket; and the
    classifier has an error condition: on the anchor [http://[::1] it
    raises [ValueError]. *)
Lemma mailto_is_in_a_bucket :
  (exists l,
     extract_links offline_world mail_page docs_index (example_scraper 20)
     = (Ok l, example_scraper 20)
     /\ simple_netloc (py "mailto:someone@example.com") = Ok []
     /\ py "mailto:someone@example.com" ∈ external l)
  /\ extract_links offline_world bracket_page docs_index (example_scraper 20)
     = (Err ValueError, example_scraper 20).
Proof.
  split; [|vm_compute; reflexivity].
  destruct (extract_links_from offline_world (example_scraper 20)
              (anchor_hrefs mail_page) docs_index) as [l|e] eqn:H;
    [|vm_compute in H; discriminate H].
  exists l. rewrite extract_links_pure, H. split; [reflexivity|].
  split; [vm_compute; reflexivity|].
  apply (elem_of_extract_links offline_world _ _ _ l _ BExternal H).
  exists (py "mailto:someone@example.com").
  split; [left; reflexivity | vm_compute; reflexivity].
Qed.

Lemma no_netloc_is_external_witness :
  exists l,
    extract_links offline_world mail_page docs_index (example_scraper 20)
    = (Ok l, example_scraper 20)
    /\ py "mailto:someone@example.com" ∈ external l
    /\ forall b, py "mailto:someone@example.com" ∈ bucket_of b l -> b = BExternal.
Proof.
  destruct (extract_links offline_world mail_page docs_index (example_scraper 20))
    as [r s'] eqn:H.
  destruct (no_netloc_is_external offline_world mail_page docs_index
              (example_scraper 20) r s' H) as (-> & Hext & _ & _).
  destruct r as [l|e]; [|vm_compute in H; discriminate H].
  exists l. split; [reflexivity|].
  apply (Hext l (py "mailto:someone@example.com") (py "mailto:someone@example.com")
           eq_refl).
  - left. reflexivity.
  - vm_compute. reflexivity.
  - vm_compute. reflexivity.
Defined.

(** * Properties of the crawler *)

Section CrawlerFacts.

Variable W : world.

(** ** What the methods change *)

Lemma same_settings_refl s : same_settings s s.
Proof. repeat split. Qed.

Lemma same_settings_trans s1 s2 s3 :
  same_settings s1 s2 -> same_settings s2 s3 -> same_settings s1 s3.
Proof.
  unfold same_settings. intros (A1 & A2 & A3 & A4 & A5) (B1 & B2 & B3 & B4 & B5).
  repeat split; congruence.
Qed.

Lemma advances_refl P s : advances P s s.
Proof.
  split; [reflexivity|]. split; [apply same_settings_refl|]. split.
  - exists []. split; [reflexivity | constructor].
  - exists []. split; [symmetry; apply app_nil_r | constructor].
Qed.

Lemma advances_trans P s1 s2 s3 :
  advances P s1 s2 -> advances P s2 s3 -> advances P s1 s3.
Proof.
  intros (V1 & S1 & (e1 & E1 & A1) & (n1 & D1 & F1))
         (V2 & S2 & (e2 & E2 & A2) & (n2 & D2 & F2)).
  split; [congruence|]. split; [eapply same_settings_trans; eassumption|]. split.
  - exists (e2 ++ e1). split.
    + rewrite E2, E1. apply app_assoc.
    + apply Forall_app. split; assumption.
  - exists (n1 ++ n2). split.
    + rewrite D2, D1. symmetry. apply app_assoc.
    + apply Forall_app. split; assumption.
Qed.

(** An event [aside] and a change of the files only [advance]. *)
Lemma advances_log P e s : aside e -> advances P s (log e s).
Proof.
  intros He. split; [reflexivity|]. split; [repeat split|]. split.
  - exists [e]. split; [reflexivity | repeat constructor; exact He].
  - exists []. split; [symmetry; apply app_nil_r | constructor].
Qed.

Lemma advances_with_fs P f s : advances P s (with_fs f s).
Proof.
  split; [reflexivity|]. split; [repeat split|]. split.
  - exists []. split; [reflexivity | constructor].
  - exists []. split; [symmetry; apply app_nil_r | constructor].
Qed.

Lemma yields_ret {A} P (a : A) (Q : A -> Prop) : Q a -> yields P (ret a) Q.
Proof.
  intros Ha s r s' H. inversion H; subst. split; [apply advances_refl|].
  intros a' E. inversion E; subst. exact Ha.
Qed.

Lemma yields_raise {A} P e (Q : A -> Prop) : yields P (raise e) Q.
Proof.
  intros s r s' H. inversion H; subst. split; [apply advances_refl|].
  intros a' E. discriminate E.
Qed.

Lemma yields_attr {A} P (f : scraper -> A) (Q : A -> Prop) :
  (forall s, Q (f s)) -> yields P (attr f) Q.
Proof.
  intros Hf s r s' H. inversion H; subst. split; [apply advances_refl|].
  intros a' E. inversion E; subst. apply Hf.
Qed.

Lemma yields_lift {A} P (r : result A) : yields P (lift r) anything.
Proof.
  intros s x s' H. inversion H; subst. split; [apply advances_refl|].
  intros; exact I.
Qed.

Lemma yields_bind {A B} P (m : M A) (k : A -> M B) Q Q' :
  yields P m Q -> (forall a, Q a -> yields P (k a) Q') ->
  yields P (bind m k) Q'.
Proof.
  intros Hm Hk s r s' H. unfold bind in H.
  destruct (m s) as [[a|e] s1] eqn:E.
  - destruct (Hm _ _ _ E) as [A1 Q1].
    destruct (Hk a (Q1 a eq_refl) _ _ _ H) as [A2 Q2].
    split; [eapply advances_trans; eassumption | exact Q2].
  - inversion H; subst. destruct (Hm _ _ _ E) as [A1 _].
    split; [exact A1 | discriminate].
Qed.

Lemma yields_try {A} P (body : M A) handler (Q : A -> Prop) :
  yields P body Q -> (forall e, yields P (handler e) Q) ->
  yields P (try_except body handler) Q.
Proof.
  intros Hb Hh s r s' H. unfold try_except in H.
  destruct (body s) as [[a|e] s1] eqn:E.
  - inversion H; subst. exact (Hb _ _ _ E).
  - destruct (Hb _ _ _ E) as [A1 _]. destruct (Hh e _ _ _ H) as [A2 Q2].
    split; [eapply advances_trans; eassumption | exact Q2].
Qed.

Lemma yields_weaken {A} P (m : M A) (Q Q' : A -> Prop) :
  yields P m Q -> (forall a, Q a -> Q' a) -> yields P m Q'.
Proof.
  intros Hm HQ s r s' H. destruct (Hm _ _ _ H) as [A1 Q1].
  split; [exact A1 | intros a E; apply HQ, Q1, E].
Qed.

(** A postcondition read off the method itself may be added. *)
Lemma yields_also {A} P (m : M A) (Q Q' : A -> Prop) :
  yields P m Q -> (forall s a s', m s = (Ok a, s') -> Q' a) ->
  yields P m (fun a => Q a /\ Q' a).
Proof.
  intros Hm HQ s r s' H. destruct (Hm _ _ _ H) as [A1 Q1].
  split; [exact A1|]. intros a E. subst r. split; [apply Q1; reflexivity|].
  eapply HQ, H.
Qed.

Lemma yields_get P k u : k <> GetPage -> yields P (get W k u) anything.
Proof.
  intros Hk s r s' H. inversion H; subst. split; [|intros; exact I].
  apply advances_log. destruct k; simpl; auto.
Qed.

Lemma yields_raise_for_status P r : yields P (raise_for_status r) anything.
Proof.
  unfold raise_for_status. destruct (status_ok r);
    [apply yields_ret; exact I | apply yields_raise].
Qed.

Lemma yields_content_length_int P r : yields P (content_length_int W r) anything.
Proof.
  unfold content_length_int. destruct (content_length r) as [v|];
    [|apply yields_ret; exact I].
  destruct (int_of_str W v); [apply yields_ret; exact I | apply yields_raise].
Qed.

Lemma yields_write_body P path r : yields P (write_body W path r) anything.
Proof.
  unfold write_body. destruct (open_wb W path); [|apply yields_raise].
  eapply yields_bind with (Q := anything).
  - intros s x s' H. inversion H; subst. split; [|intros; exact I].
    eapply advances_trans; [apply advances_with_fs|].
    apply advances_log. exact I.
  - intros _ _. destruct (body_complete r);
      [apply yields_ret; exact I | apply yields_raise].
Qed.

Lemma yields_os_remove P path : yields P (os_remove path) anything.
Proof.
  intros s r s' H. unfold os_remove in H. destruct (fs s !! path).
  - inversion H; subst. split; [|intros; exact I].
    eapply advances_trans; [apply advances_with_fs|].
    apply advances_log. exact I.
  - inversion H; subst. split; [apply advances_refl | intros; exact I].
Qed.

Lemma yields_ocr_file P path : yields P (ocr_file W path) anything.
Proof.
  intros s r s' H. unfold ocr_file in H. destruct (fs s !! path);
    inversion H; subst; (split; [apply advances_refl | intros; exact I]).
Qed.

Lemma yields_append P u rec :
  P rec ->
  yields P (modify (fun s => log (EvAppend u) (with_data (data s ++ [rec]) s)))
    anything.
Proof.
  intros Hrec s r s' H. inversion H; subst. split; [|intros; exact I].
  split; [reflexivity|]. split; [repeat split|]. split.
  - exists [EvAppend u]. split; [reflexivity | repeat constructor].
  - exists [rec]. split; [reflexivity | repeat constructor; exact Hrec].
Qed.

(** One step of a derivation that a method only advances. *)
Ltac frame_step :=
  first
    [ apply yields_raise
    | apply yields_ret; try exact I
    | apply yields_attr; intros; exact I
    | apply yields_lift
    | apply yields_get; discriminate
    | apply yields_raise_for_status
    | apply yields_content_length_int
    | apply yields_write_body
    | apply yields_os_remove
    | apply yields_ocr_file
    | apply yields_try; [|intros ?]
    | eapply yields_bind with (Q := anything); [|intros ? _]
    | match goal with
      | |- yields _ (if ?b then _ else _) _ => destruct b
      | |- yields _ (match ?x with _ => _ end) _ => destruct x
      end ].

Ltac frame := repeat frame_step.

Lemma pdf_extract_text_unbound : name_bound "pdf_extract_text" = false.
Proof. reflexivity. Qed.

Lemma yields_download_file P u t :
  yields P (download_file W u t) anything.
Proof. unfold download_file. frame. Qed.

Lemma yields_extract_text_from_image P u :
  yields P (extract_text_from_image W u) anything.
Proof. unfold extract_text_from_image. frame. Qed.

(** [extract_from_pdf] never returns anything but the failure value: the
    only other [return] is behind the evaluation of an unbound name. *)
Lemma yields_extract_from_pdf P u :
  yields P (extract_from_pdf W u) (fun r => r = PDF_FAILURE).
Proof.
  unfold extract_from_pdf. rewrite pdf_extract_text_unbound.
  apply yields_try; [|intros e; apply yields_ret; reflexivity].
  eapply yields_bind with (Q := anything); [frame|]. intros response _.
  eapply yields_bind with (Q := anything); [frame|]. intros len _.
  eapply yields_bind with (Q := anything); [frame|]. intros limit _.
  destruct (len >? limit)%Z; [apply yields_ret; reflexivity|].
  eapply yields_bind with (Q := anything); [frame|]. intros download _.
  eapply yields_bind with (Q := anything).
  { destruct download; [apply yields_download_file | frame]. }
  intros local_path _.
  eapply yields_bind with (Q := anything); [frame|]. intros _ _.
  apply yields_raise.
Qed.

Lemma yields_ocr_images P u imgs : yields P (ocr_images W u imgs) anything.
Proof.
  induction imgs as [|img rest IH]; simpl; [frame|].
  eapply yields_bind with (Q := anything); [apply yields_lift|].
  intros img_url _.
  match goal with |- yields _ (if ?b then _ else _) _ => destruct b end;
    [|exact IH].
  eapply yields_bind with (Q := anything); [apply yields_extract_text_from_image|].
  intros ocr_text _.
  eapply yields_bind with (Q := anything); [exact IH|]. intros more _.
  apply yields_ret. exact I.
Qed.

Lemma yields_extract_links P doc base :
  yields P (extract_links W doc base) anything.
Proof. unfold extract_links. frame. Qed.

Lemma yields_pdf_contents P extract urls :
  (forall u, yields P (extract u) anything) ->
  yields P (pdf_contents extract urls) anything.
Proof.
  intros Hx. induction urls as [|u rest IH]; simpl; [frame|].
  eapply yields_bind with (Q := anything); [apply Hx|]. intros result _.
  eapply yields_bind with (Q := anything); [exact IH|]. intros more _.
  apply yields_ret. exact I.
Qed.

(** ** The PDF loop *)

Lemma truncated_spec t :
  truncated t = (if (Z.of_nat (length t) <=? 10000)%Z then t
                 else take (Z.to_nat 10000) t ++ ELLIPSIS).
Proof.
  unfold truncated, CONTENT_LIMIT.
  destruct (Z.gtb_spec (Z.of_nat (length t)) 10000),
           (Z.leb_spec (Z.of_nat (length t)) 10000); (reflexivity || lia).
Qed.

(** What the loop returns, for any extraction method: at most one entry for
    each URL, each built from a text that the method returned for it. *)
Lemma pdf_contents_entries extract urls s entries s' :
  pdf_contents extract urls s = (Ok entries, s') ->
  (length entries <= length urls)%nat /\ Forall (entry_from extract) entries.
Proof.
  revert s entries s'. induction urls as [|u rest IH]; intros s entries s' H.
  - inversion H; subst. split; [reflexivity | constructor].
  - simpl in H. unfold bind in H.
    destruct (extract u s) as [[[t lp]|e] s1] eqn:Ex; [|discriminate].
    destruct (pdf_contents extract rest s1) as [[more|e] s2] eqn:Er; [|discriminate].
    destruct (IH _ _ _ Er) as [Hlen Hall].
    unfold ret in H. inversion H; subst; clear H. simpl.
    destruct t as [t|]; [|split; [lia | exact Hall]].
    destruct (truthy t) eqn:Et; [|split; [lia | exact Hall]].
    split; [simpl; lia|]. constructor; [|exact Hall].
    split; [reflexivity|]. exists t, s, s1. simpl. split; [exact Ex|].
    split; [exact Et | apply truncated_spec].
Qed.

(** ** One page *)

Lemma bind_get_inv {A} k u (f : response -> M A) s r s' :
  bind (get W k u) f s = (r, s') ->
  (exists e, r = Err e /\ s' = log (EvGet k u) s)
  \/ (exists resp, f resp (log (EvGet k u) s) = (r, s')).
Proof.
  unfold bind, get. destruct (session_get W (events s) k u) as [resp|e]; intros H.
  - right. exists resp. exact H.
  - left. exists e. inversion H; subst. split; reflexivity.
Qed.

(** After the request of the page, [process_page] only advances, and the
    record it appends holds what the PDF loop returned. *)
Lemma process_page_advances (Qf : list file_entry -> Prop) :
  (forall urls s entries s',
      pdf_contents (extract_from_pdf W) (take 3 urls) s = (Ok entries, s') ->
      Qf entries) ->
  forall u s r s',
    process_page W u s = (r, s') ->
    advances (fun rec => Qf (files_content rec)) (log (EvGet GetPage u) s) s'.
Proof.
  intros HQ u s r s' H. unfold process_page in H.
  apply bind_get_inv in H as [(e & -> & ->) | (resp & H)]; [apply advances_refl|].
  revert H. generalize (log (EvGet GetPage u) s). intros s1 H.
  set (P := fun rec => Qf (files_content rec)).
  match type of H with
  | ?m s1 = _ =>
      cut (yields P m anything);
        [intros Y; exact (proj1 (Y _ _ _ H)) | clear H]
  end.
  eapply yields_bind with (Q := anything); [frame|]. intros _ _.
  match goal with |- yields _ (if ?b then _ else _) _ => destruct b end; [frame|].
  eapply yields_bind with (Q := anything); [frame|]. intros enabled _.
  eapply yields_bind with (Q := anything).
  { destruct enabled; [apply yields_ocr_images | frame]. }
  intros img_texts _.
  eapply yields_bind with (Q := anything).
  { match goal with |- yields _ (match ?x with _ => _ end) _ => destruct x end; frame. }
  intros metadata _.
  eapply yields_bind with (Q := anything); [apply yields_extract_links|].
  intros links _.
  eapply yields_bind with (Q := Qf).
  { eapply yields_weaken.
    - apply yields_also with (Q := anything) (Q' := Qf); [|apply HQ].
      apply yields_pdf_contents. intros v.
      eapply yields_weaken; [apply yields_extract_from_pdf | intros; exact I].
    - intros a [_ Ha]. exact Ha. }
  intros files_content Hfc.
  eapply yields_bind with (Q := anything); [apply yields_append; exact Hfc|].
  intros _ _. frame.
Qed.

(** ** Histories *)

Lemma visits_app l1 l2 : visits (l1 ++ l2) = visits l1 ++ visits l2.
Proof. apply omap_app. Qed.

Lemma page_requests_app l1 l2 :
  page_requests (l1 ++ l2) = page_requests l1 ++ page_requests l2.
Proof. apply omap_app. Qed.

Lemma aside_visits extra :
  Forall aside extra -> visits extra = [] /\ page_requests extra = [].
Proof.
  induction 1 as [|e l He Hl [IH1 IH2]]; [split; reflexivity|].
  destruct e as [v|k v|path|path|v]; try destruct k; simpl in He;
    try contradiction; split; assumption.
Qed.

Lemma disciplined_app_aside extra l :
  Forall aside extra -> disciplined l -> disciplined (extra ++ l).
Proof.
  intros H Hl. induction H as [|e extra He Hextra IH]; [exact Hl|].
  simpl. split; [exact IH|].
  destruct e as [v|k v|path|path|v]; try exact I.
  destruct k; try exact I. contradiction He.
Qed.

Lemma disciplined_requests_visited l :
  disciplined l -> forall u, In u (page_requests l) -> In u (visits l).
Proof.
  induction l as [|e l IH]; intros H u Hu; [contradiction Hu|].
  destruct H as [Hl He].
  destruct e as [v|k v|path|path|v]; try (apply IH; assumption).
  - right. apply IH; assumption.
  - destruct k; try (apply IH; assumption).
    destruct Hu as [<- | Hu]; [apply He | apply IH; assumption].
Qed.

Lemma disciplined_NoDup l : disciplined l -> List.NoDup (page_requests l).
Proof.
  induction l as [|e l IH]; intros H; [constructor|].
  destruct H as [Hl He].
  destruct e as [v|k v|path|path|v]; try (apply IH; assumption).
  destruct k; try (apply IH; assumption).
  simpl. constructor; [apply He | apply IH, Hl].
Qed.

Lemma disciplined_suffix later earlier :
  disciplined (later ++ earlier) -> disciplined earlier.
Proof.
  induction later as [|e later IH]; intros H; [exact H|].
  apply IH. apply H.
Qed.

Lemma visited_at_suffix later earlier :
  visited_at earlier ⊆ visited_at (later ++ earlier).
Proof.
  unfold visited_at. rewrite visits_app, list_to_set_app_L. set_solver.
Qed.

(** ** The crawl *)

Lemma skip_false u s :
  skip u s = false ->
  (u ∉ visited_urls s) /\ (Z.of_nat (size (visited_urls s)) < max_pages s)%Z.
Proof.
  unfold skip. intros H. apply orb_false_iff in H as [H1 H2]. split.
  - apply bool_decide_eq_false in H1. exact H1.
  - rewrite Z.geb_leb in H2. apply Z.leb_gt in H2. exact H2.
Qed.

(** The guard of [scrape_page] holds: the call returns the state it got. *)
Lemma scrape_page_skips fuel u s :
  skip u s = true -> scrape_page W (S fuel) u s = Some s.
Proof. intros H. simpl. rewrite H. reflexivity. Qed.

(** A page that is not skipped: its URL joins the visited set, the visit
    and then the request of the page are recorded, and all else is aside. *)
Lemma page_step (Qf : list file_entry -> Prop) :
  (forall urls s entries s',
      pdf_contents (extract_from_pdf W) (take 3 urls) s = (Ok entries, s') ->
      Qf entries) ->
  forall u s r s',
    process_page W u (mark_visited u s) = (r, s') ->
    visited_urls s' = {[u]} ∪ visited_urls s
    /\ same_settings s s'
    /\ (exists extra,
          events s' = extra ++ EvGet GetPage u :: EvVisit u :: events s
          /\ Forall aside extra)
    /\ (exists new, data s' = data s ++ new
                    /\ Forall (fun rec => Qf (files_content rec)) new).
Proof.
  intros HQ u s r s' H.
  destruct (process_page_advances Qf HQ _ _ _ _ H) as (V & S & E & D).
  split; [exact V|]. split; [exact S|]. split; [exact E | exact D].
Qed.

Lemma page_step_invariant u s r s' :
  crawl_invariant s -> skip u s = false ->
  process_page W u (mark_visited u s) = (r, s') ->
  crawl_invariant s'.
Proof.
  intros (Hsize & Hvis & Hdis) Hskip H.
  destruct (page_step anything (fun _ _ _ _ _ => I) _ _ _ _ H)
    as (V & S & (extra & E & A) & _).
  destruct (skip_false _ _ Hskip) as [Hnew Hroom].
  destruct (aside_visits _ A) as [Av Ap].
  destruct S as (_ & Smax & _).
  split; [|split].
  - unfold cap. rewrite Smax, V.
    rewrite size_union, size_singleton; [lia|].
    apply disjoint_singleton_l, Hnew.
  - rewrite V, E. unfold visited_at. rewrite visits_app, Av. simpl.
    rewrite Hvis. reflexivity.
  - rewrite E. apply disciplined_app_aside; [exact A|].
    simpl. repeat split; [exact Hdis | left; reflexivity |].
    intros Hin. apply Hnew. rewrite Hvis. unfold visited_at.
    apply elem_of_list_to_set, list_elem_of_In.
    apply disciplined_requests_visited; assumption.
Qed.

Lemma foldl_scrape_None fuel links :
  foldl (fun acc link =>
           match acc with
           | Some s => scrape_page W fuel link s
           | None => None
           end) None links = None.
Proof. induction links as [|l ls IH]; simpl; [reflexivity | exact IH]. Qed.

(** A property of the scraper that every page keeps is kept by the whole
    recursion. *)
Lemma scrape_page_invariant (Inv : scraper -> Prop) :
  (forall u s r s',
      Inv s -> skip u s = false ->
      process_page W u (mark_visited u s) = (r, s') -> Inv s') ->
  forall fuel u s s',
    Inv s -> scrape_page W fuel u s = Some s' -> Inv s'.
Proof.
  intros Hstep. induction fuel as [|fuel IH]; intros u s s' Hs H; [discriminate|].
  simpl in H. destruct (skip u s) eqn:Hskip; [inversion H; subst; exact Hs|].
  destruct (process_page W u (mark_visited u s)) as [[follow|e] s1] eqn:Hp.
  - assert (H1 : Inv s1) by (eapply Hstep; eassumption).
    clear Hp. revert s1 H1 H.
    induction follow as [|link follow IHf]; intros s1 H1 H; simpl in H.
    + inversion H; subst. exact H1.
    + destruct (scrape_page W fuel link s1) as [s2|] eqn:H2.
      * apply (IHf s2); [eapply IH; eassumption | exact H].
      * rewrite foldl_scrape_None in H. discriminate.
  - inversion H; subst. eapply Hstep; eassumption.
Qed.

(** The recursion is as deep as the room left under the page cap, at most:
    with more fuel than that, [scrape_page] returns. *)
Lemma scrape_page_returns fuel u s :
  (room s < fuel)%nat -> exists s', scrape_page W fuel u s = Some s'.
Proof.
  revert u s. induction fuel as [|fuel IH]; intros u s Hroom; [lia|].
  simpl. destruct (skip u s) eqn:Hskip; [eauto|].
  destruct (skip_false _ _ Hskip) as [Hnew Hlt].
  destruct (process_page W u (mark_visited u s)) as [[follow|e] s1] eqn:Hp; [|eauto].
  destruct (page_step anything (fun _ _ _ _ _ => I) _ _ _ _ Hp)
    as (V & (_ & Smax & _) & _ & _).
  assert (H1 : (room s1 < fuel)%nat).
  { unfold room in *. rewrite Smax, V.
    rewrite size_union, size_singleton; [lia|].
    apply disjoint_singleton_l, Hnew. }
  clear Hp V Smax Hskip Hnew Hlt Hroom. revert s1 H1.
  induction follow as [|link follow IHf]; intros s1 H1; simpl; [eauto|].
  destruct (IH link s1 H1) as [s2 H2]. rewrite H2.
  apply IHf.
  assert (J : (room s2 <= room s1)%nat).
  { apply (scrape_page_invariant (fun s' => (room s' <= room s1)%nat))
      with (fuel := fuel) (u := link) (s := s1); [|lia|exact H2].
    intros v t r t' Ht _ Hpv.
    destruct (page_step anything (fun _ _ _ _ _ => I) _ _ _ _ Hpv)
      as (V & (_ & Smax & _) & _ & _).
    unfold room in *. rewrite Smax, V.
    assert (size (visited_urls t) <= size ({[v]} ∪ visited_urls t))%nat
      by apply subseteq_size, union_subseteq_r.
    lia. }
  lia.
Qed.

(** More fuel than enough changes nothing. *)
Lemma scrape_page_more_fuel fuel u s s' :
  scrape_page W fuel u s = Some s' ->
  forall fuel', (fuel <= fuel')%nat -> scrape_page W fuel' u s = Some s'.
Proof.
  revert u s s'. induction fuel as [|fuel IH]; intros u s s' H fuel' Hle;
    [discriminate|].
  destruct fuel' as [|fuel']; [lia|]. simpl in *.
  destruct (skip u s); [exact H|].
  destruct (process_page W u (mark_visited u s)) as [[follow|e] s1]; [|exact H].
  revert s1 H. induction follow as [|link follow IHf]; intros s1 H; simpl in *;
    [exact H|].
  destruct (scrape_page W fuel link s1) as [s2|] eqn:E.
  - rewrite (IH _ _ _ E fuel') by lia. apply IHf, H.
  - rewrite foldl_scrape_None in H. discriminate.
Qed.

(** ** A whole crawl *)

(** A crawl from a new scraper returns, keeps the invariant, and every
    record it appends holds what the PDF loop returned. *)
Lemma crawl_summary (Qf : list file_entry -> Prop) :
  (forall urls s entries s',
      pdf_contents (extract_from_pdf W) (take 3 urls) s = (Ok entries, s') ->
      Qf entries) ->
  forall root pages ocr limit download disk,
  exists final,
    run W (init W root pages ocr limit download disk) = Some final
    /\ crawl_invariant final
    /\ max_pages final = pages
    /\ Forall (fun rec => Qf (files_content rec)) (data final).
Proof.
  intros HQ root pages ocr limit download disk.
  set (self := init W root pages ocr limit download disk).
  destruct (scrape_page_returns (run_fuel self) (root_url self) self) as [final H].
  { unfold room, run_fuel, self, init. cbn [visited_urls max_pages].
    rewrite size_empty. lia. }
  exists final. split; [exact H|].
  apply (scrape_page_invariant
           (fun s => crawl_invariant s /\ max_pages s = pages
                     /\ Forall (fun rec => Qf (files_content rec)) (data s)))
    with (fuel := run_fuel self) (u := root_url self) (s := self); [| |exact H].
  - intros u s r s' (Hinv & Hmax & Hdata) Hskip Hp.
    split; [eapply page_step_invariant; eassumption|].
    destruct (page_step Qf HQ _ _ _ _ Hp)
      as (_ & (_ & Smax & _) & _ & (new & D & Hnew)).
    split; [congruence|]. rewrite D. apply Forall_app. split; assumption.
  - split; [|split; [reflexivity | constructor]].
    unfold crawl_invariant, cap, self, init. cbn [visited_urls max_pages events].
    rewrite size_empty. split; [lia|]. split; [reflexivity | exact I].
Qed.

(** ** The claims about the crawl *)

Lemma In_visits u l : In u (visits l) <-> In (EvVisit u) l.
Proof.
  induction l as [|e l IH]; [reflexivity|].
  destruct e as [v|k v|path|path|v]; simpl; rewrite ?IH;
    try (split; [intros H; right; exact H | intros [H|H]; [discriminate | exact H]]).
  split; intros [H|H]; auto; left; congruence.
Qed.

Lemma In_page_requests u l : In u (page_requests l) <-> In (EvGet GetPage u) l.
Proof.
  induction l as [|e l IH]; [reflexivity|].
  destruct e as [v|k v|path|path|v]; try destruct k; simpl; rewrite ?IH;
    try (split; [intros H; right; exact H | intros [H|H]; [discriminate | exact H]]).
  split; intros [H|H]; auto; left; congruence.
Qed.

(** C1, amended. A crawl from a new scraper returns, and at every point of
    it the number of visited URLs is at most the page cap, or zero when the
    cap is negative: the visited set after any initial part of the history
    has at most [max 0 max_pages] elements, the set of the scraper is the
    set after the whole history, and [scrape_page] returns the state it got
    whenever the set has reached the cap. *)
Theorem visited_within_cap root pages ocr limit download disk :
  exists final,
    run W (init W root pages ocr limit download disk) = Some final
    /\ visited_urls final = visited_at (events final)
    /\ (forall later earlier,
          events final = later ++ earlier ->
          (Z.of_nat (size (visited_at earlier)) <= Z.max 0 pages)%Z)
    /\ (forall fuel u s,
          (Z.of_nat (size (visited_urls s)) >= max_pages s)%Z ->
          scrape_page W (S fuel) u s = Some s).
Proof.
  destruct (crawl_summary anything (fun _ _ _ _ _ => I)
              root pages ocr limit download disk)
    as (final & Hrun & (Hsize & Hvis & _) & Hmax & _).
  exists final. split; [exact Hrun|]. split; [exact Hvis|]. split.
  - intros later earlier E.
    assert (size (visited_at earlier) <= size (visited_urls final))%nat.
    { apply subseteq_size. rewrite Hvis, E. apply visited_at_suffix. }
    unfold cap in Hsize. rewrite Hmax in Hsize. lia.
  - intros fuel u s H. apply scrape_page_skips. unfold skip.
    apply orb_true_iff. right. rewrite Z.geb_leb. apply Z.leb_le. lia.
Qed.

(** C2. In a crawl from a new scraper no page is requested twice; the
    request of a page comes after the visit of its URL was recorded, so the
    URL is in the visited set whatever becomes of the request; and
    [scrape_page] returns the state it got, without a request, for a URL
    that is in the visited set. *)
Theorem page_requested_at_most_once root pages ocr limit download disk :
  exists final,
    run W (init W root pages ocr limit download disk) = Some final
    /\ List.NoDup (page_requests (events final))
    /\ (forall later u earlier,
          events final = later ++ EvGet GetPage u :: earlier ->
          In (EvVisit u) earlier /\ ~ In (EvGet GetPage u) earlier)
    /\ (forall u, In (EvGet GetPage u) (events final) -> u ∈ visited_urls final)
    /\ (forall fuel u s,
          u ∈ visited_urls s -> scrape_page W (S fuel) u s = Some s).
Proof.
  destruct (crawl_summary anything (fun _ _ _ _ _ => I)
              root pages ocr limit download disk)
    as (final & Hrun & (_ & Hvis & Hdis) & _ & _).
  exists final. split; [exact Hrun|].
  split; [apply disciplined_NoDup, Hdis|]. split; [|split].
  - intros later u earlier E. rewrite E in Hdis.
    apply disciplined_suffix in Hdis. destruct Hdis as [_ [H1 H2]].
    split; [apply In_visits, H1|]. intros H. apply H2, In_page_requests, H.
  - intros u H. rewrite Hvis. unfold visited_at.
    apply elem_of_list_to_set, list_elem_of_In.
    apply disciplined_requests_visited; [exact Hdis|].
    apply In_page_requests, H.
  - intros fuel u s H. apply scrape_page_skips. unfold skip.
    apply orb_true_iff. left. apply bool_decide_eq_true. exact H.
Qed.

(** ** PDF extraction *)

Lemma content_length_int_declared r s :
  content_length_int W r s
  = (match declared_length W r with
     | Some n => Ok n
     | None => Err ValueError
     end, s).
Proof.
  unfold content_length_int, declared_length.
  destruct (content_length r) as [v|]; [|reflexivity].
  destruct (int_of_str W v); reflexivity.
Qed.

Lemma try_except_ret_total {A} (body : M A) (x : A) s r s' :
  try_except body (fun _ => ret x) s = (r, s') -> exists a, r = Ok a.
Proof.
  unfold try_except. destruct (body s) as [[a|e] s1]; intros H;
    inversion H; subst; eauto.
Qed.

Lemma extract_from_pdf_fails u s :
  exists s', extract_from_pdf W u s = (Ok PDF_FAILURE, s').
Proof.
  destruct (extract_from_pdf W u s) as [r s'] eqn:E. exists s'.
  destruct (yields_extract_from_pdf anything u _ _ _ E) as [_ H].
  apply try_except_ret_total in E as [a ->].
  rewrite (H a eq_refl). reflexivity.
Qed.

Lemma pdf_contents_empty urls s entries s' :
  pdf_contents (extract_from_pdf W) urls s = (Ok entries, s') -> entries = [].
Proof.
  intros H. apply pdf_contents_entries in H as [_ H].
  destruct H as [|e entries (_ & t & s1 & s2 & Hx & _) _]; [reflexivity|].
  destruct (extract_from_pdf_fails (file_url e) s1) as [s3 Hf].
  rewrite Hf in Hx. discriminate Hx.
Qed.

(** With document downloading on, the document is on disk when the
    extraction fails. *)
Lemma extract_from_pdf_downloads u s r1 n r2 :
  download_documents s = true ->
  session_get W (events s) GetPdf u = Ok r1 ->
  declared_length W r1 = Some n ->
  (n <= max_file_size s)%Z ->
  session_get W (EvGet GetPdf u :: events s) GetDownload u = Ok r2 ->
  status_ok r2 = true ->
  open_wb W (document_path W s) = true ->
  exists s',
    extract_from_pdf W u s = (Ok PDF_FAILURE, s')
    /\ fs s' !! document_path W s = Some (body r2)
    /\ In (EvWrite (document_path W s)) (events s').
Proof.
  intros Hd H1 HL Hn H2 Hs Ho.
  unfold extract_from_pdf, try_except.
  unfold bind at 1. unfold get at 1. rewrite H1.
  unfold bind at 1. rewrite content_length_int_declared, HL.
  unfold bind at 1. unfold attr at 1. cbn [max_file_size log].
  destruct (Z.gtb_spec n (max_file_size s)) as [Hgt|_]; [lia|].
  unfold bind at 1. unfold attr at 1. cbn [download_documents log]. rewrite Hd.
  unfold bind at 1.
  unfold download_file, try_except.
  unfold bind at 1. unfold get at 1. cbn [events log]. rewrite H2.
  unfold bind at 1. unfold raise_for_status. rewrite Hs. unfold ret at 1.
  unfold bind at 1. unfold attr at 1. cbn [visited_urls log].
  unfold bind at 1. unfold write_body.
  change (os_path_join W (py "downloaded_documents")
            (py "document_" ++ str_of_nat (size (visited_urls s)) ++ py "_"
               ++ py "pdf" ++ py "." ++ py "pdf"))
    with (document_path W s).
  rewrite Ho. unfold bind at 1. unfold modify at 1.
  rewrite pdf_extract_text_unbound.
  destruct (body_complete r2), (body_complete r1);
    (eexists; split; [reflexivity|]; cbn [fs events log with_fs];
     split; [apply lookup_insert_eq | auto with datatypes]).
Qed.

(** C7. [extract_from_pdf] returns the failure value for every URL and in
    every state: between the download and the only other [return] stands
    the evaluation of [pdf_extract_text], a name that the module does not
    bind. So every record of a crawl has an empty [files_content]. With
    document downloading on, a PDF whose request and download are answered
    is nevertheless on disk when the extraction fails. *)
Theorem pdf_extraction_always_fails :
  (forall u s, exists s', extract_from_pdf W u s = (Ok PDF_FAILURE, s'))
  /\ (forall root pages ocr limit download disk,
        exists final,
          run W (init W root pages ocr limit download disk) = Some final
          /\ Forall (fun rec => files_content rec = []) (data final))
  /\ (forall u s r1 n r2,
        download_documents s = true ->
        session_get W (events s) GetPdf u = Ok r1 ->
        declared_length W r1 = Some n ->
        (n <= max_file_size s)%Z ->
        session_get W (EvGet GetPdf u :: events s) GetDownload u = Ok r2 ->
        status_ok r2 = true ->
        open_wb W (document_path W s) = true ->
        exists s',
          extract_from_pdf W u s = (Ok PDF_FAILURE, s')
          /\ fs s' !! document_path W s = Some (body r2)
          /\ In (EvWrite (document_path W s)) (events s')).
Proof.
  split; [apply extract_from_pdf_fails|]. split.
  - intros root pages ocr limit download disk.
    destruct (crawl_summary (fun entries => entries = [])
                (fun urls => pdf_contents_empty (take 3 urls))
                root pages ocr limit download disk)
      as (final & Hrun & _ & _ & Hdata).
    exists final. split; [exact Hrun | exact Hdata].
  - apply extract_from_pdf_downloads.
Qed.

(** C8. The PDF loop of [scrape_page] runs over at most three URLs and,
    whatever the extraction method returns, appends at most one entry for
    each: an entry holds the extracted text when it has at most 10,000
    characters, and otherwise its first 10,000 characters followed by the
    ellipsis. So every record of a crawl has at most three entries in
    [files_content], each of that form. *)
Theorem files_content_bounded :
  (forall extract urls s entries s',
      pdf_contents extract (take 3 urls) s = (Ok entries, s') ->
      (length entries <= 3)%nat /\ Forall (entry_from extract) entries)
  /\ (forall root pages ocr limit download disk,
        exists final,
          run W (init W root pages ocr limit download disk) = Some final
          /\ Forall (fun rec =>
                       (length (files_content rec) <= 3)%nat
                       /\ Forall (entry_from (extract_from_pdf W)) (files_content rec))
               (data final)).
Proof.
  assert (L : forall extract urls s entries s',
             pdf_contents extract (take 3 urls) s = (Ok entries, s') ->
             (length entries <= 3)%nat /\ Forall (entry_from extract) entries).
  { intros extract urls s entries s' H.
    apply pdf_contents_entries in H as [Hlen Hall]. split; [|exact Hall].
    rewrite length_take in Hlen. lia. }
  split; [exact L|].
  intros root pages ocr limit download disk.
  destruct (crawl_summary
              (fun entries => (length entries <= 3)%nat
                              /\ Forall (entry_from (extract_from_pdf W)) entries)
              (L (extract_from_pdf W))
              root pages ocr limit download disk)
    as (final & Hrun & _ & _ & Hdata).
  exists final. split; [exact Hrun | exact Hdata].
Qed.

(** ** OCR of an image *)

(** When Tesseract returns a text, empty or not, the temporary image is
    removed. *)
Lemma ocr_result_removes_temp_image u s r n text :
  ocr_enabled s = true ->
  session_get W (events s) GetImage u = Ok r ->
  status_ok r = true ->
  declared_length W r = Some n ->
  (n <= max_file_size s)%Z ->
  contains (py "image") (default [] (content_type r)) = true ->
  open_wb W (temp_image_path W u) = true ->
  body_complete r = true ->
  image_to_string W (body r) = Ok text ->
  exists s',
    extract_text_from_image W u s
    = (Ok (if truthy (strip text) then clean_text (is_word W) text else OCR_EMPTY), s')
    /\ fs s' !! temp_image_path W u = None.
Proof.
  intros He H1 Hs HL Hn Hc Ho Hb Hocr.
  unfold extract_text_from_image.
  unfold bind at 1. unfold attr at 1. rewrite He. cbn [negb].
  unfold try_except.
  unfold bind at 1. unfold get at 1. rewrite H1.
  unfold bind at 1. unfold raise_for_status. rewrite Hs. unfold ret at 1.
  unfold bind at 1. rewrite content_length_int_declared, HL.
  unfold bind at 1. unfold attr at 1. cbn [max_file_size log].
  destruct (Z.gtb_spec n (max_file_size s)) as [Hgt|_]; [lia|].
  rewrite Hc. cbn [negb].
  fold (temp_image_path W u).
  unfold bind at 1. unfold write_body. rewrite Ho, Hb.
  unfold bind at 1. unfold modify at 1. unfold ret at 1.
  unfold bind at 1. unfold ocr_file. cbn [fs log with_fs].
  rewrite lookup_insert_eq, Hocr.
  unfold bind at 1. unfold os_remove. cbn [fs log with_fs].
  rewrite lookup_insert_eq. unfold ret.
  eexists. split; [reflexivity|]. cbn [fs log with_fs].
  apply lookup_delete_eq.
Qed.

(** When Tesseract raises, the exception handler is entered before
    [os.remove] is reached: the temporary image stays on disk, and the
    events of the call are the request and the write. *)
Lemma ocr_error_leaves_temp_image u s r n e :
  ocr_enabled s = true ->
  session_get W (events s) GetImage u = Ok r ->
  status_ok r = true ->
  declared_length W r = Some n ->
  (n <= max_file_size s)%Z ->
  contains (py "image") (default [] (content_type r)) = true ->
  open_wb W (temp_image_path W u) = true ->
  body_complete r = true ->
  image_to_string W (body r) = Err e ->
  exists s',
    extract_text_from_image W u s = (Ok OCR_ERROR, s')
    /\ fs s' !! temp_image_path W u = Some (body r)
    /\ events s' = EvWrite (temp_image_path W u) :: EvGet GetImage u :: events s.
Proof.
  intros He H1 Hs HL Hn Hc Ho Hb Hocr.
  unfold extract_text_from_image.
  unfold bind at 1. unfold attr at 1. rewrite He. cbn [negb].
  unfold try_except.
  unfold bind at 1. unfold get at 1. rewrite H1.
  unfold bind at 1. unfold raise_for_status. rewrite Hs. unfold ret at 1.
  unfold bind at 1. rewrite content_length_int_declared, HL.
  unfold bind at 1. unfold attr at 1. cbn [max_file_size log].
  destruct (Z.gtb_spec n (max_file_size s)) as [Hgt|_]; [lia|].
  rewrite Hc. cbn [negb].
  fold (temp_image_path W u).
  unfold bind at 1. unfold write_body. rewrite Ho, Hb.
  unfold bind at 1. unfold modify at 1. unfold ret at 1.
  unfold bind at 1. unfold ocr_file. cbn [fs log with_fs].
  rewrite lookup_insert_eq, Hocr. unfold ret.
  eexists. split; [reflexivity|]. cbn [fs events log with_fs].
  split; [apply lookup_insert_eq | reflexivity].
Qed.

End CrawlerFacts.

(** * Properties of the answer engine *)

Section AnswerFacts.

Variable completion : nat -> str -> result (option str).

Local Abbreviation call_llm := (call_llm completion).
Local Abbreviation answer_questions := (answer_questions completion).

Lemma answer_questions_questions n summary questions :
  List.map fst (answer_questions n summary questions) = questions.
Proof.
  revert n. induction questions as [|q qs IH]; intros n; simpl;
    [reflexivity | rewrite IH; reflexivity].
Qed.

Lemma answer_questions_lookup n summary questions i q :
  questions !! i = Some q ->
  answer_questions n summary questions !! i
  = Some (q, call_llm (n + i)%nat (prompt_for summary q)).
Proof.
  revert n i. induction questions as [|q0 qs IH]; intros n i H; [discriminate|].
  destruct i as [|i]; simpl in *.
  - inversion H; subst. rewrite Nat.add_0_r. reflexivity.
  - rewrite (IH (S n) i H). replace (S n + i)%nat with (n + S i)%nat by lia.
    reflexivity.
Qed.

Lemma lookup_map {A B} (f : A -> B) (l : list A) i x :
  l !! i = Some x -> List.map f l !! i = Some (f x).
Proof.
  revert i. induction l as [|a l IH]; intros i H; [discriminate|].
  destruct i as [|i]; simpl in *.
  - inversion H; subst. reflexivity.
  - apply IH, H.
Qed.

(** C10. Whatever the language model does for one question, there is one
    pair for every question, in the order of the questions: the pair of a
    question whose request returns a content holds that content, stripped;
    the pair of a question whose request raises holds [None]. The answers
    file then holds one block for every question, in the order of the
    questions and nothing else: the block of a question is its label line
    with the question, the label line with the answer ([None] for a failed
    request) and the rule of eighty hyphens followed by an empty line. No
    other file changes. *)
Theorem failed_completion_keeps_other_answers n summary questions filename disk :
  let answers := answer_questions n summary questions in
  List.map fst answers = questions
  /\ (forall i q c,
        questions !! i = Some q ->
        completion (n + i)%nat (USER_PREFIX ++ prompt_for summary q) = Ok (Some c) ->
        answers !! i = Some (q, Some (strip c)))
  /\ (forall i q e,
        questions !! i = Some q ->
        completion (n + i)%nat (USER_PREFIX ++ prompt_for summary q) = Err e ->
        answers !! i = Some (q, None))
  /\ (exists blocks,
        save_answers answers filename disk !! filename = Some (concat blocks)
        /\ length blocks = length questions
        /\ forall i q,
             questions !! i = Some q ->
             exists a,
               answers !! i = Some (q, a)
               /\ blocks !! i
                  = Some (Q_LABEL ++ q ++ [NEWLINE] ++ A_LABEL
                          ++ match a with
                             | Some text => text
                             | None => py "None"
                             end
                          ++ [NEWLINE] ++ repeat DASH 80 ++ [NEWLINE; NEWLINE]))
  /\ (forall other,
        other <> filename ->
        save_answers answers filename disk !! other = disk !! other).
Proof.
  split; [apply answer_questions_questions|]. split; [|split; [|split]].
  - intros i q c Hq Hc. rewrite (answer_questions_lookup _ _ _ _ _ Hq).
    unfold call_llm. rewrite Hc. reflexivity.
  - intros i q e Hq He. rewrite (answer_questions_lookup _ _ _ _ _ Hq).
    unfold call_llm. rewrite He. reflexivity.
  - exists (List.map answer_block (answer_questions n summary questions)).
    split; [apply lookup_insert_eq|]. split.
    + rewrite List.length_map.
      rewrite <- (answer_questions_questions n summary questions) at 2.
      rewrite List.length_map. reflexivity.
    + intros i q Hq. eexists. split; [apply answer_questions_lookup, Hq|].
      rewrite (lookup_map answer_block _ i _ (answer_questions_lookup _ _ _ _ _ Hq)).
      reflexivity.
  - intros other Hne. unfold save_answers. apply lookup_insert_ne. congruence.
Qed.

End AnswerFacts.

(** * The claims on the examples *)

Example clean_text_example :
  clean_text ascii_word (py "  Hello,   world!#tag -  x- -y -- z - ")
  = py "Hello, world!tag x-y -z".
Proof. vm_compute. reflexivity. Qed.

(** The crawl of the example site visits both pages once, leaves the logo
    in the temporary directory, and records no file content although the
    document was downloaded. *)
Example site_crawl :
  match run site_world (site_scraper 20) with
  | Some final =>
      rev (events final)
      = [EvVisit home_url; EvGet GetPage home_url;
         EvGet GetImage logo_url; EvWrite (py "temp_images/logo.png");
         EvGet GetPdf pdf_url; EvGet GetDownload pdf_url;
         EvWrite (py "downloaded_documents/document_1_pdf.pdf");
         EvAppend home_url;
         EvVisit about_url; EvGet GetPage about_url; EvAppend about_url]
      /\ List.map url (data final) = [home_url; about_url]
      /\ List.map text (data final)
         = [join [NEWLINE]
              [py "Home"; py "Welcome"; py "About us"; py "Report"; py "Mail";
               py "Elsewhere"];
            join [NEWLINE] [py "About"; py "Home"]]
      /\ List.map files_content (data final) = [[]; []]
  | None => False
  end.
Proof. vm_compute. repeat split; reflexivity. Qed.

(** C9, as stated, fails: the text node of the page is taken without the
    whitespace at its ends, which the blank-line filter would have kept. *)
Lemma text_nodes_are_trimmed :
  main_text_of (decompose_all REMOVED_TAGS padded_page) = py "Welcome"
  /\ claimed_visible_text padded_page = py "  Welcome  "
  /\ main_text_of (decompose_all REMOVED_TAGS padded_page)
     <> claimed_visible_text padded_page.
Proof.
  split; [vm_compute; reflexivity|]. split; [vm_compute; reflexivity|].
  vm_compute. discriminate.
Qed.

Lemma main_text_is_visible_text_witness :
  main_text_of (decompose_all REMOVED_TAGS home_page)
  = newline_joined
      [py "Home"; py "Welcome"; py "About us"; py "Report"; py "Mail"; py "Elsewhere"]
  /\ main_text_of
       (decompose_all REMOVED_TAGS
          [Text (py "before"); Element (py "script") [] [Text (py "var x;")];
           Text (py "after")])
     = main_text_of (decompose_all REMOVED_TAGS [Text (py "before"); Text (py "after")]).
Proof.
  split.
  - destruct (main_text_is_visible_text home_page) as (H & _).
    rewrite H. vm_compute. reflexivity.
  - destruct (main_text_is_visible_text
                [Text (py "before"); Element (py "script") [] [Text (py "var x;")];
                 Text (py "after")]) as (_ & _ & H).
    apply (H (py "script") [] [Text (py "var x;")] [Text (py "before")]
             [Text (py "after")]); reflexivity.
Defined.

(** C1, as stated, fails: with a page cap of -1 the crawl visits nothing,
    and the empty visited set has more elements than the cap allows. *)
Lemma negative_cap_is_exceeded :
  run site_world (site_scraper (-1)) = Some (site_scraper (-1))
  /\ ~ (Z.of_nat (size (visited_urls (site_scraper (-1))))
        <= max_pages (site_scraper (-1)))%Z.
Proof.
  split; [vm_compute; reflexivity|].
  vm_compute. intros H. apply H. reflexivity.
Qed.

Lemma visited_within_cap_witness :
  (Z.of_nat (size (visited_urls (site_scraper 0))) >= max_pages (site_scraper 0))%Z
  /\ scrape_page site_world 1 about_url (site_scraper 0) = Some (site_scraper 0).
Proof.
  assert (H : (Z.of_nat (size (visited_urls (site_scraper 0)))
               >= max_pages (site_scraper 0))%Z)
    by (vm_compute; intros E; discriminate E).
  split; [exact H|].
  destruct (visited_within_cap site_world home_url 0 true 10485760 true ∅)
    as (final & _ & _ & _ & Hguard).
  apply Hguard, H.
Defined.

Lemma page_requested_at_most_once_witness :
  home_url ∈ visited_urls (mark_visited home_url (site_scraper 20))
  /\ scrape_page site_world 1 home_url (mark_visited home_url (site_scraper 20))
     = Some (mark_visited home_url (site_scraper 20)).
Proof.
  assert (H : home_url ∈ visited_urls (mark_visited home_url (site_scraper 20))).
  { unfold mark_visited. cbn [visited_urls log with_visited].
    apply elem_of_union_l, elem_of_singleton. reflexivity. }
  split; [exact H|].
  destruct (page_requested_at_most_once site_world home_url 20 true 10485760 true ∅)
    as (final & _ & _ & _ & _ & Hguard).
  apply Hguard, H.
Defined.

(** C5 fails on the code: Tesseract raises on the logo of the example site,
    the call returns the error text, and the temporary image is still on
    disk. *)
Theorem temp_image_survives_ocr_error :
  exists s',
    extract_text_from_image site_world logo_url (site_scraper 20)
    = (Ok OCR_ERROR, s')
    /\ fs s' !! py "temp_images/logo.png" = Some logo_bytes
    /\ events s' = [EvWrite (py "temp_images/logo.png"); EvGet GetImage logo_url].
Proof.
  exact (ocr_error_leaves_temp_image site_world logo_url (site_scraper 20)
           (file_response (py "image/png") logo_bytes) 0%Z OSError
           eq_refl eq_refl eq_refl eq_refl ltac:(vm_compute; discriminate)
           eq_refl eq_refl eq_refl eq_refl).
Qed.

Lemma pdf_extraction_always_fails_witness :
  exists s',
    extract_from_pdf site_world pdf_url (site_scraper 20) = (Ok PDF_FAILURE, s')
    /\ fs s' !! py "downloaded_documents/document_0_pdf.pdf" = Some pdf_bytes
    /\ In (EvWrite (py "downloaded_documents/document_0_pdf.pdf")) (events s').
Proof.
  destruct (pdf_extraction_always_fails site_world) as (_ & _ & H).
  exact (H pdf_url (site_scraper 20)
           (file_response (py "application/pdf") pdf_bytes) 0%Z
           (file_response (py "application/pdf") pdf_bytes)
           eq_refl eq_refl eq_refl ltac:(vm_compute; discriminate)
           eq_refl eq_refl eq_refl).
Defined.

Lemma files_content_bounded_witness :
  pdf_contents sample_extract (take 3 sample_pdf_urls) (site_scraper 20)
  = (Ok sample_entries, site_scraper 20)
  /\ (length sample_entries <= 3)%nat
  /\ Forall (entry_from sample_extract) sample_entries.
Proof.
  assert (H : pdf_contents sample_extract (take 3 sample_pdf_urls) (site_scraper 20)
              = (Ok sample_entries, site_scraper 20))
    by (vm_compute; reflexivity).
  split; [exact H|].
  destruct (files_content_bounded site_world) as (L & _).
  exact (L sample_extract sample_pdf_urls _ _ _ H).
Defined.

Lemma failed_completion_keeps_other_answers_witness :
  answer_questions third_request_fails 0 (py "summary") five_questions
  = five_answers
  /\ answer_questions third_request_fails 0 (py "summary") five_questions !! 3%nat
     = Some (py "q4", Some (strip (py " answer 4" ++ [NEWLINE])))
  /\ answer_questions third_request_fails 0 (py "summary") five_questions !! 2%nat
     = Some (py "q3", None)
  /\ exists blocks,
       save_answers five_answers (py "answers.txt") ∅ !! py "answers.txt"
       = Some (concat blocks)
       /\ length blocks = 5%nat
       /\ blocks !! 2%nat
          = Some (Q_LABEL ++ py "q3" ++ [NEWLINE] ++ A_LABEL ++ py "None"
                  ++ [NEWLINE] ++ repeat DASH 80 ++ [NEWLINE; NEWLINE])
       /\ blocks !! 3%nat
          = Some (Q_LABEL ++ py "q4" ++ [NEWLINE] ++ A_LABEL ++ py "answer 4"
                  ++ [NEWLINE] ++ repeat DASH 80 ++ [NEWLINE; NEWLINE]).
Proof.
  assert (E : answer_questions third_request_fails 0 (py "summary") five_questions
              = five_answers) by (vm_compute; reflexivity).
  split; [exact E|].
  destruct (failed_completion_keeps_other_answers third_request_fails 0
              (py "summary") five_questions (py "answers.txt") ∅)
    as (_ & Hok & Herr & (blocks & Hfile & Hlen & Hblock) & _).
  split; [|split].
  - apply (Hok 3%nat (py "q4") (py " answer 4" ++ [NEWLINE])); reflexivity.
  - apply (Herr 2%nat (py "q3") ConnectionError); reflexivity.
  - exists blocks. rewrite <- E. split; [exact Hfile|]. split; [exact Hlen|]. split.
    + destruct (Hblock 2%nat (py "q3") eq_refl) as (a & Ha & Hb).
      rewrite E in Ha. inversion Ha; subst a. exact Hb.
    + destruct (Hblock 3%nat (py "q4") eq_refl) as (a & Ha & Hb).
      rewrite E in Ha. inversion Ha; subst a. exact Hb.
Defined.

(** * Further properties of the text normalizer *)

Section NormalizerShape.

Variable is_word : N -> bool.

Local Abbreviation kept := (kept is_word).
Local Abbreviation clean_text := (clean_text is_word).
Local Abbreviation normal := (normal is_word).

Lemma rstrip_end s : ends_with_space (rstrip s) = false.
Proof.
  induction s as [|c t IH]; simpl; [reflexivity|].
  destruct (rstrip t) as [|d r].
  - destruct (is_space c) eqn:E; simpl; [reflexivity | exact E].
  - exact IH.
Qed.

Lemma lstrip_length s : (length (lstrip s) <= length s)%nat.
Proof.
  induction s as [|c t IH]; simpl; [lia|].
  destruct (is_space c); simpl; lia.
Qed.

Lemma rstrip_length s : (length (rstrip s) <= length s)%nat.
Proof.
  induction s as [|c t IH]; simpl; [lia|].
  destruct (rstrip t) as [|d r]; [destruct (is_space c)|]; simpl in *; lia.
Qed.

Lemma sub_spaces_length b s : (length (sub_spaces b s) <= length s)%nat.
Proof.
  revert b. induction s as [|c t IH]; intros b; simpl; [lia|].
  pose proof (IH true). pose proof (IH false).
  destruct (is_space c); [destruct b|]; simpl; lia.
Qed.

Lemma sub_hyphen_length m s : (length (sub_hyphen m s) <= length s)%nat.
Proof.
  revert m. induction s as [|c t IH]; intros m; simpl; [lia|].
  pose proof (IH true). pose proof (IH false).
  destruct (m && is_space c); [lia|].
  destruct ((c =? DASH) && starts_with_space t); simpl; lia.
Qed.

(** X1. What [clean_text] returns holds only characters of the allowed
    class, its only whitespace is the plain space, no two spaces are
    adjacent, no hyphen stands before a space, and it neither starts nor
    ends with a space. *)
Theorem clean_text_output_shape (x : str) :
  Forall (fun c => kept c = true /\ (is_space c = true -> c = SPACE))
    (clean_text x)
  /\ no_space_after is_space (clean_text x) = true
  /\ no_space_after is_dash (clean_text x) = true
  /\ starts_with_space (clean_text x) = false
  /\ ends_with_space (clean_text x) = false.
Proof.
  destruct (clean_text_normal is_word x) as (P & S & D & T).
  split; [exact P|]. split; [exact S|]. split; [exact D|].
  rewrite <- T. unfold strip. split.
  - apply rstrip_head, lstrip_head.
  - apply rstrip_end.
Qed.

(** X2. [clean_text] never returns more characters than it got. *)
Theorem clean_text_never_longer (x : str) :
  (length (clean_text x) <= length x)%nat.
Proof.
  unfold clean_text, strip, sub_foreign.
  pose proof (List.filter_length_le kept x).
  pose proof (sub_spaces_length false (List.filter kept x)).
  pose proof (sub_hyphen_length false (sub_spaces false (List.filter kept x))).
  pose proof (lstrip_length (sub_hyphen false (sub_spaces false (List.filter kept x)))).
  pose proof (rstrip_length
                (lstrip (sub_hyphen false (sub_spaces false (List.filter kept x))))).
  lia.
Qed.

(** X3. The strings that [clean_text] leaves as they are, are the strings in
    normal form: made of allowed characters, with single plain spaces only,
    no hyphen before a space, and nothing to strip. *)
Theorem clean_text_fixed_points (s : str) :
  clean_text s = s <-> normal s.
Proof.
  split.
  - intros H. rewrite <- H. apply clean_text_normal.
  - apply clean_text_fixes_normal.
Qed.

End NormalizerShape.

(** * Further properties of the page text and of the file contents *)

Section TextFacts.

Lemma split_no_separator sep s :
  Forall (fun part => ~ In sep part) (split sep s).
Proof.
  induction s as [|c t IH]; simpl; [repeat constructor; intros []|].
  destruct (N.eqb_spec c sep) as [->|Hne].
  - constructor; [intros [] | exact IH].
  - destruct (split sep t) as [|h r]; [repeat constructor; intros [E|[]]; congruence|].
    inversion IH; subst. constructor; [|assumption].
    intros [E|E]; [congruence | contradiction].
Qed.

Lemma split_part_app sep part rest :
  ~ In sep part ->
  split sep (part ++ sep :: rest) = part :: split sep rest.
Proof.
  induction part as [|c t IH]; intros H; simpl.
  - rewrite N.eqb_refl. reflexivity.
  - destruct (N.eqb_spec c sep) as [->|Hne]; [exfalso; apply H; left; reflexivity|].
    rewrite IH by (intros E; apply H; right; exact E). reflexivity.
Qed.

Lemma split_part sep part : ~ In sep part -> split sep part = [part].
Proof.
  induction part as [|c t IH]; intros H; simpl; [reflexivity|].
  destruct (N.eqb_spec c sep) as [->|Hne]; [exfalso; apply H; left; reflexivity|].
  rewrite IH by (intros E; apply H; right; exact E). reflexivity.
Qed.

(** Splitting what was joined gives the parts back. *)
Lemma split_join sep parts :
  parts <> [] ->
  Forall (fun part => ~ In sep part) parts ->
  split sep (join [sep] parts) = parts.
Proof.
  intros Hne H. induction H as [|p ps Hp Hps IH]; [contradiction|].
  destruct ps as [|q qs]; simpl.
  - apply split_part, Hp.
  - change (split sep (p ++ sep :: join [sep] (q :: qs)) = p :: q :: qs).
    rewrite split_part_app by exact Hp. f_equal. apply IH. discriminate.
Qed.

Lemma lines_kept_lines s :
  Forall (fun line => ~ In NEWLINE line /\ truthy (strip line) = true)
    (lines_kept s).
Proof.
  unfold lines_kept. apply List.Forall_forall. intros line H.
  apply filter_In in H as [H1 H2]. split; [|exact H2].
  pose proof (split_no_separator NEWLINE s) as F.
  rewrite List.Forall_forall in F. apply F, H1.
Qed.

Lemma filter_all {A} (f : A -> bool) l :
  Forall (fun a => f a = true) l -> List.filter f l = l.
Proof.
  induction 1 as [|a l Ha Hl IH]; simpl; [reflexivity|].
  rewrite Ha, IH. reflexivity.
Qed.

(** X4. The text of a record is stable under the line filter that produced
    it: splitting it at the newlines and dropping the blank lines gives the
    lines it was joined from, so joining them again gives the text back;
    and unless the text is empty, splitting it yields no blank line at
    all. *)
Theorem main_text_lines_stable (doc : soup) :
  lines_kept (main_text_of doc) = lines_kept (get_text_stripped [NEWLINE] doc)
  /\ join [NEWLINE] (lines_kept (main_text_of doc)) = main_text_of doc
  /\ (main_text_of doc = []
      \/ Forall (fun line => truthy (strip line) = true)
           (split NEWLINE (main_text_of doc))).
Proof.
  unfold main_text_of.
  set (ls := lines_kept (get_text_stripped [NEWLINE] doc)).
  pose proof (lines_kept_lines (get_text_stripped [NEWLINE] doc)) as F.
  fold ls in F.
  assert (S : ls <> [] -> split NEWLINE (join [NEWLINE] ls) = ls).
  { intros Hne. apply split_join; [exact Hne|].
    eapply Forall_impl; [exact F|]. intros l [H _]. exact H. }
  assert (K : Forall (fun line => truthy (strip line) = true) ls).
  { eapply Forall_impl; [exact F|]. intros l [_ H]. exact H. }
  assert (E : lines_kept (join [NEWLINE] ls) = ls).
  { destruct ls as [|l0 ls0]; [reflexivity|].
    unfold lines_kept. rewrite S by discriminate. apply filter_all, K. }
  split; [exact E|]. split; [rewrite E; reflexivity|].
  destruct ls as [|l0 ls0]; [left; reflexivity|].
  right. rewrite S by discriminate. exact K.
Qed.

(** X5. The content of a file entry never has more than 10,003
    characters: a text of at most 10,000 characters is kept whole, and a
    longer one is cut to its first 10,000 characters and the three dots. *)
Theorem truncated_length (t : str) :
  (Z.of_nat (length (truncated t)) <= 10003)%Z
  /\ ((Z.of_nat (length t) <= 10000)%Z -> truncated t = t)
  /\ ((10000 < Z.of_nat (length t))%Z ->
      Z.of_nat (length (truncated t)) = 10003%Z
      /\ take (Z.to_nat 10000) (truncated t) = take (Z.to_nat 10000) t).
Proof.
  rewrite truncated_spec.
  destruct (Z.leb_spec (Z.of_nat (length t)) 10000) as [H|H].
  - split; [lia|]. split; [reflexivity | lia].
  - assert (L : length (take (Z.to_nat 10000) t) = Z.to_nat 10000)
      by (rewrite length_take; lia).
    assert (D : length ELLIPSIS = 3%nat) by reflexivity.
    split; [rewrite length_app, L, D; lia|]. split; [lia|].
    intros _. split; [rewrite length_app, L, D; lia|].
    rewrite take_app_length' by (symmetry; exact L). reflexivity.
Qed.

End TextFacts.

(** * Further properties of the link classifier and of the metadata *)

Section LinkAndMetadataFacts.

Variable W : world.

Lemma branch_external_iff valid href :
  branch W valid href = BExternal <-> valid = false.
Proof.
  unfold branch. destruct valid; cbn [negb].
  - split; [|discriminate].
    destruct (endswith (lower W href) (py ".pdf")); [discriminate|].
    destruct (existsb (endswith (lower W href)) IMAGE_EXTENSIONS); [discriminate|].
    destruct (existsb (N.eqb DOT) (last_segment href)); discriminate.
  - split; reflexivity.
Qed.

(** X6. When [extract_links] returns, the external bucket and the four
    others share no URL: a URL is in the external bucket exactly when some
    anchor resolves to it and it is off the root's host (or has no host),
    and a URL in the internal, PDF, image or other-file bucket is on the
    root's host. *)
Theorem external_bucket_is_off_site self base hrefs l u :
  extract_links_from W self hrefs base = Ok l ->
  (u ∈ external l
   <-> (exists href, In href hrefs /\ urljoin W base href = Ok u)
       /\ is_valid_url W self u = Ok false)
  /\ (forall b, b <> BExternal ->
        u ∈ bucket_of b l ->
        is_valid_url W self u = Ok true /\ u ∉ external l).
Proof.
  intros Hl.
  assert (E : u ∈ external l
              <-> (exists href, In href hrefs /\ urljoin W base href = Ok u)
                  /\ is_valid_url W self u = Ok false).
  { change (external l) with (bucket_of BExternal l).
    rewrite (elem_of_extract_links W self base hrefs l u BExternal Hl). split.
    - intros (href & Hin & Hc).
      apply classify_inv in Hc as (Hu & valid & Hv & Hb).
      symmetry in Hb. apply branch_external_iff in Hb. subst valid. eauto.
    - intros ((href & Hin & Hu) & Hv). exists href. split; [exact Hin|].
      rewrite (classify_resolved W self base href u false Hu Hv). reflexivity. }
  split; [exact E|].
  intros b Hb Hin.
  apply (elem_of_extract_links W self base hrefs l u b Hl) in Hin as (href & Hin & Hc).
  apply classify_inv in Hc as (Hu & valid & Hv & Hbr).
  assert (valid = true).
  { destruct valid; [reflexivity|]. exfalso. apply Hb. rewrite Hbr.
    apply branch_external_iff. reflexivity. }
  subst valid. split; [exact Hv|]. intros Hx. apply E in Hx as [_ Hx]. congruence.
Qed.

(** ** [extract_metadata] *)

Lemma collect_og_ok metas acc :
  Forall (fun n => is_Some (tag_get (py "content") n)) metas ->
  exists og, collect_og metas acc = Ok og.
Proof.
  intros H. revert acc. induction H as [|n rest [c Hc] Hrest IH]; intros acc; simpl.
  - eauto.
  - rewrite Hc. apply IH.
Qed.

Lemma collect_og_err metas acc e :
  collect_og metas acc = Err e ->
  e = KeyError /\ Exists (fun n => tag_get (py "content") n = None) metas.
Proof.
  revert acc. induction metas as [|n rest IH]; intros acc H; simpl in H;
    [discriminate|].
  destruct (tag_get (py "content") n) as [c|] eqn:Hc.
  - destruct (IH _ H) as [He Hx]. split; [exact He | right; exact Hx].
  - inversion H; subst. split; [reflexivity | left; exact Hc].
Qed.

Lemma collect_og_ok_inv metas acc og :
  collect_og metas acc = Ok og ->
  Forall (fun n => is_Some (tag_get (py "content") n)) metas.
Proof.
  revert acc. induction metas as [|n rest IH]; intros acc H; [constructor|].
  simpl in H. destruct (tag_get (py "content") n) as [c|] eqn:Hc; [|discriminate].
  constructor; [rewrite Hc; eauto | eapply IH, H].
Qed.

Lemma find_app {A} (f : A -> bool) l1 l2 :
  List.find f (l1 ++ l2)
  = match List.find f l1 with
    | Some a => Some a
    | None => List.find f l2
    end.
Proof.
  induction l1 as [|a l1 IH]; simpl; [reflexivity|].
  destruct (f a); [reflexivity | exact IH].
Qed.

Lemma collect_og_lookup metas acc og k :
  collect_og metas acc = Ok og ->
  og !! k = match List.find (fun n => str_eqb (og_property n) k) (rev metas) with
            | Some n => tag_get (py "content") n
            | None => acc !! k
            end.
Proof.
  revert acc. induction metas as [|n rest IH]; intros acc H; simpl in H.
  - inversion H; subst. reflexivity.
  - destruct (tag_get (py "content") n) as [c|] eqn:Hc; [|discriminate].
    rewrite (IH _ H). simpl. rewrite find_app. simpl.
    destruct (List.find (fun n0 => str_eqb (og_property n0) k) (rev rest));
      [reflexivity|].
    unfold str_eqb, og_property. case_bool_decide as Hk.
    + rewrite Hk, lookup_insert_eq. symmetry. exact Hc.
    + rewrite lookup_insert_ne by exact Hk. reflexivity.
Qed.

Lemma extract_metadata_cases (doc : soup) :
  match collect_og (og_metas doc) ∅ with
  | Ok og0 => exists m, extract_metadata doc = Ok m /\ og m = og0
  | Err e => extract_metadata doc = Err e
  end.
Proof.
  unfold extract_metadata. fold (og_metas doc).
  destruct (collect_og (og_metas doc) ∅); [eexists; split; reflexivity | reflexivity].
Qed.

(** X7. [extract_metadata] raises exactly when an OpenGraph tag of the
    document has no content attribute, and then it raises [KeyError];
    title, description and keywords never make it raise. *)
Theorem extract_metadata_raises_iff (doc : soup) :
  (forall e, extract_metadata doc = Err e
             <-> e = KeyError
                 /\ Exists (fun n => tag_get (py "content") n = None) (og_metas doc))
  /\ ((exists m, extract_metadata doc = Ok m)
      <-> Forall (fun n => is_Some (tag_get (py "content") n)) (og_metas doc)).
Proof.
  pose proof (extract_metadata_cases doc) as K.
  destruct (collect_og (og_metas doc) ∅) as [og0|e0] eqn:Hc.
  - destruct K as (m & Hm & _). pose proof (collect_og_ok_inv _ _ _ Hc) as F.
    split.
    + intros e. split; [rewrite Hm; discriminate|]. intros [_ Hx]. exfalso.
      rewrite List.Exists_exists in Hx. destruct Hx as (n & Hin & Hn).
      rewrite List.Forall_forall in F. destruct (F n Hin) as [c Hcn]. congruence.
    + split; [intros _; exact F | intros _; eauto].
  - destruct (collect_og_err _ _ _ Hc) as [-> Hx]. split.
    + intros e. rewrite K. split; [intros H; inversion H; subst; auto|].
      intros [-> _]. reflexivity.
    + split; [intros [m Hm]; congruence|]. intros F.
      destruct (collect_og_ok _ ∅ F) as [og1 H1]. congruence.
Qed.

(** X8. When [extract_metadata] returns, the [og] mapping holds for every
    property the content of the last tag of the document that carries it,
    and nothing for a property that no tag carries. *)
Theorem og_last_tag_wins (doc : soup) (m : metadata) (k : str) :
  extract_metadata doc = Ok m ->
  og m !! k = last_content k (og_metas doc).
Proof.
  intros H. pose proof (extract_metadata_cases doc) as K.
  destruct (collect_og (og_metas doc) ∅) as [og0|e] eqn:Hc; [|congruence].
  destruct K as (m' & Hm & Hog). assert (m' = m) by congruence. subst m'.
  rewrite Hog, (collect_og_lookup _ _ _ k Hc).
  unfold last_content.
  destruct (List.find (fun n => str_eqb (og_property n) k) (rev (og_metas doc)));
    [reflexivity | apply lookup_empty].
Qed.

End LinkAndMetadataFacts.

(** * Further properties of the crawler *)

Section MethodFacts.

Variable W : world.

(** ** What the extraction methods change, event by event *)

Lemma touched_app_l p l1 l2 : touched p l1 -> touched p (l1 ++ l2).
Proof. intros [H|H]; [left | right]; apply in_or_app; left; exact H. Qed.

Lemma touched_app_r p l1 l2 : touched p l2 -> touched p (l1 ++ l2).
Proof. intros [H|H]; [left | right]; apply in_or_app; right; exact H. Qed.

Lemma moves_refl E s : moves E s s.
Proof.
  split; [reflexivity|]. split; [reflexivity|]. split; [apply same_settings_refl|].
  exists []. split; [reflexivity|]. split; [constructor | right; reflexivity].
Qed.

Lemma moves_trans E s1 s2 s3 : moves E s1 s2 -> moves E s2 s3 -> moves E s1 s3.
Proof.
  intros (V1 & D1 & S1 & e1 & E1 & A1 & F1) (V2 & D2 & S2 & e2 & E2 & A2 & F2).
  split; [congruence|]. split; [congruence|].
  split; [eapply same_settings_trans; eassumption|].
  exists (e2 ++ e1). split; [rewrite E2, E1; apply app_assoc|].
  split; [apply Forall_app; split; assumption|].
  intros p. destruct (F2 p) as [T|Q2]; [left; apply touched_app_l, T|].
  destruct (F1 p) as [T|Q1]; [left; apply touched_app_r, T|].
  right. congruence.
Qed.

Lemma moves_weaken (E E' : event -> Prop) s s' :
  (forall e, E e -> E' e) -> moves E s s' -> moves E' s s'.
Proof.
  intros H (V & D & S & extra & Ev & A & F).
  split; [exact V|]. split; [exact D|]. split; [exact S|].
  exists extra. split; [exact Ev|]. split; [|exact F].
  eapply Forall_impl; [exact A | exact H].
Qed.

Lemma moves_log E e s : E e -> moves E s (log e s).
Proof.
  intros He. split; [reflexivity|]. split; [reflexivity|]. split; [repeat split|].
  exists [e]. split; [reflexivity|].
  split; [repeat constructor; exact He | right; reflexivity].
Qed.

Lemma does_ret {A} s0 E (a : A) (Q : A -> Prop) : Q a -> does s0 E (ret a) Q.
Proof.
  intros Ha s r s' _ H. inversion H; subst. split; [apply moves_refl|].
  intros a' E'. inversion E'; subst. exact Ha.
Qed.

Lemma does_raise {A} s0 E e (Q : A -> Prop) : does s0 E (raise e) Q.
Proof.
  intros s r s' _ H. inversion H; subst. split; [apply moves_refl|].
  intros a' E'. discriminate E'.
Qed.

Lemma does_attr {A} s0 E (f : scraper -> A) (Q : A -> Prop) :
  (forall s, same_settings s0 s -> Q (f s)) -> does s0 E (attr f) Q.
Proof.
  intros Hf s r s' Hs H. inversion H; subst. split; [apply moves_refl|].
  intros a' E'. inversion E'; subst. apply Hf, Hs.
Qed.

Lemma does_lift {A} s0 E (r : result A) : does s0 E (lift r) anything.
Proof.
  intros s x s' _ H. inversion H; subst. split; [apply moves_refl|].
  intros; exact I.
Qed.

Lemma does_bind {A B} s0 E (m : M A) (k : A -> M B) Q Q' :
  does s0 E m Q -> (forall a, Q a -> does s0 E (k a) Q') ->
  does s0 E (bind m k) Q'.
Proof.
  intros Hm Hk s r s' Hs H. unfold bind in H.
  destruct (m s) as [[a|e] s1] eqn:Em.
  - destruct (Hm _ _ _ Hs Em) as [M1 Q1].
    assert (Hs1 : same_settings s0 s1).
    { eapply same_settings_trans; [exact Hs | apply M1]. }
    destruct (Hk a (Q1 a eq_refl) _ _ _ Hs1 H) as [M2 Q2].
    split; [eapply moves_trans; eassumption | exact Q2].
  - inversion H; subst. destruct (Hm _ _ _ Hs Em) as [M1 _].
    split; [exact M1 | discriminate].
Qed.

Lemma does_try {A} s0 E (body : M A) handler (Q : A -> Prop) :
  does s0 E body Q -> (forall e, does s0 E (handler e) Q) ->
  does s0 E (try_except body handler) Q.
Proof.
  intros Hb Hh s r s' Hs H. unfold try_except in H.
  destruct (body s) as [[a|e] s1] eqn:Eb.
  - inversion H; subst. exact (Hb _ _ _ Hs Eb).
  - destruct (Hb _ _ _ Hs Eb) as [M1 _].
    assert (Hs1 : same_settings s0 s1).
    { eapply same_settings_trans; [exact Hs | apply M1]. }
    destruct (Hh e _ _ _ Hs1 H) as [M2 Q2].
    split; [eapply moves_trans; eassumption | exact Q2].
Qed.

Lemma does_weaken {A} s0 (E E' : event -> Prop) (m : M A) (Q Q' : A -> Prop) :
  (forall e, E e -> E' e) -> (forall a, Q a -> Q' a) ->
  does s0 E m Q -> does s0 E' m Q'.
Proof.
  intros HE HQ Hm s r s' Hs H. destruct (Hm _ _ _ Hs H) as [M1 Q1].
  split; [eapply moves_weaken; eassumption | intros a Ha; apply HQ, Q1, Ha].
Qed.

Lemma does_get s0 (E : event -> Prop) k u :
  E (EvGet k u) -> does s0 E (get W k u) anything.
Proof.
  intros He s r s' _ H. inversion H; subst.
  split; [apply moves_log, He | intros; exact I].
Qed.

Lemma does_raise_for_status s0 E r : does s0 E (raise_for_status r) anything.
Proof.
  unfold raise_for_status. destruct (status_ok r);
    [apply does_ret; exact I | apply does_raise].
Qed.

Lemma does_content_length_int s0 E r : does s0 E (content_length_int W r) anything.
Proof.
  unfold content_length_int. destruct (content_length r) as [v|];
    [|apply does_ret; exact I].
  destruct (int_of_str W v); [apply does_ret; exact I | apply does_raise].
Qed.

Lemma does_write_body s0 (E : event -> Prop) path r :
  E (EvWrite path) -> does s0 E (write_body W path r) anything.
Proof.
  intros He. unfold write_body. destruct (open_wb W path); [|apply does_raise].
  eapply does_bind with (Q := anything).
  - intros s x s' _ H. inversion H; subst. split; [|intros; exact I].
    split; [reflexivity|]. split; [reflexivity|]. split; [repeat split|].
    exists [EvWrite path]. split; [reflexivity|].
    split; [repeat constructor; exact He|].
    intros p. cbn [fs log with_fs].
    destruct (decide (p = path)) as [->|Hne].
    + left. left. left. reflexivity.
    + right. apply lookup_insert_ne. congruence.
  - intros _ _. destruct (body_complete r);
      [apply does_ret; exact I | apply does_raise].
Qed.

Lemma does_os_remove s0 (E : event -> Prop) path :
  E (EvRemove path) -> does s0 E (os_remove path) anything.
Proof.
  intros He s r s' _ H. unfold os_remove in H. destruct (fs s !! path).
  - inversion H; subst. split; [|intros; exact I].
    split; [reflexivity|]. split; [reflexivity|]. split; [repeat split|].
    exists [EvRemove path]. split; [reflexivity|].
    split; [repeat constructor; exact He|].
    intros p. cbn [fs log with_fs].
    destruct (decide (p = path)) as [->|Hne].
    + left. right. left. reflexivity.
    + right. apply lookup_delete_ne. congruence.
  - inversion H; subst. split; [apply moves_refl | intros; exact I].
Qed.

Lemma does_ocr_file s0 E path : does s0 E (ocr_file W path) anything.
Proof.
  intros s r s' _ H. unfold ocr_file in H. destruct (fs s !! path);
    inversion H; subst; (split; [apply moves_refl | intros; exact I]).
Qed.

(** One step of a derivation with [does]. *)
Ltac does_step :=
  first
    [ apply does_raise
    | apply does_ret; try exact I
    | apply does_attr; intros; exact I
    | apply does_lift
    | apply does_raise_for_status
    | apply does_content_length_int
    | apply does_ocr_file
    | apply does_try; [|intros ?]
    | eapply does_bind with (Q := anything); [|intros ? _]
    | match goal with
      | |- does _ _ (if ?b then _ else _) _ => destruct b
      | |- does _ _ (match ?x with _ => _ end) _ => destruct x
      end ].

Lemma document_path_is_document_path (v : gset str) file :
  file = os_path_join W (py "downloaded_documents")
           (py "document_" ++ str_of_nat (size v) ++ py "_" ++ py "pdf" ++ py "."
              ++ py "pdf") ->
  is_document_path W file.
Proof. intros ->. exists (size v). reflexivity. Qed.

Lemma does_download_file s0 u :
  does s0 (pdf_event W true) (download_file W u (py "pdf")) anything.
Proof.
  unfold download_file. apply does_try; [|intros e; apply does_ret; exact I].
  eapply does_bind with (Q := anything); [apply does_get; reflexivity|].
  intros response _.
  eapply does_bind with (Q := anything); [apply does_raise_for_status|].
  intros _ _.
  eapply does_bind with (Q := anything); [apply does_attr; intros; exact I|].
  intros visited _.
  eapply does_bind with (Q := anything); [|intros; apply does_ret; exact I].
  apply does_write_body. split; [reflexivity|].
  eapply document_path_is_document_path. reflexivity.
Qed.

Lemma does_extract_text_from_image s0 u :
  does s0 (image_event W) (extract_text_from_image W u) anything.
Proof.
  unfold extract_text_from_image.
  eapply does_bind with (Q := anything); [apply does_attr; intros; exact I|].
  intros enabled _. destruct (negb enabled); [apply does_ret; exact I|].
  apply does_try; [|intros e; apply does_ret; exact I].
  eapply does_bind with (Q := anything); [apply does_get; exact I|].
  intros response _.
  eapply does_bind with (Q := anything); [apply does_raise_for_status|].
  intros _ _.
  eapply does_bind with (Q := anything); [apply does_content_length_int|].
  intros len _.
  eapply does_bind with (Q := anything); [apply does_attr; intros; exact I|].
  intros limit _.
  destruct (len >? limit)%Z; [apply does_ret; exact I|].
  match goal with |- does _ _ (if ?b then _ else _) _ => destruct b end;
    [apply does_ret; exact I|].
  eapply does_bind with (Q := anything);
    [apply does_write_body; exists u; reflexivity|].
  intros _ _.
  eapply does_bind with (Q := anything); [apply does_ocr_file|].
  intros text _.
  eapply does_bind with (Q := anything);
    [apply does_os_remove; exists u; reflexivity|].
  intros _ _. apply does_ret. exact I.
Qed.

Lemma does_extract_from_pdf s0 u :
  does s0 (pdf_event W (download_documents s0)) (extract_from_pdf W u) anything.
Proof.
  unfold extract_from_pdf. apply does_try; [|intros e; apply does_ret; exact I].
  eapply does_bind with (Q := anything); [apply does_get; exact I|].
  intros response _.
  eapply does_bind with (Q := anything); [apply does_content_length_int|].
  intros len _.
  eapply does_bind with (Q := anything); [apply does_attr; intros; exact I|].
  intros limit _.
  destruct (len >? limit)%Z; [apply does_ret; exact I|].
  eapply does_bind with (Q := fun d => d = download_documents s0).
  { apply does_attr. intros s (_ & _ & _ & _ & H). exact H. }
  intros download ->.
  eapply does_bind with (Q := anything).
  { destruct (download_documents s0) eqn:D; [|apply does_ret; exact I].
    apply does_download_file. }
  intros local_path _.
  eapply does_bind with (Q := anything).
  { destruct (body_complete response); [apply does_ret; exact I | apply does_raise]. }
  intros _ _.
  destruct (name_bound "pdf_extract_text"); [|apply does_raise].
  destruct (pdf_text_capability W (body response));
    [apply does_ret; exact I | apply does_raise].
Qed.

Lemma does_ocr_images s0 u imgs :
  does s0 (image_event W) (ocr_images W u imgs) anything.
Proof.
  induction imgs as [|img rest IH]; simpl; [apply does_ret; exact I|].
  eapply does_bind with (Q := anything); [apply does_lift|].
  intros img_url _.
  match goal with |- does _ _ (if ?b then _ else _) _ => destruct b end;
    [|exact IH].
  eapply does_bind with (Q := anything); [apply does_extract_text_from_image|].
  intros ocr_text _.
  eapply does_bind with (Q := anything); [exact IH|]. intros more _.
  apply does_ret. exact I.
Qed.

Lemma does_pdf_contents s0 urls :
  does s0 (pdf_event W (download_documents s0))
    (pdf_contents (extract_from_pdf W) urls) anything.
Proof.
  induction urls as [|u rest IH]; simpl; [apply does_ret; exact I|].
  eapply does_bind with (Q := anything); [apply does_extract_from_pdf|].
  intros result _.
  eapply does_bind with (Q := anything); [exact IH|]. intros more _.
  apply does_ret. exact I.
Qed.

(** ** The methods that never raise *)

Lemma extract_text_from_image_returns u s :
  exists t s', extract_text_from_image W u s = (Ok t, s').
Proof.
  unfold extract_text_from_image, bind, attr.
  destruct (negb (ocr_enabled s)); [unfold ret; eauto|].
  match goal with
  | |- exists t s', try_except ?b ?h s = _ =>
      destruct (try_except b h s) as [r s'] eqn:E
  end.
  apply try_except_ret_total in E as E'. destruct E' as [a ->]. eauto.
Qed.

Lemma download_file_returns u file_type s :
  exists r s', download_file W u file_type s = (Ok r, s').
Proof.
  unfold download_file.
  match goal with
  | |- exists r s', try_except ?b ?h s = _ =>
      destruct (try_except b h s) as [r s'] eqn:E
  end.
  apply try_except_ret_total in E as E'. destruct E' as [a ->]. eauto.
Qed.

(** The OCR loop returns when every source resolves, and the exception
    that leaves it is that of [urljoin] for a source. *)
Lemma ocr_images_returns u imgs s :
  resolves W u (List.map img_src imgs) ->
  exists entries s', ocr_images W u imgs s = (Ok entries, s').
Proof.
  revert s. induction imgs as [|img rest IH]; intros s H; simpl;
    [unfold ret; eauto|].
  simpl in H. inversion H as [|x y (v & Hv) Hrest]; subst.
  unfold bind at 1. unfold lift at 1. rewrite Hv.
  match goal with |- context [if ?b then _ else _] => destruct b end;
    [|apply IH, Hrest].
  unfold bind.
  destruct (extract_text_from_image_returns v s) as (t & s1 & ->).
  destruct (IH s1 Hrest) as (more & s2 & ->). unfold ret. eauto.
Qed.

Lemma ocr_images_raises u imgs s e s' :
  ocr_images W u imgs s = (Err e, s') ->
  exists img, In img imgs /\ urljoin W u (img_src img) = Err e.
Proof.
  revert s. induction imgs as [|img rest IH]; intros s H; simpl in H;
    [discriminate H|].
  unfold bind at 1 in H. unfold lift at 1 in H.
  destruct (urljoin W u (img_src img)) as [v|e0] eqn:Hv.
  - assert (R : exists t, ocr_images W u rest t = (Err e, s')).
    { revert H.
      match goal with |- context [if ?b then _ else _] => destruct b end;
        [|eauto].
      unfold bind.
      destruct (extract_text_from_image_returns v s) as (t & s1 & ->).
      destruct (ocr_images W u rest s1) as [[more|e1] s2] eqn:Hr.
      - unfold ret. discriminate.
      - intros H. inversion H; subst. eauto. }
    destruct R as (t & R). destruct (IH _ R) as (i & Hin & Hi).
    exists i. split; [right; exact Hin | exact Hi].
  - inversion H; subst. exists img. split; [left; reflexivity | exact Hv].
Qed.

Lemma pdf_contents_returns urls s :
  exists s', pdf_contents (extract_from_pdf W) urls s = (Ok [], s').
Proof.
  revert s. induction urls as [|u rest IH]; intros s; simpl; [unfold ret; eauto|].
  unfold bind. destruct (extract_from_pdf_fails W u s) as (s1 & ->).
  destruct (IH s1) as (s2 & ->). unfold ret. simpl. eauto.
Qed.

(** X9. The helper methods never raise: [extract_text_from_image] and
    [download_file] return a value in every state and for every answer of
    the server, of Tesseract and of the file system. The OCR loop of
    [scrape_page] raises only the exception of [urljoin] for the source of
    an image, and returns when every source resolves. *)
Theorem helper_methods_never_raise :
  (forall u s, exists t s', extract_text_from_image W u s = (Ok t, s'))
  /\ (forall u file_type s,
        exists r s', download_file W u file_type s = (Ok r, s'))
  /\ (forall u imgs s,
        resolves W u (List.map img_src imgs) ->
        exists entries s', ocr_images W u imgs s = (Ok entries, s'))
  /\ (forall u imgs s e s',
        ocr_images W u imgs s = (Err e, s') ->
        exists img, In img imgs /\ urljoin W u (img_src img) = Err e).
Proof.
  split; [apply extract_text_from_image_returns|].
  split; [apply download_file_returns|].
  split; [apply ocr_images_returns | apply ocr_images_raises].
Qed.

(** X10. When [download_file] returns a path, the request was answered
    with a success status, the body arrived whole, and the file of that
    name holds the body; the name is built from the number of visited
    URLs. *)
Theorem download_file_path_holds_body u s p s' :
  download_file W u (py "pdf") s = (Ok (Some p), s') ->
  exists r,
    session_get W (events s) GetDownload u = Ok r
    /\ status_ok r = true
    /\ body_complete r = true
    /\ p = document_path W s
    /\ fs s' !! p = Some (body r).
Proof.
  unfold download_file, try_except.
  unfold bind at 1. unfold get at 1.
  destruct (session_get W (events s) GetDownload u) as [r|e] eqn:Hg;
    [|unfold ret; intros H; inversion H].
  unfold bind at 1. unfold raise_for_status.
  destruct (status_ok r) eqn:Hs; [|unfold raise, ret; intros H; inversion H].
  unfold ret at 1. unfold bind at 1. unfold attr at 1. cbn [visited_urls log].
  fold (document_path W s).
  unfold bind at 1. unfold write_body.
  destruct (open_wb W (document_path W s));
    [|unfold raise, ret; intros H; inversion H].
  unfold bind at 1. unfold modify at 1.
  destruct (body_complete r) eqn:Hb; [|unfold raise, ret; intros H; inversion H].
  unfold ret. intros H. inversion H; subst. exists r.
  split; [reflexivity|]. split; [exact Hs|]. split; [exact Hb|].
  split; [reflexivity|]. cbn [fs log with_fs]. apply lookup_insert_eq.
Qed.

(** ** The outcomes of one page *)

(** What [process_page] does, case by case. *)
Lemma process_page_cases u s r s' :
  process_page W u s = (r, s') ->
  match session_get W (events s) GetPage u with
  | Err e => r = Err e /\ s' = log (EvGet GetPage u) s
  | Ok resp =>
      if negb (status_ok resp)
      then r = Err HTTPError /\ s' = log (EvGet GetPage u) s
      else if negb (is_html resp)
      then r = Ok [] /\ s' = log (EvGet GetPage u) s
      else
        exists ro s1,
          ocr_step W u (page_doc W resp) (ocr_enabled s) (log (EvGet GetPage u) s)
          = (ro, s1)
          /\ match ro with
             | Err e => r = Err e /\ s' = s1
             | Ok imgs =>
                 match extract_metadata (page_doc W resp) with
                 | Err e => r = Err e /\ s' = s1
                 | Ok meta =>
                     match extract_links_from W s1 (anchor_hrefs (page_doc W resp)) u with
                     | Err e => r = Err e /\ s' = s1
                     | Ok l =>
                         exists s2,
                           pdf_step W l s1 = (Ok [], s2)
                           /\ s' = log (EvAppend u)
                                     (with_data
                                        (data s2 ++
                                         [mkPage u (main_text_of (page_doc W resp))
                                            imgs meta (link_lists_of W l) []]) s2)
                           /\ r = Ok (take 5 (list_of_set W (internal l)))
                     end
                 end
             end
  end.
Proof.
  unfold process_page. unfold bind at 1. unfold get at 1.
  destruct (session_get W (events s) GetPage u) as [resp|e];
    [|intros H; inversion H; split; reflexivity].
  unfold bind at 1. unfold raise_for_status.
  destruct (status_ok resp); cbn [negb];
    [|unfold raise; intros H; inversion H; split; reflexivity].
  unfold ret at 1. fold (is_html resp). fold (page_doc W resp).
  destruct (is_html resp); cbn [negb];
    [|unfold ret; intros H; inversion H; split; reflexivity].
  unfold bind at 1. unfold attr at 1. cbn [ocr_enabled log].
  unfold bind at 1.
  fold (ocr_step W u (page_doc W resp) (ocr_enabled s)).
  destruct (ocr_step W u (page_doc W resp) (ocr_enabled s) (log (EvGet GetPage u) s))
    as [[imgs|e] s1] eqn:Hocr.
  2:{ intros H. inversion H; subst. exists (Err e), s'.
      split; [reflexivity | split; reflexivity]. }
  intros H. exists (Ok imgs), s1. split; [reflexivity|].
  revert H. unfold bind at 1.
  destruct (extract_metadata (page_doc W resp)) as [meta|e];
    [|unfold raise; intros H; inversion H; split; reflexivity].
  unfold ret at 1. unfold bind at 1. rewrite extract_links_pure.
  destruct (extract_links_from W s1 (anchor_hrefs (page_doc W resp)) u) as [l|e];
    [|intros H; inversion H; split; reflexivity].
  unfold bind at 1.
  fold (pdf_step W l).
  destruct (pdf_contents_returns (take 3 (list_of_set W (files_pdf l))) s1)
    as (s2 & Hpdf).
  fold (pdf_step W l) in Hpdf.
  rewrite Hpdf. unfold bind at 1. unfold modify at 1. unfold ret.
  intros H. inversion H; subst. exists s2. repeat split; reflexivity.
Qed.

Lemma extraction_event_same_settings s0 s e :
  same_settings s0 s -> extraction_event W s e -> extraction_event W s0 e.
Proof.
  intros (_ & _ & Ho & _ & Hd). unfold extraction_event. rewrite Ho, Hd. auto.
Qed.

Lemma ocr_step_moves u doc s t ro t' :
  same_settings s t ->
  ocr_step W u doc (ocr_enabled s) t = (ro, t') ->
  moves (extraction_event W s) t t' /\ (ocr_enabled s = false -> ro = Ok []).
Proof.
  intros Hs H. unfold ocr_step in H. destruct (ocr_enabled s) eqn:Ho.
  - split; [|discriminate].
    destruct (does_ocr_images s u _ _ _ _ Hs H) as [M _].
    eapply moves_weaken; [|exact M].
    intros e He. left. split; [exact Ho | exact He].
  - inversion H; subst. split; [apply moves_refl | reflexivity].
Qed.

Lemma pdf_step_moves l s t r t' :
  same_settings s t ->
  pdf_step W l t = (r, t') ->
  moves (extraction_event W s) t t'.
Proof.
  intros Hs H. unfold pdf_step in H.
  destruct (does_pdf_contents s _ _ _ _ Hs H) as [M _].
  eapply moves_weaken; [|exact M]. intros e He. right. exact He.
Qed.

Lemma In_take_In {A} n (l : list A) x : In x (take n l) -> In x l.
Proof.
  revert n. induction l as [|a l IH]; intros [|n] H; simpl in H;
    try contradiction.
  destruct H as [->|H]; [left; reflexivity | right; eapply IH, H].
Qed.

(** What one page changes. *)
Lemma process_page_summary u s r s' :
  process_page W u s = (r, s') ->
  visited_urls s' = visited_urls s
  /\ same_settings s s'
  /\ (exists extra,
        events s' = extra ++ EvGet GetPage u :: events s
        /\ Forall (fun e => extraction_event W s e \/ e = EvAppend u) extra
        /\ forall p, touched p extra \/ fs s' !! p = fs s !! p)
  /\ (data s' = data s
      \/ exists rec, data s' = data s ++ [rec] /\ url rec = u
                     /\ (ocr_enabled s = false -> images rec = []))
  /\ (forall follow link,
        r = Ok follow -> In link follow ->
        exists doc t l,
          root_url t = root_url s
          /\ extract_links_from W t (anchor_hrefs doc) u = Ok l
          /\ In link (list_of_set W (internal l))).
Proof.
  intros H. apply process_page_cases in H.
  set (Summary :=
         visited_urls s' = visited_urls s
         /\ same_settings s s'
         /\ (exists extra,
               events s' = extra ++ EvGet GetPage u :: events s
               /\ Forall (fun e => extraction_event W s e \/ e = EvAppend u) extra
               /\ forall p, touched p extra \/ fs s' !! p = fs s !! p)
         /\ (data s' = data s
             \/ exists rec, data s' = data s ++ [rec] /\ url rec = u
                            /\ (ocr_enabled s = false -> images rec = []))
         /\ (forall follow link,
               r = Ok follow -> In link follow ->
               exists doc t l,
                 root_url t = root_url s
                 /\ extract_links_from W t (anchor_hrefs doc) u = Ok l
                 /\ In link (list_of_set W (internal l)))).
  assert (Trivial : forall x, s' = log (EvGet GetPage u) s ->
            (forall follow link, x = Ok follow -> In link follow -> False) ->
            r = x -> Summary).
  { intros x -> Hx ->. split; [reflexivity|]. split; [repeat split|]. split.
    - exists []. split; [reflexivity|]. split; [constructor | right; reflexivity].
    - split; [left; reflexivity|]. intros follow link E Hin.
      exfalso. eapply Hx; eassumption. }
  destruct (session_get W (events s) GetPage u) as [resp|e].
  2:{ destruct H as [-> ->]. apply (Trivial (Err e)); [reflexivity| |reflexivity].
      intros follow link E. discriminate E. }
  destruct (negb (status_ok resp)).
  { destruct H as [-> ->]. apply (Trivial (Err HTTPError)); [reflexivity| |reflexivity].
    intros follow link E. discriminate E. }
  destruct (negb (is_html resp)).
  { destruct H as [-> ->]. apply (Trivial (Ok [])); [reflexivity| |reflexivity].
    intros follow link E Hin. inversion E; subst. contradiction Hin. }
  clear Trivial. destruct H as (ro & s1 & Hocr & H).
  assert (S0 : same_settings s (log (EvGet GetPage u) s)) by (repeat split).
  destruct (ocr_step_moves _ _ _ _ _ _ S0 Hocr)
    as [(V1 & D1 & S1 & x1 & E1 & A1 & F1) Himgs].
  assert (Ss1 : same_settings s s1).
  { eapply same_settings_trans; [exact S0 | exact S1]. }
  assert (Raised : forall e, r = Err e -> s' = s1 -> Summary).
  { intros e -> ->.
    split; [rewrite V1; reflexivity|]. split; [exact Ss1|]. split; [|split].
    + exists x1. rewrite E1. cbn [events log]. split; [reflexivity|]. split.
      * eapply Forall_impl; [exact A1|]. intros e0 He. left. exact He.
      * intros p. destruct (F1 p) as [T|Q1]; [left; exact T | right; exact Q1].
    + left. rewrite D1. reflexivity.
    + intros follow link E. discriminate E. }
  destruct ro as [imgs|e]; [|destruct H as [Hr Hs]; exact (Raised e Hr Hs)].
  destruct (extract_metadata (page_doc W resp)) as [meta|e];
    [|destruct H as [Hr Hs]; exact (Raised e Hr Hs)].
  destruct (extract_links_from W s1 (anchor_hrefs (page_doc W resp)) u)
    as [l|e] eqn:Hl; [|destruct H as [Hr Hs]; exact (Raised e Hr Hs)].
  clear Raised. destruct H as (s2 & Hpdf & -> & ->).
  destruct (pdf_step_moves _ _ _ _ _ Ss1 Hpdf) as (V2 & D2 & S2 & x2 & E2 & A2 & F2).
  unfold Summary. cbn [visited_urls data events fs log with_data].
  split; [rewrite V2, V1; reflexivity|].
  split; [eapply same_settings_trans; [exact Ss1|];
          destruct S2 as (? & ? & ? & ? & ?); repeat split; assumption|].
  split; [|split].
  + exists (EvAppend u :: x2 ++ x1). rewrite E2, E1. cbn [events log].
    split; [simpl; rewrite <- app_assoc; reflexivity|]. split.
    * constructor; [right; reflexivity|]. apply Forall_app. split.
      -- eapply Forall_impl; [exact A2|]. intros e He. left. exact He.
      -- eapply Forall_impl; [exact A1|]. intros e He. left. exact He.
    * intros p. destruct (F2 p) as [T|Q2].
      { left. destruct T as [T|T]; [left | right];
          right; apply in_or_app; left; exact T. }
      destruct (F1 p) as [T|Q1].
      { left. destruct T as [T|T]; [left | right];
          right; apply in_or_app; right; exact T. }
      right. rewrite Q2, Q1. reflexivity.
  + right. eexists. rewrite D2, D1. cbn [data log].
    split; [reflexivity|]. split; [reflexivity|].
    intros Ho. specialize (Himgs Ho). inversion Himgs. reflexivity.
  + intros follow link E Hin. inversion E; subst.
    exists (page_doc W resp), s1, l. split; [apply Ss1|]. split; [exact Hl|].
    eapply In_take_In. exact Hin.
Qed.

Lemma quiet_extra (s : scraper) u extra :
  Forall (fun e => extraction_event W s e \/ e = EvAppend u) extra ->
  page_requests extra = [] /\ visits extra = [].
Proof.
  induction 1 as [|e l He Hl [IH1 IH2]]; [split; reflexivity|].
  destruct e as [v|k v|path|path|v]; try destruct k; simpl;
    try (split; assumption).
  - destruct He as [[[_ []] | []] | He]; discriminate He.
  - destruct He as [[[_ []] | []] | He]; discriminate He.
Qed.

Lemma extraction_event_crawl_event s0 e :
  extraction_event W s0 e -> crawl_event W s0 e.
Proof. destruct e as [v|k v|path|path|v]; try destruct k; simpl; auto. Qed.

Lemma NoDup_snoc {A} (l : list A) x :
  List.NoDup l -> ~ In x l -> List.NoDup (l ++ [x]).
Proof.
  induction 1 as [|a l Ha Hl IH]; intros Hx; simpl.
  - constructor; [intros [] | constructor].
  - constructor.
    + intros Hin. apply in_app_or in Hin as [Hin|[->|[]]]; [contradiction|].
      apply Hx. left. reflexivity.
    + apply IH. intros Hin. apply Hx. right. exact Hin.
Qed.

(** ** Induction over a crawl that follows links *)

Lemma scrape_page_invariant_links (Inv : scraper -> Prop) (Good : str -> Prop) :
  (forall u s r s',
      Inv s -> Good u -> skip u s = false ->
      process_page W u (mark_visited u s) = (r, s') ->
      Inv s' /\ forall follow link, r = Ok follow -> In link follow -> Good link) ->
  forall fuel u s s',
    Inv s -> Good u -> scrape_page W fuel u s = Some s' -> Inv s'.
Proof.
  intros Hstep. induction fuel as [|fuel IH]; intros u s s' Hs Hu H; [discriminate|].
  simpl in H. destruct (skip u s) eqn:Hskip; [inversion H; subst; exact Hs|].
  destruct (process_page W u (mark_visited u s)) as [[follow|e] s1] eqn:Hp.
  - destruct (Hstep _ _ _ _ Hs Hu Hskip Hp) as [H1 HG].
    assert (G : forall link, In link follow -> Good link)
      by (intros link; apply (HG follow link eq_refl)).
    clear Hp HG. revert s1 H1 H.
    induction follow as [|link follow IHf]; intros s1 H1 H; simpl in H.
    + inversion H; subst. exact H1.
    + destruct (scrape_page W fuel link s1) as [s2|] eqn:H2.
      * apply (IHf (fun l Hl => G l (or_intror Hl)) s2); [|exact H].
        eapply IH; [exact H1 | apply G; left; reflexivity | exact H2].
      * rewrite foldl_scrape_None in H. discriminate.
  - inversion H; subst. eapply Hstep; eassumption.
Qed.

(** ** The effects of a whole crawl *)

Lemma crawl_effects root pages ocr limit download disk :
  let s0 := init W root pages ocr limit download disk in
  exists final,
    run W s0 = Some final
    /\ same_settings s0 final
    /\ crawl_invariant final
    /\ List.NoDup (List.map url (data final))
    /\ (forall v, In v (List.map url (data final)) ->
                  In v (page_requests (events final)))
    /\ Forall (crawl_event W s0) (events final)
    /\ (forall p, touched p (events final) \/ fs final !! p = disk !! p)
    /\ Forall (fun rec => ocr_enabled s0 = false -> images rec = []) (data final).
Proof.
  intros s0.
  destruct (crawl_summary W anything (fun _ _ _ _ _ => I)
              root pages ocr limit download disk) as (final & Hrun & _).
  fold s0 in Hrun. exists final. split; [exact Hrun|].
  apply (scrape_page_invariant W
           (fun s =>
              same_settings s0 s
              /\ crawl_invariant s
              /\ List.NoDup (List.map url (data s))
              /\ (forall v, In v (List.map url (data s)) ->
                            In v (page_requests (events s)))
              /\ Forall (crawl_event W s0) (events s)
              /\ (forall p, touched p (events s) \/ fs s !! p = disk !! p)
              /\ Forall (fun rec => ocr_enabled s0 = false -> images rec = [])
                   (data s)))
    with (fuel := run_fuel s0) (u := root_url s0) (s := s0); [| |exact Hrun].
  - intros u s r s' (Hset & Hinv & Hnd & Hincl & Hev & Hfs & Himg) Hskip Hp.
    pose proof (page_step_invariant W _ _ _ _ Hinv Hskip Hp) as Hinv'.
    destruct (process_page_summary _ _ _ _ Hp)
      as (V & S & (extra & E & A & F) & D & _).
    cbn [events fs data mark_visited log with_visited] in E, F, D.
    destruct (quiet_extra _ _ _ A) as [Qp Qv].
    assert (Hset' : same_settings s0 s').
    { eapply same_settings_trans; [exact Hset|].
      eapply same_settings_trans; [|exact S]. repeat split. }
    assert (Hnew : ~ In u (List.map url (data s))).
    { intros Hin. destruct (skip_false _ _ Hskip) as [Hnot _]. apply Hnot.
      destruct Hinv as (_ & Hvis & Hdis). rewrite Hvis. unfold visited_at.
      apply elem_of_list_to_set, list_elem_of_In.
      apply disciplined_requests_visited; [exact Hdis | apply Hincl, Hin]. }
    split; [exact Hset'|]. split; [exact Hinv'|].
    assert (Preq : page_requests (events s') = u :: page_requests (events s)).
    { rewrite E, page_requests_app, Qp. reflexivity. }
    split; [|split; [|split; [|split]]].
    + destruct D as [-> | (rec & -> & Hu & _)]; [exact Hnd|].
      rewrite List.map_app. simpl. rewrite Hu. apply NoDup_snoc; assumption.
    + intros v Hv. rewrite Preq.
      destruct D as [D | (rec & D & Hu & _)]; rewrite D in Hv.
      * right. apply Hincl, Hv.
      * rewrite List.map_app in Hv. apply in_app_or in Hv as [Hv|[<-|[]]].
        -- right. apply Hincl, Hv.
        -- left. symmetry. exact Hu.
    + rewrite E. apply Forall_app. split.
      * eapply Forall_impl; [exact A|]. intros e [He | ->]; [|exact I].
        apply extraction_event_crawl_event.
        eapply extraction_event_same_settings; [|exact He].
        eapply same_settings_trans; [exact Hset | repeat split].
      * repeat constructor. exact Hev.
    + intros p. rewrite E. destruct (F p) as [T|Q].
      * left. apply touched_app_l, T.
      * destruct (Hfs p) as [T|Q0].
        -- left. apply touched_app_r.
           destruct T as [T|T]; [left | right]; right; right; exact T.
        -- right. congruence.
    + destruct D as [-> | (rec & -> & _ & Hi)]; [exact Himg|].
      apply Forall_app. split; [exact Himg|]. repeat constructor.
      intros Ho. apply Hi. destruct Hset as (_ & _ & Hocr & _).
      cbn [ocr_enabled mark_visited log with_visited]. congruence.
  - split; [apply same_settings_refl|]. split.
    { unfold crawl_invariant, cap, s0, init. cbn [visited_urls max_pages events].
      rewrite size_empty. split; [lia|]. split; [reflexivity | exact I]. }
    split; [constructor|]. split; [intros v []|]. split; [constructor|].
    split; [right; reflexivity | constructor].
Qed.

(** X11. A crawl from a new scraper records every URL at most once; every
    record is the record of a URL that was visited and requested as a
    page; and there are at most as many records as visited URLs, hence at
    most [max 0 max_pages]. *)
Theorem one_record_per_page root pages ocr limit download disk :
  exists final,
    run W (init W root pages ocr limit download disk) = Some final
    /\ List.NoDup (List.map url (data final))
    /\ (forall rec, In rec (data final) ->
          url rec ∈ visited_urls final
          /\ In (EvGet GetPage (url rec)) (events final))
    /\ (length (data final) <= size (visited_urls final))%nat
    /\ (Z.of_nat (length (data final)) <= Z.max 0 pages)%Z.
Proof.
  destruct (crawl_effects root pages ocr limit download disk)
    as (final & Hrun & Hset & (Hsize & Hvis & Hdis) & Hnd & Hincl & _).
  exists final. split; [exact Hrun|]. split; [exact Hnd|].
  assert (Hreq : forall v, In v (page_requests (events final)) ->
                           v ∈ visited_urls final).
  { intros v Hv. rewrite Hvis. unfold visited_at.
    apply elem_of_list_to_set, list_elem_of_In.
    apply disciplined_requests_visited; assumption. }
  assert (Hlen : (length (data final) <= size (visited_urls final))%nat).
  { rewrite <- (List.length_map url).
    transitivity (length (page_requests (events final))).
    - apply List.NoDup_incl_length; [exact Hnd | exact Hincl].
    - rewrite <- (size_list_to_set (C := gset str) (page_requests (events final)))
        by (apply NoDup_ListNoDup, disciplined_NoDup, Hdis).
      apply subseteq_size. intros v Hv.
      apply elem_of_list_to_set, list_elem_of_In in Hv. apply Hreq, Hv. }
  split; [|split; [exact Hlen|]].
  - intros rec Hin.
    assert (Hv : In (url rec) (page_requests (events final)))
      by (apply Hincl, List.in_map, Hin).
    split; [apply Hreq, Hv | apply In_page_requests, Hv].
  - unfold cap in Hsize. destruct Hset as (_ & Hmax & _).
    cbn [max_pages init] in Hmax. rewrite Hmax in Hsize. lia.
Qed.

Lemma crawl_event_ocr_free s0 e :
  ocr_enabled s0 = false -> crawl_event W s0 e -> ocr_free_event W e.
Proof.
  intros Ho. destruct e as [v|k v|path|path|v]; try destruct k; simpl;
    try (intros; exact I).
  - intros [[H _] | []]. congruence.
  - intros [[H _] | [_ H]]; [congruence | exact H].
  - intros [[H _] | []]. congruence.
Qed.

Lemma crawl_event_download_free s0 e :
  download_documents s0 = false -> crawl_event W s0 e -> download_free_event W e.
Proof.
  intros Hd. destruct e as [v|k v|path|path|v]; try destruct k; simpl;
    try (intros; exact I).
  - intros [[_ []] | H]. congruence.
  - intros [[_ H] | [H _]]; [exact H | congruence].
Qed.

(** X12. With OCR switched off, or with Tesseract missing, a crawl requests
    no image, removes no file and writes nothing but downloaded documents,
    and every record has an empty list of images. *)
Theorem no_ocr_no_images root pages (ocr : bool) limit download disk :
  (if ocr then tesseract_installed W else false) = false ->
  exists final,
    run W (init W root pages ocr limit download disk) = Some final
    /\ Forall (fun rec => images rec = []) (data final)
    /\ Forall (ocr_free_event W) (events final).
Proof.
  intros Hoff.
  destruct (crawl_effects root pages ocr limit download disk)
    as (final & Hrun & _ & _ & _ & _ & Hev & _ & Himg).
  exists final. split; [exact Hrun|]. split.
  - eapply Forall_impl; [exact Himg|]. intros rec H. apply H. exact Hoff.
  - eapply Forall_impl; [exact Hev|]. intros e. apply crawl_event_ocr_free, Hoff.
Qed.

(** X13. With document downloading off, a crawl makes no download request
    and writes no file but the temporary images of the OCR step. *)
Theorem no_download_when_off root pages ocr limit disk :
  exists final,
    run W (init W root pages ocr limit false disk) = Some final
    /\ Forall (download_free_event W) (events final).
Proof.
  destruct (crawl_effects root pages ocr limit false disk)
    as (final & Hrun & _ & _ & _ & _ & Hev & _).
  exists final. split; [exact Hrun|].
  eapply Forall_impl; [exact Hev|]. intros e.
  apply crawl_event_download_free. reflexivity.
Qed.

(** X14. A crawl writes temporary images and downloaded documents and
    nothing else, removes temporary images only, and leaves every file that
    it neither wrote nor removed as it was on the disk before. *)
Theorem crawl_writes_are_confined root pages ocr limit download disk :
  exists final,
    run W (init W root pages ocr limit download disk) = Some final
    /\ (forall p, In (EvWrite p) (events final) ->
          (exists u, p = temp_image_path W u) \/ is_document_path W p)
    /\ (forall p, In (EvRemove p) (events final) ->
          exists u, p = temp_image_path W u)
    /\ (forall p, touched p (events final) \/ fs final !! p = disk !! p).
Proof.
  destruct (crawl_effects root pages ocr limit download disk)
    as (final & Hrun & _ & _ & _ & _ & Hev & Hfs & _).
  exists final. split; [exact Hrun|].
  rewrite List.Forall_forall in Hev. split; [|split; [|exact Hfs]].
  - intros p Hin. destruct (Hev _ Hin) as [[_ H] | [_ H]]; [left | right]; exact H.
  - intros p Hin. destruct (Hev _ Hin) as [[_ H] | []]. exact H.
Qed.

(** X15. When [list(s)] yields elements of [s] only, every page that a
    crawl requests is the root or a URL on the root's host: the crawler
    never leaves the site. *)
Theorem crawl_stays_on_site root pages ocr limit download disk :
  list_of_set_sound W ->
  exists final,
    run W (init W root pages ocr limit download disk) = Some final
    /\ forall v, In (EvGet GetPage v) (events final) -> on_site W root v.
Proof.
  intros Hsound.
  destruct (crawl_summary W anything (fun _ _ _ _ _ => I)
              root pages ocr limit download disk) as (final & Hrun & _).
  exists final. split; [exact Hrun|].
  set (s0 := init W root pages ocr limit download disk) in *.
  assert (Inv : root_url final = root
                /\ forall v, In v (page_requests (events final)) -> on_site W root v).
  { apply (scrape_page_invariant_links
             (fun s => root_url s = root
                       /\ forall v, In v (page_requests (events s)) -> on_site W root v)
             (on_site W root))
      with (fuel := run_fuel s0) (u := root_url s0) (s := s0);
      [|split; [reflexivity | intros v []] | left; reflexivity | exact Hrun].
    intros u s r s' [Hroot Hreq] Hu _ Hp.
    destruct (process_page_summary _ _ _ _ Hp)
      as (_ & (Sroot & _) & (extra & E & A & _) & _ & Hfollow).
    cbn [root_url events mark_visited log with_visited] in Sroot, E.
    destruct (quiet_extra _ _ _ A) as [Qp _].
    split; [split; [congruence|]|].
    - intros v Hv. rewrite E, page_requests_app, Qp in Hv.
      destruct Hv as [<- | Hv]; [exact Hu | apply Hreq, Hv].
    - intros follow link Er Hin.
      destruct (Hfollow follow link Er Hin) as (doc & t & l & Ht & Hl & Hlink).
      cbn [root_url mark_visited log with_visited] in Ht.
      apply Hsound in Hlink.
      change (internal l) with (bucket_of BInternal l) in Hlink.
      apply (elem_of_extract_links W t u _ l link BInternal Hl) in Hlink
        as (href & _ & Hc).
      apply classify_inv in Hc as (_ & valid & Hv & Hb).
      assert (valid = true).
      { destruct valid; [reflexivity|]. exfalso.
        assert (B : branch W false href = BExternal)
          by (apply branch_external_iff; reflexivity).
        congruence. }
      subst valid. unfold is_valid_url in Hv.
      destruct (netloc W link) as [n|e1] eqn:Hn; [|discriminate Hv].
      destruct (truthy n) eqn:Tn; [|discriminate Hv].
      destruct (netloc W (root_url t)) as [rt|e2] eqn:Hrt; [|discriminate Hv].
      assert (Heq : n = rt).
      { destruct (decide (n = rt)) as [Heq|Hne]; [exact Heq|]. exfalso.
        unfold str_eqb in Hv. rewrite bool_decide_eq_false_2 in Hv by exact Hne.
        discriminate Hv. }
      subst rt. right. exists n. split; [exact Hn|]. split; [exact Tn|].
      rewrite <- Hroot, <- Ht. exact Hrt. }
  intros v Hv. apply Inv, In_page_requests, Hv.
Qed.

(** X16. A page request that raises, that is answered with an error status,
    or whose content is not HTML leaves the URL visited and unrecorded:
    [scrape_page] adds the URL to the visited set, makes that one request,
    appends no record and follows no link. *)
Theorem page_without_html_is_visited_only fuel u s :
  skip u s = false ->
  no_page W (EvVisit u :: events s) u ->
  scrape_page W (S fuel) u s = Some (log (EvGet GetPage u) (mark_visited u s)).
Proof.
  intros Hskip Hno. simpl. rewrite Hskip.
  destruct (process_page W u (mark_visited u s)) as [r s'] eqn:Hp.
  apply process_page_cases in Hp.
  cbn [events mark_visited log with_visited] in Hp. unfold no_page in Hno.
  destruct (session_get W (EvVisit u :: events s) GetPage u) as [resp|e].
  - destruct (status_ok resp); cbn [negb] in Hp.
    + destruct Hno as [Hno|Hno]; [discriminate|]. rewrite Hno in Hp.
      cbn [negb] in Hp. destruct Hp as [-> ->]. reflexivity.
    + destruct Hp as [-> ->]. reflexivity.
  - destruct Hp as [-> ->]. reflexivity.
Qed.

(** X17. A page with an OpenGraph tag that has no content is lost: the
    [KeyError] of [extract_metadata] is caught by [scrape_page], which
    appends no record for the page and follows none of its links, although
    the URL is visited and the page was requested. *)
Theorem page_with_broken_og_is_dropped fuel u s resp e :
  skip u s = false ->
  session_get W (EvVisit u :: events s) GetPage u = Ok resp ->
  status_ok resp = true ->
  is_html resp = true ->
  extract_metadata (page_doc W resp) = Err e ->
  exists s',
    scrape_page W (S fuel) u s = Some s'
    /\ data s' = data s
    /\ visited_urls s' = {[u]} ∪ visited_urls s
    /\ page_requests (events s') = u :: page_requests (events s).
Proof.
  intros Hskip Hget Hok Hhtml Hmeta. simpl. rewrite Hskip.
  destruct (process_page W u (mark_visited u s)) as [r s'] eqn:Hp.
  pose proof (process_page_summary _ _ _ _ Hp)
    as (V & _ & (extra & E & A & _) & _ & _).
  apply process_page_cases in Hp.
  cbn [events mark_visited log with_visited] in Hp.
  rewrite Hget, Hok, Hhtml in Hp. cbn [negb] in Hp.
  destruct Hp as (ro & s1 & Hocr & Hp).
  assert (R : exists e', r = Err e' /\ s' = s1).
  { destruct ro as [imgs|e']; [rewrite Hmeta in Hp|];
      destruct Hp as [-> ->]; eauto. }
  destruct R as (e' & -> & ->).
  exists s1. split; [reflexivity|].
  assert (S0 : same_settings (mark_visited u s)
                 (log (EvGet GetPage u) (mark_visited u s))) by (repeat split).
  destruct (ocr_step_moves _ _ _ _ _ _ S0 Hocr) as [(_ & D1 & _) _].
  cbn [data visited_urls events mark_visited log with_visited] in D1, V, E.
  split; [exact D1|]. split; [exact V|].
  destruct (quiet_extra _ _ _ A) as [Qp _].
  rewrite E, page_requests_app, Qp. reflexivity.
Qed.

(** A crawl with a page cap of zero or less does nothing: no request,
    no visit, the scraper is returned as it was created. *)
Theorem crawl_without_room_does_nothing root pages ocr limit download disk :
  (pages <= 0)%Z ->
  run W (init W root pages ocr limit download disk)
  = Some (init W root pages ocr limit download disk).
Proof.
  intros H. unfold run, run_fuel. apply scrape_page_skips. unfold skip.
  apply orb_true_iff. right. cbn [visited_urls max_pages init].
  rewrite size_empty. rewrite Z.geb_leb. apply Z.leb_le. lia.
Qed.

(** X18. When the OCR call returns, with a text or with none, the temporary
    image is removed before [extract_text_from_image] returns: the file is
    not on disk afterwards, and the value is the normalized text, or the
    placeholder when the text is blank. *)
Theorem temp_image_removed_after_ocr u s r n text :
  ocr_enabled s = true ->
  session_get W (events s) GetImage u = Ok r ->
  status_ok r = true ->
  declared_length W r = Some n ->
  (n <= max_file_size s)%Z ->
  contains (py "image") (default [] (content_type r)) = true ->
  open_wb W (temp_image_path W u) = true ->
  body_complete r = true ->
  image_to_string W (body r) = Ok text ->
  exists s',
    extract_text_from_image W u s
    = (Ok (if truthy (strip text) then clean_text (is_word W) text else OCR_EMPTY), s')
    /\ fs s' !! temp_image_path W u = None.
Proof. apply ocr_result_removes_temp_image. Qed.

(** ** The budget of requests *)

Lemma count_app c l1 l2 :
  count c (l1 ++ l2) = (count c l1 + count c l2)%nat.
Proof. unfold count. rewrite List.filter_app, length_app. reflexivity. Qed.

Lemma count_none c (E : event -> Prop) l :
  (forall e, E e -> c e = false) -> Forall E l -> count c l = 0%nat.
Proof.
  intros HE H. unfold count.
  induction H as [|e l He Hl IH]; [reflexivity|].
  simpl. rewrite (HE e He). exact IH.
Qed.

(** A method that leaves the history alone counts nothing. *)
Lemma spends_still {A} c n (m : M A) :
  (forall s, events (snd (m s)) = events s) -> spends c n m.
Proof.
  intros H s r s' E. exists []. split; [|unfold count; simpl; lia].
  specialize (H s). rewrite E in H. exact H.
Qed.

Lemma spends_weaken {A} c n n' (m : M A) :
  (n <= n')%nat -> spends c n m -> spends c n' m.
Proof.
  intros Hle H s r s' E. destruct (H _ _ _ E) as (x & Ex & Cx).
  exists x. split; [exact Ex | lia].
Qed.

Lemma spends_bind {A B} c n1 n2 (m : M A) (k : A -> M B) :
  spends c n1 m -> (forall a, spends c n2 (k a)) ->
  spends c (n1 + n2) (bind m k).
Proof.
  intros Hm Hk s r s' H. unfold bind in H.
  destruct (m s) as [[a|e] s1] eqn:E.
  - destruct (Hm _ _ _ E) as (x1 & E1 & C1).
    destruct (Hk a _ _ _ H) as (x2 & E2 & C2).
    exists (x2 ++ x1). split; [rewrite E2, E1; apply app_assoc|].
    rewrite count_app. lia.
  - inversion H; subst. destruct (Hm _ _ _ E) as (x1 & E1 & C1).
    exists x1. split; [exact E1 | lia].
Qed.

Lemma spends_try {A} c n1 n2 (body : M A) handler :
  spends c n1 body -> (forall e, spends c n2 (handler e)) ->
  spends c (n1 + n2) (try_except body handler).
Proof.
  intros Hb Hh s r s' H. unfold try_except in H.
  destruct (body s) as [[a|e] s1] eqn:E.
  - inversion H; subst. destruct (Hb _ _ _ E) as (x1 & E1 & C1).
    exists x1. split; [exact E1 | lia].
  - destruct (Hb _ _ _ E) as (x1 & E1 & C1).
    destruct (Hh e _ _ _ H) as (x2 & E2 & C2).
    exists (x2 ++ x1). split; [rewrite E2, E1; apply app_assoc|].
    rewrite count_app. lia.
Qed.

Lemma spends_get c k u :
  spends c (if c (EvGet k u) then 1 else 0)%nat (get W k u).
Proof.
  intros s r s' H. inversion H; subst. exists [EvGet k u].
  split; [reflexivity|]. unfold count. simpl.
  destruct (c (EvGet k u)); simpl; lia.
Qed.

Lemma spends_raise_for_status c n r : spends c n (raise_for_status r).
Proof.
  apply spends_still. intros s. unfold raise_for_status.
  destruct (status_ok r); reflexivity.
Qed.

Lemma spends_content_length_int c n r : spends c n (content_length_int W r).
Proof.
  apply spends_still. intros s. unfold content_length_int.
  destruct (content_length r) as [v|]; [|reflexivity].
  destruct (int_of_str W v); reflexivity.
Qed.

Lemma spends_ocr_file c n path : spends c n (ocr_file W path).
Proof.
  apply spends_still. intros s. unfold ocr_file.
  destruct (fs s !! path); reflexivity.
Qed.

(** Counting the requests of documents: the counter [c] sees no page
    request, no image request and no file operation, and of the two requests
    of a document it sees one at most. *)
Section Spending.

Variable c : event -> bool.

Hypothesis c_page : forall u, c (EvGet GetPage u) = false.
Hypothesis c_image : forall u, c (EvGet GetImage u) = false.
Hypothesis c_write : forall p, c (EvWrite p) = false.
Hypothesis c_remove : forall p, c (EvRemove p) = false.
Hypothesis c_append : forall u, c (EvAppend u) = false.
Hypothesis c_document :
  forall u, ((if c (EvGet GetPdf u) then 1 else 0)
             + (if c (EvGet GetDownload u) then 1 else 0) <= 1)%nat.

Lemma spends_write_body n path r : spends c n (write_body W path r).
Proof.
  intros s x s' H. unfold write_body in H. destruct (open_wb W path).
  - unfold bind, modify in H. exists [EvWrite path].
    split; [destruct (body_complete r); inversion H; reflexivity|].
    unfold count. simpl. rewrite c_write. simpl. lia.
  - inversion H; subst. exists []. split; [reflexivity | unfold count; simpl; lia].
Qed.

Lemma spends_os_remove n path : spends c n (os_remove path).
Proof.
  intros s x s' H. unfold os_remove in H. destruct (fs s !! path).
  - inversion H; subst. exists [EvRemove path]. split; [reflexivity|].
    unfold count. simpl. rewrite c_remove. simpl. lia.
  - inversion H; subst. exists []. split; [reflexivity | unfold count; simpl; lia].
Qed.

(** [download_file] makes one request. *)
Lemma spends_download_file u t :
  spends c (if c (EvGet GetDownload u) then 1 else 0)%nat (download_file W u t).
Proof.
  unfold download_file.
  match goal with
  | |- spends _ ?n _ => apply (spends_weaken c (n + 0)%nat); [lia|]
  end.
  apply spends_try; [|intros e; apply spends_still; reflexivity].
  match goal with
  | |- spends _ ?n _ => apply (spends_weaken c (n + 0)%nat); [lia|]
  end.
  apply spends_bind; [apply spends_get|]. intros response.
  apply (spends_bind c 0 0); [apply spends_raise_for_status|]. intros _.
  apply (spends_bind c 0 0); [apply spends_still; reflexivity|]. intros visited.
  apply (spends_bind c 0 0); [apply spends_write_body|]. intros _.
  apply spends_still. reflexivity.
Qed.

(** [extract_text_from_image] makes no request of a document. *)
Lemma spends_extract_text_from_image u :
  spends c 0 (extract_text_from_image W u).
Proof.
  unfold extract_text_from_image.
  apply (spends_bind c 0 0); [apply spends_still; reflexivity|]. intros enabled.
  destruct (negb enabled); [apply spends_still; reflexivity|].
  apply (spends_try c 0 0); [|intros e; apply spends_still; reflexivity].
  apply (spends_bind c 0 0).
  { eapply spends_weaken; [|apply spends_get]. rewrite c_image. lia. }
  intros response.
  apply (spends_bind c 0 0); [apply spends_raise_for_status|]. intros _.
  apply (spends_bind c 0 0); [apply spends_content_length_int|]. intros len.
  apply (spends_bind c 0 0); [apply spends_still; reflexivity|]. intros limit.
  destruct (len >? limit)%Z; [apply spends_still; reflexivity|].
  match goal with |- spends _ _ (if ?b then _ else _) => destruct b end;
    [apply spends_still; reflexivity|].
  apply (spends_bind c 0 0); [apply spends_write_body|]. intros _.
  apply (spends_bind c 0 0); [apply spends_ocr_file|]. intros text.
  apply (spends_bind c 0 0); [apply spends_os_remove|]. intros _.
  apply spends_still. reflexivity.
Qed.

Lemma spends_ocr_images u imgs : spends c 0 (ocr_images W u imgs).
Proof.
  induction imgs as [|img rest IH]; simpl; [apply spends_still; reflexivity|].
  apply (spends_bind c 0 0); [apply spends_still; reflexivity|]. intros img_url.
  match goal with |- spends _ _ (if ?b then _ else _) => destruct b end;
    [|exact IH].
  apply (spends_bind c 0 0); [apply spends_extract_text_from_image|].
  intros ocr_text.
  apply (spends_bind c 0 0); [exact IH|]. intros more.
  apply spends_still. reflexivity.
Qed.

(** [extract_from_pdf] requests the document and, with document downloading
    on, downloads it: of the two requests the counter sees one at most. *)
Lemma spends_extract_from_pdf u : spends c 1 (extract_from_pdf W u).
Proof.
  eapply spends_weaken; [apply (c_document u)|].
  unfold extract_from_pdf.
  match goal with
  | |- spends _ ?n _ => apply (spends_weaken c (n + 0)%nat); [lia|]
  end.
  apply spends_try; [|intros e; apply spends_still; reflexivity].
  apply spends_bind; [apply spends_get|]. intros response.
  match goal with
  | |- spends _ ?n _ => apply (spends_weaken c (0 + n)%nat); [lia|]
  end.
  apply spends_bind; [apply spends_content_length_int|]. intros len.
  match goal with
  | |- spends _ ?n _ => apply (spends_weaken c (0 + n)%nat); [lia|]
  end.
  apply spends_bind; [apply spends_still; reflexivity|]. intros limit.
  destruct (len >? limit)%Z; [apply spends_still; reflexivity|].
  match goal with
  | |- spends _ ?n _ => apply (spends_weaken c (0 + n)%nat); [lia|]
  end.
  apply spends_bind; [apply spends_still; reflexivity|]. intros download.
  match goal with
  | |- spends _ ?n _ => apply (spends_weaken c (n + 0)%nat); [lia|]
  end.
  apply spends_bind.
  { destruct download; [apply spends_download_file | apply spends_still; reflexivity]. }
  intros local_path.
  apply (spends_bind c 0 0).
  { destruct (body_complete response); apply spends_still; reflexivity. }
  intros _.
  destruct (name_bound "pdf_extract_text"); [|apply spends_still; reflexivity].
  destruct (pdf_text_capability W (body response)); apply spends_still; reflexivity.
Qed.

Lemma spends_pdf_contents urls :
  spends c (length urls) (pdf_contents (extract_from_pdf W) urls).
Proof.
  induction urls as [|u rest IH]; simpl; [apply spends_still; reflexivity|].
  apply (spends_bind c 1 (length rest)); [apply spends_extract_from_pdf|].
  intros result.
  match goal with
  | |- spends _ ?n _ => apply (spends_weaken c (n + 0)%nat); [lia|]
  end.
  apply spends_bind; [exact IH|]. intros more.
  apply spends_still. reflexivity.
Qed.

(** One page: three requests of documents at most. *)
Lemma spends_process_page u : spends c 3 (process_page W u).
Proof.
  unfold process_page.
  apply (spends_bind c 0 3).
  { eapply spends_weaken; [|apply spends_get]. rewrite c_page. lia. }
  intros response.
  apply (spends_bind c 0 3); [apply spends_raise_for_status|]. intros _.
  match goal with |- spends _ _ (if ?b then _ else _) => destruct b end;
    [apply spends_still; reflexivity|].
  apply (spends_bind c 0 3); [apply spends_still; reflexivity|]. intros enabled.
  apply (spends_bind c 0 3).
  { destruct enabled; [apply spends_ocr_images | apply spends_still; reflexivity]. }
  intros img_texts.
  apply (spends_bind c 0 3).
  { match goal with |- spends _ _ (match ?x with _ => _ end) => destruct x end;
      apply spends_still; reflexivity. }
  intros metadata.
  apply (spends_bind c 0 3); [apply spends_still; reflexivity|]. intros links.
  apply (spends_bind c 3 0).
  { eapply spends_weaken; [|apply spends_pdf_contents].
    rewrite length_take. lia. }
  intros files_content.
  apply (spends_bind c 0 0); [|intros _; apply spends_still; reflexivity].
  intros s r s' H. inversion H; subst. exists [EvAppend u].
  split; [reflexivity|]. unfold count. simpl. rewrite c_append. simpl. lia.
Qed.

End Spending.

(** One page: at most three PDF requests and three downloads, and no
    further page request. *)
Lemma process_page_requests u s r s' :
  process_page W u s = (r, s') ->
  exists extra,
    events s' = extra ++ EvGet GetPage u :: events s
    /\ (pdf_requests extra <= 3)%nat
    /\ (download_requests extra <= 3)%nat
    /\ page_requests extra = []
    /\ visits extra = [].
Proof.
  intros H.
  pose proof (process_page_summary _ _ _ _ H) as (_ & _ & (x & Ex & Ax & _) & _).
  destruct (quiet_extra _ _ _ Ax) as [Qp Qv].
  exists x. split; [exact Ex|].
  assert (B : forall c,
             c (EvGet GetPage u) = false ->
             spends c 3 (process_page W u) -> (count c x <= 3)%nat).
  { intros c Hc Hs. destruct (Hs _ _ _ H) as (y & Ey & Cy).
    assert (y = x ++ [EvGet GetPage u]).
    { rewrite Ey in Ex.
      change (x ++ EvGet GetPage u :: events s)
        with (x ++ [EvGet GetPage u] ++ events s) in Ex.
      rewrite app_assoc in Ex. apply app_inv_tail in Ex. exact Ex. }
    subst y. rewrite count_app in Cy. lia. }
  split; [|split; [|split; [exact Qp | exact Qv]]].
  - apply (B is_pdf_request); [reflexivity|].
    apply spends_process_page; intros; reflexivity.
  - apply (B is_download_request); [reflexivity|].
    apply spends_process_page; intros; reflexivity.
Qed.

(** X21. A crawl requests exactly the pages it visits, each once: the page
    requests of its history are its visits, their number is the size of the
    visited set, and so a crawl makes at most [max 0 max_pages] page
    requests. *)
Theorem page_request_budget root pages ocr limit download disk :
  exists final,
    run W (init W root pages ocr limit download disk) = Some final
    /\ visits (events final) = page_requests (events final)
    /\ length (page_requests (events final)) = size (visited_urls final)
    /\ (Z.of_nat (length (page_requests (events final))) <= Z.max 0 pages)%Z.
Proof.
  destruct (crawl_effects root pages ocr limit download disk)
    as (final & Hrun & Hset & (Hsize & Hvis & Hdis) & _).
  exists final. split; [exact Hrun|].
  assert (Heq : visits (events final) = page_requests (events final)).
  { apply (scrape_page_invariant W
             (fun s => visits (events s) = page_requests (events s)))
      with (fuel := run_fuel (init W root pages ocr limit download disk))
           (u := root_url (init W root pages ocr limit download disk))
           (s := init W root pages ocr limit download disk);
      [|reflexivity|exact Hrun].
    intros u s r s' Hs _ Hp.
    destruct (process_page_requests _ _ _ _ Hp) as (x & E & _ & _ & Qp & Qv).
    cbn [events mark_visited log with_visited] in E.
    rewrite E, visits_app, page_requests_app, Qp, Qv. simpl. rewrite Hs.
    reflexivity. }
  assert (Hlen : length (page_requests (events final)) = size (visited_urls final)).
  { rewrite Hvis. unfold visited_at. rewrite Heq.
    symmetry. apply size_list_to_set, NoDup_ListNoDup, disciplined_NoDup, Hdis. }
  split; [exact Heq|]. split; [exact Hlen|].
  rewrite Hlen. unfold cap in Hsize. destruct Hset as (_ & Hmax & _).
  cbn [max_pages init] in Hmax. rewrite Hmax in Hsize. lia.
Qed.

Lemma download_free_not_download e :
  download_free_event W e -> is_download_request e = false.
Proof.
  destruct e as [v|k v|path|path|v]; try destruct k; simpl; intros H;
    try reflexivity; contradiction.
Qed.

(** X22. For each page it requests, a crawl makes at most three requests
    of PDF documents by [extract_from_pdf] and at most three downloads by
    [download_file], six requests of documents at most; with document
    downloading off it makes no download. *)
Theorem pdf_request_budget root pages ocr limit download disk :
  exists final,
    run W (init W root pages ocr limit download disk) = Some final
    /\ (pdf_requests (events final)
        <= 3 * length (page_requests (events final)))%nat
    /\ (download_requests (events final)
        <= 3 * length (page_requests (events final)))%nat
    /\ (pdf_requests (events final) + download_requests (events final)
        <= 6 * length (page_requests (events final)))%nat
    /\ (download = false -> download_requests (events final) = 0%nat).
Proof.
  destruct (crawl_effects root pages ocr limit download disk)
    as (final & Hrun & _ & _ & _ & _ & Hev & _).
  exists final. split; [exact Hrun|].
  assert (B : (pdf_requests (events final)
               <= 3 * length (page_requests (events final)))%nat
              /\ (download_requests (events final)
                  <= 3 * length (page_requests (events final)))%nat).
  { apply (scrape_page_invariant W
             (fun s => (pdf_requests (events s)
                        <= 3 * length (page_requests (events s)))%nat
                       /\ (download_requests (events s)
                           <= 3 * length (page_requests (events s)))%nat))
      with (fuel := run_fuel (init W root pages ocr limit download disk))
           (u := root_url (init W root pages ocr limit download disk))
           (s := init W root pages ocr limit download disk);
      [|split; exact (le_n 0)|exact Hrun].
    intros u s r s' [Hs1 Hs2] _ Hp.
    destruct (process_page_requests _ _ _ _ Hp) as (x & E & N1 & N2 & Qp & _).
    cbn [events mark_visited log with_visited] in E.
    rewrite E, page_requests_app, Qp.
    change pdf_requests with (count is_pdf_request) in *.
    change download_requests with (count is_download_request) in *.
    rewrite !count_app.
    change (count is_pdf_request (EvGet GetPage u :: EvVisit u :: events s))
      with (count is_pdf_request (events s)).
    change (count is_download_request (EvGet GetPage u :: EvVisit u :: events s))
      with (count is_download_request (events s)).
    simpl length. lia. }
  destruct B as [B1 B2]. split; [exact B1|]. split; [exact B2|]. split; [lia|].
  intros ->. apply (count_none is_download_request (download_free_event W)).
  - apply download_free_not_download.
  - eapply Forall_impl; [exact Hev|]. intros e.
    apply crawl_event_download_free. reflexivity.
Qed.



End MethodFacts.

(** * Properties of the flattened results *)

Section FlattenFacts.

Lemma startswith_app p b : startswith (p ++ b) p = true.
Proof.
  induction p as [|c p IH]; simpl; [destruct b; reflexivity|].
  rewrite N.eqb_refl. exact IH.
Qed.

Lemma startswith_app_r s p b : startswith s p = true -> startswith (s ++ b) p = true.
Proof.
  revert s. induction p as [|c p IH]; intros s H;
    [destruct s, b; reflexivity|].
  destruct s as [|d s]; simpl in *; [discriminate|].
  apply andb_true_iff in H as [H1 H2]. rewrite H1. simpl. apply IH, H2.
Qed.

Lemma contains_app_r p s b : contains p s = true -> contains p (s ++ b) = true.
Proof.
  induction s as [|c s IH]; simpl; intros H.
  - rewrite orb_false_r in H. destruct p; [|discriminate].
    destruct b; reflexivity.
  - apply orb_true_iff in H as [H|H].
    + apply orb_true_iff. left. apply (startswith_app_r (c :: s)), H.
    + apply orb_true_iff. right. apply IH, H.
Qed.

Lemma contains_app_l p a s : contains p s = true -> contains p (a ++ s) = true.
Proof.
  intros H. induction a as [|c a IH]; simpl; [exact H|].
  apply orb_true_iff. right. exact IH.
Qed.

Lemma contains_self p b : contains p (p ++ b) = true.
Proof.
  destruct p as [|c p]; [destruct b; reflexivity|].
  change (contains (c :: p) ((c :: p) ++ b))
    with (startswith ((c :: p) ++ b) (c :: p)
          || contains (c :: p) (p ++ b)).
  rewrite startswith_app. reflexivity.
Qed.

Lemma contains_refl p : contains p p = true.
Proof. rewrite <- (app_nil_r p) at 2. apply contains_self. Qed.

(** A part of a text is contained in it. *)
Lemma contains_part p a b : contains p (a ++ p ++ b) = true.
Proof. apply contains_app_l, contains_self. Qed.

Lemma contains_concat p (parts : list str) part :
  In part parts -> contains p part = true -> contains p (concat parts) = true.
Proof.
  induction parts as [|q parts IH]; intros Hin H; [contradiction|].
  simpl. destruct Hin as [->|Hin].
  - apply contains_app_r, H.
  - apply contains_app_l, IH; assumption.
Qed.

Lemma contains_page_block p records rec :
  In rec records -> contains p (page_block rec) = true ->
  contains p (full_data_text records) = true.
Proof.
  intros Hin H. unfold full_data_text.
  eapply contains_concat; [apply List.in_map, Hin | exact H].
Qed.

(** X19. The flattened file loses nothing of a record: for every record
    it holds the line of its URL, its main text under the text label, the
    OCR text of each of its images, and the content of each of its
    files. *)
Theorem flattened_text_holds_every_record records rec :
  In rec records ->
  contains (URL_LABEL ++ url rec ++ [NEWLINE]) (full_data_text records) = true
  /\ contains (MAIN_TEXT_LABEL ++ text rec ++ [NEWLINE]) (full_data_text records) = true
  /\ Forall (fun img =>
               contains (OCR_LABEL ++ ocr_text img ++ [NEWLINE])
                 (full_data_text records) = true) (images rec)
  /\ Forall (fun f =>
               contains (FILE_LABEL ++ file_url f ++ [NEWLINE] ++ content f ++ [NEWLINE])
                 (full_data_text records) = true) (files_content rec).
Proof.
  intros Hin. split; [|split; [|split]].
  - apply (contains_page_block _ _ rec Hin). unfold page_block, page_header.
    replace (([NEWLINE] ++ RULE ++ [NEWLINE] ++ URL_LABEL ++ url rec ++ [NEWLINE]
              ++ RULE ++ [NEWLINE; NEWLINE]) ++ title_line rec ++ MAIN_TEXT_LABEL
             ++ text rec ++ [NEWLINE] ++ images_block rec ++ files_block rec)
      with (([NEWLINE] ++ RULE ++ [NEWLINE])
            ++ (URL_LABEL ++ url rec ++ [NEWLINE])
            ++ (RULE ++ [NEWLINE; NEWLINE]) ++ title_line rec ++ MAIN_TEXT_LABEL
            ++ text rec ++ [NEWLINE] ++ images_block rec ++ files_block rec)
      by (rewrite <- !app_assoc; reflexivity).
    apply contains_part.
  - apply (contains_page_block _ _ rec Hin). unfold page_block.
    replace (page_header rec ++ title_line rec ++ MAIN_TEXT_LABEL ++ text rec
             ++ [NEWLINE] ++ images_block rec ++ files_block rec)
      with ((page_header rec ++ title_line rec)
            ++ (MAIN_TEXT_LABEL ++ text rec ++ [NEWLINE])
            ++ images_block rec ++ files_block rec)
      by (rewrite <- !app_assoc; reflexivity).
    apply contains_part.
  - apply List.Forall_forall. intros img Himg.
    apply (contains_page_block _ _ rec Hin). unfold page_block.
    do 5 apply contains_app_l. apply contains_app_r.
    unfold images_block. destruct (images rec) as [|i0 is0] eqn:E; [contradiction|].
    apply contains_app_l.
    eapply contains_concat; [apply List.in_map, Himg|].
    unfold image_block.
    replace (IMAGE_LABEL ++ img_url img ++ [NEWLINE]
             ++ (if truthy (alt_text img)
                 then ALT_LABEL ++ alt_text img ++ [NEWLINE] else [])
             ++ OCR_LABEL ++ ocr_text img ++ [NEWLINE])
      with ((IMAGE_LABEL ++ img_url img ++ [NEWLINE]
             ++ (if truthy (alt_text img)
                 then ALT_LABEL ++ alt_text img ++ [NEWLINE] else []))
            ++ (OCR_LABEL ++ ocr_text img ++ [NEWLINE]) ++ [])
      by (rewrite app_nil_r, <- !app_assoc; reflexivity).
    apply contains_part.
  - apply List.Forall_forall. intros f Hf.
    apply (contains_page_block _ _ rec Hin). unfold page_block.
    do 6 apply contains_app_l.
    unfold files_block. destruct (files_content rec) as [|f0 fs0] eqn:E;
      [contradiction|].
    apply contains_app_l.
    eapply contains_concat; [apply List.in_map, Hf|].
    unfold file_block. apply contains_refl.
Qed.

End FlattenFacts.

(** * Further properties of the answer engine *)

Section AnswerShape.

Variable completion : nat -> str -> result (option str).

Lemma strip_ends s :
  starts_with_space (strip s) = false /\ ends_with_space (strip s) = false.
Proof.
  unfold strip. split; [apply rstrip_head, lstrip_head | apply rstrip_end].
Qed.

(** X20. [answer_questions] returns as many pairs as there are questions,
    and an answer, when there is one, neither starts nor ends with
    whitespace; the answer is missing exactly for the questions whose
    request raised or came back without content. *)
Theorem answers_are_stripped n summary questions :
  length (answer_questions completion n summary questions) = length questions
  /\ Forall (fun qa =>
               match snd qa with
               | Some a => starts_with_space a = false /\ ends_with_space a = false
               | None => True
               end) (answer_questions completion n summary questions)
  /\ (forall i q,
        questions !! i = Some q ->
        (answer_questions completion n summary questions !! i = Some (q, None)
         <-> forall c, completion (n + i)%nat (USER_PREFIX ++ prompt_for summary q)
                       <> Ok (Some c))).
Proof.
  split; [|split].
  - rewrite <- (answer_questions_questions completion n summary questions) at 2.
    rewrite List.length_map. reflexivity.
  - revert n. induction questions as [|q qs IH]; intros n; simpl; constructor;
      [|apply IH].
    simpl. unfold call_llm.
    destruct (completion n (USER_PREFIX ++ prompt_for summary q)) as [[c|]|e];
      try exact I.
    apply strip_ends.
  - intros i q Hq. rewrite (answer_questions_lookup completion _ _ _ _ _ Hq).
    unfold call_llm.
    destruct (completion (n + i)%nat (USER_PREFIX ++ prompt_for summary q))
      as [[c|]|e].
    + split; [intros H; inversion H | intros H; exfalso; apply (H c); reflexivity].
    + split; [intros _ c; discriminate | reflexivity].
    + split; [intros _ c; discriminate | reflexivity].
Qed.

End AnswerShape.

(** * The further properties on the examples *)

Example og_page_is_read : extract_metadata og_page = Ok og_page_metadata.
Proof. vm_compute. reflexivity. Qed.

Example broken_og_page_raises : extract_metadata broken_og_page = Err KeyError.
Proof. vm_compute. reflexivity. Qed.

Lemma og_last_tag_wins_witness :
  og og_page_metadata !! py "og:title" = last_content (py "og:title") (og_metas og_page)
  /\ last_content (py "og:title") (og_metas og_page) = Some (py "Second").
Proof.
  split; [|vm_compute; reflexivity].
  apply (og_last_tag_wins og_page og_page_metadata (py "og:title")).
  vm_compute. reflexivity.
Defined.

Lemma truncated_length_witness :
  truncated (py "short") = py "short"
  /\ Z.of_nat (length (truncated long_text)) = 10003%Z.
Proof.
  destruct (truncated_length (py "short")) as (_ & Hshort & _).
  destruct (truncated_length long_text) as (_ & _ & Hlong).
  split.
  - apply Hshort. vm_compute. discriminate.
  - apply Hlong. vm_compute. reflexivity.
Defined.

Lemma external_bucket_is_off_site_witness :
  exists l,
    extract_links_from offline_world (example_scraper 20)
      [py "/about"; py "https://other.example/x"] docs_index = Ok l
    /\ is_valid_url offline_world (example_scraper 20) (py "http://example.com/about")
       = Ok true
    /\ (py "http://example.com/about" ∉ external l)
    /\ py "https://other.example/x" ∈ external l.
Proof.
  destruct (extract_links_from offline_world (example_scraper 20)
              [py "/about"; py "https://other.example/x"] docs_index)
    as [l|e] eqn:Hl; [|vm_compute in Hl; discriminate Hl].
  exists l. split; [reflexivity|].
  destruct (external_bucket_is_off_site offline_world (example_scraper 20) docs_index
              [py "/about"; py "https://other.example/x"] l
              (py "http://example.com/about") Hl) as [_ H].
  destruct (external_bucket_is_off_site offline_world (example_scraper 20) docs_index
              [py "/about"; py "https://other.example/x"] l
              (py "https://other.example/x") Hl) as [H' _].
  assert (Hin : py "http://example.com/about" ∈ bucket_of BInternal l).
  { apply (elem_of_extract_links offline_world _ _ _ l _ BInternal Hl).
    exists (py "/about"). split; [left; reflexivity | vm_compute; reflexivity]. }
  destruct (H BInternal ltac:(discriminate) Hin) as [H1 H2].
  split; [exact H1|]. split; [exact H2|].
  apply H'. split; [|vm_compute; reflexivity].
  exists (py "https://other.example/x").
  split; [right; left; reflexivity | vm_compute; reflexivity].
Defined.

Lemma download_file_path_holds_body_witness :
  exists r,
    session_get site_world (events (site_scraper 20)) GetDownload pdf_url = Ok r
    /\ status_ok r = true
    /\ body_complete r = true
    /\ py "downloaded_documents/document_0_pdf.pdf" = document_path site_world (site_scraper 20)
    /\ fs (log (EvWrite (py "downloaded_documents/document_0_pdf.pdf"))
             (with_fs (<[py "downloaded_documents/document_0_pdf.pdf" := pdf_bytes]> ∅)
                (log (EvGet GetDownload pdf_url) (site_scraper 20))))
         !! py "downloaded_documents/document_0_pdf.pdf" = Some (body r).
Proof.
  apply (download_file_path_holds_body site_world pdf_url (site_scraper 20)).
  vm_compute. reflexivity.
Defined.

Lemma no_ocr_no_images_witness :
  exists final,
    run site_world (init site_world home_url 20 false 10485760 true ∅) = Some final
    /\ Forall (fun rec => images rec = []) (data final)
    /\ Forall (ocr_free_event site_world) (events final).
Proof.
  apply (no_ocr_no_images site_world home_url 20 false 10485760 true ∅).
  reflexivity.
Defined.

Lemma crawl_stays_on_site_witness :
  exists final,
    run site_world (site_scraper 20) = Some final
    /\ forall v, In (EvGet GetPage v) (events final) -> on_site site_world home_url v.
Proof.
  apply (crawl_stays_on_site site_world home_url 20 true 10485760 true ∅).
  intros X u H. apply list_elem_of_In in H. apply elem_of_elements in H. exact H.
Defined.

Lemma page_without_html_is_visited_only_witness :
  scrape_page offline_world 1 home_url (example_scraper 20)
  = Some (log (EvGet GetPage home_url) (mark_visited home_url (example_scraper 20))).
Proof.
  apply (page_without_html_is_visited_only offline_world 0 home_url (example_scraper 20)).
  - vm_compute. reflexivity.
  - vm_compute. exact I.
Defined.

Lemma page_with_broken_og_is_dropped_witness :
  exists s',
    scrape_page broken_world 1 home_url broken_scraper = Some s'
    /\ data s' = data broken_scraper
    /\ visited_urls s' = {[home_url]} ∪ visited_urls broken_scraper
    /\ page_requests (events s') = home_url :: page_requests (events broken_scraper).
Proof.
  apply (page_with_broken_og_is_dropped broken_world 0 home_url broken_scraper
           (html_response (py "broken")) KeyError);
    vm_compute; reflexivity.
Defined.

Lemma crawl_without_room_does_nothing_witness :
  run site_world (site_scraper 0) = Some (site_scraper 0).
Proof.
  apply (crawl_without_room_does_nothing site_world home_url 0 true 10485760 true ∅).
  lia.
Defined.

Lemma temp_image_removed_after_ocr_witness :
  exists s',
    extract_text_from_image reading_world logo_url reading_scraper
    = (Ok (py "Example Ltd."), s')
    /\ fs s' !! py "temp_images/logo.png" = None.
Proof.
  exact (temp_image_removed_after_ocr reading_world logo_url reading_scraper
           (file_response (py "image/png") logo_bytes) 0%Z (py " Example  Ltd. ")
           eq_refl eq_refl eq_refl eq_refl ltac:(vm_compute; discriminate)
           eq_refl eq_refl eq_refl eq_refl).
Defined.

Lemma flattened_text_holds_every_record_witness :
  contains (URL_LABEL ++ about_url ++ [NEWLINE])
    (full_data_text [full_record; bare_record]) = true
  /\ contains (MAIN_TEXT_LABEL ++ py "About" ++ [NEWLINE])
       (full_data_text [full_record; bare_record]) = true.
Proof.
  destruct (flattened_text_holds_every_record [full_record; bare_record] bare_record)
    as (H1 & H2 & _).
  - right. left. reflexivity.
  - split; [exact H1 | exact H2].
Defined.

Lemma answers_are_stripped_witness :
  answer_questions third_request_fails 0 (py "summary") five_questions !! 2%nat
  = Some (py "q3", None).
Proof.
  destruct (answers_are_stripped third_request_fails 0 (py "summary") five_questions)
    as (_ & _ & H).
  apply (H 2%nat (py "q3")); [reflexivity|].
  intros c. vm_compute. discriminate.
Defined.

(** The flattened text of the two example records. *)
Example full_data_text_example :
  full_data_text [bare_record]
  = [NEWLINE] ++ RULE ++ [NEWLINE] ++ py "URL: http://example.com/about"
    ++ [NEWLINE] ++ RULE ++ [NEWLINE; NEWLINE] ++ MAIN_TEXT_LABEL ++ py "About"
    ++ [NEWLINE].
Proof. vm_compute. reflexivity. Qed.


(** On the home page of the example site the source of the logo resolves,
    and the OCR loop returns; on a page whose image names a host with an
    opening bracket and no closing one, the loop raises [ValueError]. *)
Lemma helper_methods_never_raise_witness :
  (exists entries s',
     ocr_images site_world home_url
       (find_all_with (py "img") (py "src") home_page) (site_scraper 20)
     = (Ok entries, s'))
  /\ exists img,
       In img (find_all_with (py "img") (py "src") bracket_image_page)
       /\ urljoin site_world home_url (img_src img) = Err ValueError.
Proof.
  destruct (helper_methods_never_raise site_world) as (_ & _ & Hret & Hraise).
  split.
  - apply Hret. vm_compute. repeat constructor. eexists. reflexivity.
  - apply (Hraise home_url (find_all_with (py "img") (py "src") bracket_image_page)
             (site_scraper 20) ValueError (site_scraper 20)).
    vm_compute. reflexivity.
Defined.

Lemma pdf_request_budget_witness :
  exists final,
    run site_world (init site_world home_url 20 true 10485760 false ∅) = Some final
    /\ download_requests (events final) = 0%nat.
Proof.
  destruct (pdf_request_budget site_world home_url 20 true 10485760 false ∅)
    as (final & Hrun & _ & _ & _ & Hoff).
  exists final. split; [exact Hrun | apply Hoff; reflexivity].
Defined.
